(** * MediX front end: a shallow embedding of the client-side logic

    The development follows the React components of the repository:
    - [JsString]        the string primitives the components call
                        ([toLowerCase], [includes], [trim], truthiness);
    - [SymptomChat]     components/Disease/SymptomChat.jsx;
    - [AppointmentList] components/Appointments/AppointmentList.jsx;
    - [BookAppointment] components/Appointments/BookAppointment.jsx;
    - [ImageDetection]  components/Disease/ImageDetection.jsx;
    - [AuthContext]     contexts/AuthContext.jsx;
    - [App]             App.jsx (route guards);
    - [PatientDashboard], [DoctorDashboard], [Signup], [HomePage],
      [Header]          the components of those names.

    Component state ([useState] cells) is a record and an event handler is a
    function on it. Everything a handler does to the outside world (HTTP
    requests, toasts, file reads) is appended to an explicit log. An
    [async] handler is run against the answer of the server, which is an
    argument of the function; for the chat, where the order of requests
    and answers is what matters, a call is cut at its [await]s, so that
    other events can happen while it waits.

    What the browser decides, and not the repository, is an argument as
    well: the offset of local time and the reading of a date string (a
    [Host]), and the router's matching of a path against a location (a
    [Matcher]). A property that needs something of them says so in a
    hypothesis.

    The first half of the file holds the definitions, one module per
    source file; the second half holds the properties, one module of facts
    per component. *)

From stdpp Require Import base option list strings gmap.
From Stdlib Require Import ZArith Ascii String List Bool Lia Sorted Permutation.
From Equations Require Import Equations.
Import ListNotations.

Local Open Scope string_scope.
Local Open Scope Z_scope.
Local Open Scope list_scope.

(** ** JavaScript strings

    A string is a sequence of code units; the embedding covers the code
    units 0..255 (ASCII and Latin-1), which Rocq's [ascii] holds. *)
Module JsString.

(** [c.toLowerCase()] on one code unit below 256: A-Z and the Latin-1
    capitals U+00C0..U+00DE (without the multiplication sign U+00D7) move
    up by 32, everything else is unchanged. *)
Definition lowerCodeUnit (c : ascii) : ascii :=
  let n := Z.of_N (N_of_ascii c) in
  if ((65 <=? n) && (n <=? 90)) ||
     ((192 <=? n) && (n <=? 222) && negb (n =? 215))
  then ascii_of_N (Z.to_N (n + 32))
  else c.

(** [String.prototype.toLowerCase] *)
Fixpoint toLowerCase (s : string) : string :=
  match s with
  | EmptyString => EmptyString
  | String c s' => String (lowerCodeUnit c) (toLowerCase s')
  end.

(** [s.startsWith(k)] *)
Fixpoint startsWith (s k : string) {struct k} : bool :=
  match k, s with
  | EmptyString, _ => true
  | String _ _, EmptyString => false
  | String a k', String b s' => if ascii_dec a b then startsWith s' k' else false
  end.

(** [String.prototype.includes]: [k] occurs in [s] at some position. *)
Fixpoint includes (s k : string) : bool :=
  startsWith s k ||
  match s with
  | EmptyString => false
  | String _ s' => includes s' k
  end.

(** The declarative reading of "contains as a substring". *)
Definition isSubstringOf (k s : string) : Prop :=
  exists pre post : string, s = pre +:+ k +:+ post.

(** WhiteSpace and LineTerminator code units below 256, the ones
    [String.prototype.trim] strips: TAB, LF, VT, FF, CR, SP, NBSP. *)
Definition isWhiteSpace (c : ascii) : bool :=
  let n := Z.of_N (N_of_ascii c) in
  ((9 <=? n) && (n <=? 13)) || (n =? 32) || (n =? 160).

Fixpoint trimStart (s : string) : string :=
  match s with
  | EmptyString => EmptyString
  | String c s' => if isWhiteSpace c then trimStart s' else s
  end.

Fixpoint trimEnd (s : string) : string :=
  match s with
  | EmptyString => EmptyString
  | String c s' =>
      match trimEnd s' with
      | EmptyString => if isWhiteSpace c then EmptyString else String c EmptyString
      | t => String c t
      end
  end.

(** [String.prototype.trim] *)
Definition trim (s : string) : string := trimEnd (trimStart s).

(** A string made of white space only (the empty string included). *)
Fixpoint whitespaceOnly (s : string) : bool :=
  match s with
  | EmptyString => true
  | String c s' => isWhiteSpace c && whitespaceOnly s'
  end.

(** ToBoolean on a string: only the empty string is falsy. *)
Definition truthy (s : string) : bool :=
  match s with
  | EmptyString => false
  | String _ _ => true
  end.

(** ToBoolean on a value that is [null]/[undefined] or a string. *)
Definition truthyOpt (o : option string) : bool :=
  match o with
  | None => false
  | Some s => truthy s
  end.

(** [a || b] on strings, [b] being the fallback. *)
Definition orElse (a : option string) (b : string) : string :=
  match a with
  | Some s => if truthy s then s else b
  | None => b
  end.

End JsString.

(** ** What the components share: the logged-in user (the [user] object
    that AuthContext hands out; only the fields the components read). *)
Record User := mkUser {
  full_name : string;
  user_type : string;
  city : string
}.

(** [user?.user_type === t] *)
Definition userTypeIs (user : option User) (t : string) : bool :=
  match user with
  | Some u => bool_decide (user_type u = t)
  | None => false
  end.

(** ** components/Disease/SymptomChat.jsx *)
Module SymptomChat.
Import JsString.

(** One entry of the transcript. The [timestamp] field ([new Date()]) is a
    wall-clock reading that no handler inspects; it is left out. *)
Record Message := mkMessage {
  type : string;
  content : string
}.

(** [response.data] of /chat/start and /chat/continue. A reply may lack the
    [session_id] field ([undefined]). *)
Record ChatResponse := mkChatResponse {
  response : string;
  session_id : option string
}.

(** [response.data] of /disease/emergency-assessment. *)
Record EmergencyData := mkEmergencyData {
  urgency_level : string;
  immediate_actions : string
}.

(** The requests of the component, with the bodies the handlers build. *)
Inductive Request :=
| ChatStart (message : string)
    (* api.post('/chat/start', {message}) *)
| ChatContinue (message : string) (sid : string)
    (* api.post('/chat/continue', {message, session_id}) *)
| EmergencyAssessment (symptoms : string).
    (* api.post('/disease/emergency-assessment', {symptoms}) *)

(** The traffic of the component in the order it happens: a request goes
    out, and later its answer comes in ([None]: the promise is rejected). *)
Inductive NetEvent :=
| Sent (q : Request)
| ChatAnswered (q : Request) (reply : option ChatResponse)
| EmergencyAnswered (q : Request) (reply : option EmergencyData).

(** A call of [sendMessage] that waits at an [await], with the values its
    closure holds: at the chat request ([inputMessage] and the session id
    it saw), or at the emergency assessment. *)
Inductive Suspended :=
| AwaitChat (input : string) (session : option string)
| AwaitEmergency (input : string).

(** The [useState] cells; then the calls of [sendMessage] that wait for an
    answer; then the logs of what the component did to the outside world. *)
Record State := mkState {
  messages : list Message;
  inputMessage : string;
  loading : bool;
  sessionId : option string;
  emergencyAssessment : option EmergencyData;
  calls : list Suspended;
  network : list NetEvent;
  toasts : list string
}.

Definition setMessages (f : list Message -> list Message) (st : State) : State :=
  mkState (f (messages st)) (inputMessage st) (loading st) (sessionId st)
          (emergencyAssessment st) (calls st) (network st) (toasts st).

Definition setInputMessage (v : string) (st : State) : State :=
  mkState (messages st) v (loading st) (sessionId st)
          (emergencyAssessment st) (calls st) (network st) (toasts st).

Definition setLoading (v : bool) (st : State) : State :=
  mkState (messages st) (inputMessage st) v (sessionId st)
          (emergencyAssessment st) (calls st) (network st) (toasts st).

Definition setSessionId (v : option string) (st : State) : State :=
  mkState (messages st) (inputMessage st) (loading st) v
          (emergencyAssessment st) (calls st) (network st) (toasts st).

Definition setEmergencyAssessment (v : option EmergencyData) (st : State) : State :=
  mkState (messages st) (inputMessage st) (loading st) (sessionId st)
          v (calls st) (network st) (toasts st).

Definition setCalls (v : list Suspended) (st : State) : State :=
  mkState (messages st) (inputMessage st) (loading st) (sessionId st)
          (emergencyAssessment st) v (network st) (toasts st).

(** The traffic log grows by one event. *)
Definition traffic (e : NetEvent) (st : State) : State :=
  mkState (messages st) (inputMessage st) (loading st) (sessionId st)
          (emergencyAssessment st) (calls st) (network st ++ [e]) (toasts st).

(** [await api.post(...)]: the request goes out and the call waits. *)
Definition await (q : Request) (k : Suspended) (st : State) : State :=
  setCalls (calls st ++ [k]) (traffic (Sent q) st).

Definition toastError (m : string) (st : State) : State :=
  mkState (messages st) (inputMessage st) (loading st) (sessionId st)
          (emergencyAssessment st) (calls st) (network st) (toasts st ++ [m]).

Definition emergencyKeywords : list string :=
  [ "chest pain"; "difficulty breathing"; "severe pain"; "bleeding heavily";
    "unconscious"; "stroke"; "heart attack"; "suicide"; "overdose";
    "severe headache"; "high fever"; "can't breathe" ].

(** [emergencyKeywords.some(keyword => message.toLowerCase().includes(keyword))] *)
Definition containsEmergencyKeywords (message : string) : bool :=
  existsb (fun keyword => includes (toLowerCase message) keyword) emergencyKeywords.

(** utils/constants.js exports the same list as [EMERGENCY_KEYWORDS]. *)
Definition EMERGENCY_KEYWORDS : list string :=
  [ "chest pain";
    "difficulty breathing";
    "severe pain";
    "bleeding heavily";
    "unconscious";
    "stroke";
    "heart attack";
    "suicide";
    "overdose";
    "severe headache";
    "high fever";
    "can't breathe" ].

Definition errorMessage : Message :=
  mkMessage "assistant"
    "I apologize, but I'm having trouble responding right now. Please try again in a moment, or if you have urgent medical concerns, please contact a healthcare professional immediately.".

(** The session id the handler sees as present: [if (sessionId)]. *)
Definition recordedSession (st : State) : option string :=
  match sessionId st with
  | Some sid => if truthy sid then Some sid else None
  | None => None
  end.

(** The chat request of a call that saw [session]. *)
Definition chatRequest (input : string) (session : option string) : Request :=
  match session with
  | Some sid => ChatContinue input sid
  | None => ChatStart input
  end.

(** [sendMessage] from its start to the [await] of the chat request. *)
Definition sendMessage (st : State) : State :=
  if negb (truthy (trim (inputMessage st))) then st
  else
    let input := inputMessage st in
    let session := recordedSession st in
    let userMessage := mkMessage "user" input in
    let st := setMessages (fun prev => prev ++ [userMessage]) st in
    let st := setLoading true st in
    (* try *)
    await (chatRequest input session) (AwaitChat input session) st.

(** The [finally] block of [sendMessage]. *)
Definition finally (st : State) : State :=
  setInputMessage "" (setLoading false st).

(** [sendMessage] from the answer of the chat request on: to the [await]
    inside [checkEmergencyStatus] when the message holds a keyword, and
    to its end otherwise. *)
Definition chatAnswered (input : string) (session : option string)
    (reply : option ChatResponse) (st : State) : State :=
  let st := traffic (ChatAnswered (chatRequest input session) reply) st in
  match reply with
  | Some r =>
      let st :=
        match session with
        | Some _ => st
        | None => setSessionId (session_id r) st
        end in
      let assistantMessage := mkMessage "assistant" (response r) in
      let st := setMessages (fun prev => prev ++ [assistantMessage]) st in
      if containsEmergencyKeywords input
      then (* checkEmergencyStatus(inputMessage) *)
        await (EmergencyAssessment input) (AwaitEmergency input) st
      else finally st
  | None =>
      (* catch *)
      let st := toastError "Failed to send message. Please try again." st in
      let st := setMessages (fun prev => prev ++ [errorMessage]) st in
      finally st
  end.

(** [checkEmergencyStatus] from the answer of its request on, and the end
    of the [sendMessage] call that awaited it. *)
Definition emergencyAnswered (symptoms : string) (reply : option EmergencyData)
    (st : State) : State :=
  let st := traffic (EmergencyAnswered (EmergencyAssessment symptoms) reply) st in
  let st :=
    match reply with
    | Some data => setEmergencyAssessment (Some data) st
    | None => st   (* console.error only *)
    end in
  finally st.

Definition newChatGreeting : Message :=
  mkMessage "assistant"
    "Hello again! I'm ready to help with any new symptoms or concerns you might have. What can I assist you with today?".

Definition startNewChat (st : State) : State :=
  let st := setMessages (fun _ => [newChatGreeting]) st in
  let st := setSessionId None st in
  setEmergencyAssessment None st.

(** [disabled={loading || !inputMessage.trim()}] on the send button. *)
Definition sendDisabled (st : State) : bool :=
  loading st || negb (truthy (trim (inputMessage st))).

(** The welcome message of the mount effect; [user?.full_name] prints as
    [undefined] without a user. *)
Definition welcome (user : option User) : Message :=
  mkMessage "assistant"
    ("Hello " +:+ match user with Some u => full_name u | None => "undefined" end +:+
     "! I'm your AI medical assistant. I'm here to help you understand your symptoms and provide medical guidance. Please describe what you're experiencing, and I'll do my best to assist you.

Remember: I provide information and guidance, but I'm not a replacement for professional medical care. If you have severe symptoms or concerns, please consult with a healthcare professional.").

(** The component after mounting. *)
Definition initial (user : option User) : State :=
  mkState [welcome user] "" false None None [] [] [].

(** What happens to the component: the user types, asks to send (button
    or Enter key), asks for a new chat; the server answers the request of
    the [i]-th waiting call. The page does not let the user type or send
    while [loading] is set; the events here are not held to that, so what
    holds of every run holds of the page's runs. *)
Inductive Event :=
| TypeText (text : string)
| Send
| NewChat
| ChatReply (i : nat) (reply : option ChatResponse)
| EmergencyReply (i : nat) (reply : option EmergencyData).

Definition step (st : State) (e : Event) : State :=
  match e with
  | TypeText text => setInputMessage text st
  | Send => sendMessage st
  | NewChat => startNewChat st
  | ChatReply i reply =>
      match calls st !! i with
      | Some (AwaitChat input session) =>
          chatAnswered input session reply (setCalls (delete i (calls st)) st)
      | _ => st
      end
  | EmergencyReply i reply =>
      match calls st !! i with
      | Some (AwaitEmergency input) =>
          emergencyAnswered input reply (setCalls (delete i (calls st)) st)
      | _ => st
      end
  end.

Definition run (events : list Event) (st : State) : State :=
  fold_left step events st.

(** One message sent and answered without anything happening in between:
    the user types [text] and sends, the server answers the chat request
    with [chatReply] and, if an emergency assessment is asked for, that
    one with [emergencyReply]. *)
Definition say (text : string) (chatReply : option ChatResponse)
    (emergencyReply : option EmergencyData) : list Event :=
  [ TypeText text; Send; ChatReply 0 chatReply; EmergencyReply 0 emergencyReply ].

(** The session ids that answers of /chat/start have handed out in a log. *)
Definition issuedBy (log : list NetEvent) (sid : string) : Prop :=
  exists message r,
    In (ChatAnswered (ChatStart message) (Some r)) log /\ session_id r = Some sid.

(** A log in which every /chat/continue carries a non-empty session id
    that an earlier answer of a /chat/start in the same log returned. *)
Definition continuesAreIssued (log : list NetEvent) : Prop :=
  forall l1 message sid l2,
    log = l1 ++ Sent (ChatContinue message sid) :: l2 ->
    truthy sid = true /\ issuedBy l1 sid.

(** The invariant of the component: the log is well formed and the
    session id the handler would use has been issued. *)
Definition sessionInvariant (st : State) : Prop :=
  continuesAreIssued (network st) /\
  forall sid, recordedSession st = Some sid -> issuedBy (network st) sid.

(** [handleKeyPress]: Enter without Shift sends, every other key is left
    to the textarea. *)
Definition handleKeyPress (key : string) (shiftKey : bool) (st : State) : State :=
  if bool_decide (key = "Enter") && negb shiftKey then sendMessage st else st.

(** The alert box above the transcript,
    [emergencyAssessment && emergencyAssessment.urgency_level === 'emergency'],
    with the [immediate_actions] text it shows. *)
Definition emergencyAlert (st : State) : option string :=
  match emergencyAssessment st with
  | Some data =>
      if bool_decide (urgency_level data = "emergency")
      then Some (immediate_actions data) else None
  | None => None
  end.

(** A property of every event of a log, given the events before it. *)
Definition eachEvent (P : list NetEvent -> NetEvent -> Prop)
    (log : list NetEvent) : Prop :=
  forall l1 e l2, log = l1 ++ e :: l2 -> P l1 e.

(** An emergency assessment is asked for a text with a keyword, right
    after the chat request that carried the text was answered. *)
Definition afterKeywordAnswer (before : list NetEvent) (e : NetEvent) : Prop :=
  match e with
  | Sent (EmergencyAssessment s) =>
      containsEmergencyKeywords s = true /\
      exists l0 session r,
        before = l0 ++ [ChatAnswered (chatRequest s session) (Some r)]
  | _ => True
  end.

(** The calls that wait for an emergency assessment hold a text with a
    keyword. *)
Definition waitingForKeyword (k : Suspended) : Prop :=
  match k with
  | AwaitEmergency s => containsEmergencyKeywords s = true
  | AwaitChat _ _ => True
  end.

(** The invariant behind the two statements on emergency assessments. *)
Definition assessmentInvariant (st : State) : Prop :=
  eachEvent afterKeywordAnswer (network st) /\
  Forall waitingForKeyword (calls st) /\
  (forall data, emergencyAssessment st = Some data ->
     exists s, containsEmergencyKeywords s = true /\
               In (EmergencyAnswered (EmergencyAssessment s) (Some data)) (network st)).

End SymptomChat.

(** ** components/Appointments/AppointmentList.jsx *)
Module AppointmentList.
Import JsString.

(** An appointment as /appointments/my-appointments returns it; kept are
    the fields that filtering, sorting and the action column read.
    [appointment_date] is the time value of [new Date(appointment_date)]. *)
Record Appointment := mkAppointment {
  id : Z;
  status : string;
  appointment_date : Z;
  meet_link : option string
}.

Inductive Request :=
| GetMyAppointments
    (* api.get('/appointments/my-appointments') *)
| PutStatus (appointmentId : Z) (newStatus notes : string).
    (* api.put(`/appointments/appointments/${appointmentId}/status`, {status, notes}) *)

Record State := mkState {
  appointments : list Appointment;
  loading : bool;
  filter : string;
  requests : list Request;
  toasts : list string
}.

(** The component before the mount effect has run. *)
Definition initial : State := mkState [] true "all" [] [].

(** [fetchAppointments]; [reply] is [None] when the request fails and
    otherwise [response.data.appointments], which may be missing. *)
Definition fetchAppointments (reply : option (option (list Appointment)))
    (st : State) : State :=
  let reqs := requests st ++ [GetMyAppointments] in
  match reply with
  | Some data =>
      mkState (match data with Some l => l | None => [] end)
              false (filter st) reqs (toasts st)
  | None =>
      mkState (appointments st) false (filter st) reqs
              (toasts st ++ ["Failed to load appointments"])
  end.

(** [updateAppointmentStatus(appointmentId, newStatus, notes = '')];
    [putOk] tells whether the PUT succeeded, [refetch] answers the refresh. *)
Definition updateAppointmentStatus (appointmentId : Z) (newStatus notes : string)
    (putOk : bool) (refetch : option (option (list Appointment)))
    (st : State) : State :=
  let st := mkState (appointments st) (loading st) (filter st)
                    (requests st ++ [PutStatus appointmentId newStatus notes])
                    (toasts st) in
  if putOk then
    let st := mkState (appointments st) (loading st) (filter st) (requests st)
                      (toasts st ++ ["Appointment " +:+ newStatus +:+ " successfully"]) in
    fetchAppointments refetch st
  else
    mkState (appointments st) (loading st) (filter st) (requests st)
            (toasts st ++ ["Failed to update appointment status"]).

(** The predicate of [appointments.filter(...)]; [now] is [new Date()]. *)
Definition keeps (now : Z) (filter : string) (appointment : Appointment) : bool :=
  if bool_decide (filter = "all") then true
  else if bool_decide (filter = "upcoming") then
    bool_decide (status appointment = "scheduled") && (now <? appointment_date appointment)
  else bool_decide (status appointment = filter).

Definition filteredAppointments (now : Z) (st : State) : list Appointment :=
  List.filter (keeps now (filter st)) (appointments st).

(** [(a, b) => new Date(b.appointment_date) - new Date(a.appointment_date)] *)
Definition byDateDescending (a b : Appointment) : Z :=
  appointment_date b - appointment_date a.

(** [Array.prototype.sort] is a stable sort; insertion sort stands for it. *)
Fixpoint insertSorted (cmp : Appointment -> Appointment -> Z) (x : Appointment)
    (l : list Appointment) : list Appointment :=
  match l with
  | [] => [x]
  | y :: l' => if cmp x y <=? 0 then x :: l else y :: insertSorted cmp x l'
  end.

Definition sort (cmp : Appointment -> Appointment -> Z) (l : list Appointment)
    : list Appointment :=
  fold_right (insertSorted cmp) [] l.

Definition sortedAppointments (now : Z) (st : State) : list Appointment :=
  sort byDateDescending (filteredAppointments now st).

(** What a click handler of the action column calls. *)
Inductive Handler :=
| UpdateAppointmentStatus (appointmentId : Z) (newStatus : string).

(** The elements of the action column of one appointment card. *)
Inductive Action :=
| JoinCall (href : string)
| Button (label : string) (onClick : Handler).

Definition isScheduled (appointment : Appointment) : bool :=
  bool_decide (status appointment = "scheduled").

(** The "Actions" block of the card of one appointment. *)
Definition renderActions (user : option User) (appointment : Appointment)
    : list Action :=
  (match meet_link appointment with
   | Some link =>
       if truthy link && isScheduled appointment then [JoinCall link] else []
   | None => []
   end)
  ++
  (if isScheduled appointment then
     (if userTypeIs user "doctor"
      then [Button "Complete" (UpdateAppointmentStatus (id appointment) "completed")]
      else [])
     ++ [Button "Cancel" (UpdateAppointmentStatus (id appointment) "cancelled")]
   else []).

(** The cards of the list, in display order; [None] is the spinner shown
    while the first fetch is pending. *)
Definition render (user : option User) (now : Z) (st : State)
    : option (list (Appointment * list Action)) :=
  if loading st then None
  else Some (map (fun appointment => (appointment, renderActions user appointment))
                 (sortedAppointments now st)).

(** Running a click handler. *)
Definition click (h : Handler) (putOk : bool)
    (refetch : option (option (list Appointment))) (st : State) : State :=
  match h with
  | UpdateAppointmentStatus appointmentId newStatus =>
      updateAppointmentStatus appointmentId newStatus "" putOk refetch st
  end.

(** The status change a button asks the server for, if it asks for one. *)
Definition statusChange (a : Action) : option (Z * string) :=
  match a with
  | JoinCall _ => None
  | Button _ (UpdateAppointmentStatus i s) => Some (i, s)
  end.

(** [getStatusColor] *)
Definition getStatusColor (status : string) : string :=
  if bool_decide (status = "scheduled") then
    "bg-yellow-100 text-yellow-800 border-yellow-200"
  else if bool_decide (status = "completed") then
    "bg-green-100 text-green-800 border-green-200"
  else if bool_decide (status = "cancelled") then
    "bg-red-100 text-red-800 border-red-200"
  else "bg-gray-100 text-gray-800 border-gray-200".

(** A filter tab: [onClick={() => setFilter(key)}]. *)
Definition setFilter (key : string) (st : State) : State :=
  mkState (appointments st) (loading st) key (requests st) (toasts st).

(** The keys of the four filter tabs. *)
Definition filterTabs : list string := ["all"; "upcoming"; "completed"; "cancelled"].

(** The order of the list: [a] stands before [b] when [a] is not earlier. *)
Definition notEarlier (a b : Appointment) : Prop :=
  appointment_date b <= appointment_date a.

End AppointmentList.

(** ** components/Appointments/BookAppointment.jsx *)
Module BookAppointment.

(** *** Numbers to text *)

Definition digitChar (d : Z) : ascii := ascii_of_N (Z.to_N (48 + d)).

(** The decimal digits of a non-negative integer, most significant first,
    in front of [acc]. *)
Equations? digitsOnto (n : Z) (acc : string) : string
    by wf (Z.to_nat (Z.log2 n)) lt :=
  digitsOnto n acc with Z_lt_dec n 10 => {
    | left _ => String (digitChar (n mod 10)) acc
    | right _ => digitsOnto (n / 10) (String (digitChar (n mod 10)) acc)
  }.
Proof.
  assert (H2 : 0 < n / 2) by (apply Z.div_str_pos; lia).
  assert (Hle : n / 10 <= n / 2) by (apply Z.div_le_compat_l; lia).
  assert (Hn : 2 * (n / 2) <= n) by (apply Z.mul_div_le; lia).
  pose proof (Z.log2_le_mono _ _ Hle) as H10.
  pose proof (Z.log2_le_mono _ _ Hn) as Hd.
  rewrite Z.log2_double in Hd by exact H2.
  pose proof (Z.log2_nonneg (n / 10)).
  lia.
Qed.

(** [Number.prototype.toString()] on an integer. *)
Definition numberToString (n : Z) : string :=
  if n <? 0 then String "-" (digitsOnto (- n) "") else digitsOnto n "".

(** [s.padStart(targetLength, pad)] for a one-character [pad]. *)
Definition padStart (targetLength : nat) (pad : ascii) (s : string) : string :=
  string_of_list_ascii (repeat pad (Nat.sub targetLength (String.length s))) +:+ s.

(** *** Time slots *)

(** [`${hour.toString().padStart(2, '0')}:${minute.toString().padStart(2, '0')}`] *)
Definition timeString (hour minute : Z) : string :=
  padStart 2 "0" (numberToString hour) +:+ ":" +:+ padStart 2 "0" (numberToString minute).

(** [for (let minute = 0; minute < 60; minute += 30) slots.push(timeString)],
    entered with the current [minute]. *)
Equations? minuteLoop (hour minute : Z) (slots : list string) : list string
    by wf (Z.to_nat (60 - minute)) lt :=
  minuteLoop hour minute slots with Z_lt_dec minute 60 => {
    | left _ => minuteLoop hour (minute + 30) (slots ++ [timeString hour minute])
    | right _ => slots
  }.
Proof. lia. Qed.

(** [for (let hour = 9; hour <= 17; hour++) { ... }], entered with the
    current [hour]. *)
Equations? hourLoop (hour : Z) (slots : list string) : list string
    by wf (Z.to_nat (18 - hour)) lt :=
  hourLoop hour slots with Z_le_dec hour 17 => {
    | left _ => hourLoop (hour + 1) (minuteLoop hour 0 slots)
    | right _ => slots
  }.
Proof. lia. Qed.

Definition generateTimeSlots : list string := hourLoop 9 [].

(** The slot list as the specification words it: the times at :00 and :30
    of the day that lie within 09:00-17:00, ascending. A time of day is
    counted in minutes after midnight. *)
Definition halfHoursOfDay : list Z := map (fun k => 30 * Z.of_nat k) (seq 0 48).

Definition specTimeSlots : list string :=
  map (fun t => timeString (t / 60) (t mod 60))
      (List.filter (fun t => (9 * 60 <=? t) && (t <=? 17 * 60)) halfHoursOfDay).

(** *** Dates

    A [Date] object is its time value: milliseconds since the epoch, UTC.
    The functions below are the abstract operations of the ECMAScript
    specification (section "Date Objects") under their names there. What
    the engine and the system around the page decide is a [Host]: the
    offset of local time, which changes with daylight saving, and the
    reading of a date string. *)

(** [LocalTZA host t true] is the offset of local time in milliseconds at
    the instant [t], and [LocalTZA host t false] the offset for the local
    time value [t] (the engine's choice where a local time occurs twice or
    not at all). [dateParse host s] is [Date.parse(s)], the time value of
    [new Date(s)]; [None] is NaN, the Invalid Date. *)
Record Host := mkHost {
  LocalTZA : Z -> bool -> Z;
  dateParse : string -> option Z
}.

Definition msPerDay : Z := 86400000.

Definition Day (t : Z) : Z := t / msPerDay.

Definition TimeWithinDay (t : Z) : Z := t mod msPerDay.

Definition DaysInYear (y : Z) : Z :=
  if negb (y mod 4 =? 0) then 365
  else if negb (y mod 100 =? 0) then 366
  else if negb (y mod 400 =? 0) then 365
  else 366.

Definition DayFromYear (y : Z) : Z :=
  365 * (y - 1970) + (y - 1969) / 4 - (y - 1901) / 100 + (y - 1601) / 400.

(** The largest year [y] whose first day is not after [t]: an estimate
    from the mean year length, corrected by one year either way. *)
Definition YearFromTime (t : Z) : Z :=
  let d := Day t in
  let y0 := 1970 + (d * 400) / 146097 in
  if DayFromYear (y0 + 1) <=? d then y0 + 1
  else if DayFromYear y0 <=? d then y0
  else y0 - 1.

Definition leapDays (y : Z) : Z := DaysInYear y - 365.

Definition InLeapYear (t : Z) : Z := leapDays (YearFromTime t).

Definition DayWithinYear (t : Z) : Z := Day t - DayFromYear (YearFromTime t).

(** Days of the year that precede month [m] (0 = January). *)
Definition daysBeforeMonth (m leap : Z) : Z :=
  match m with
  | 0 => 0
  | 1 => 31
  | 2 => 59 + leap
  | 3 => 90 + leap
  | 4 => 120 + leap
  | 5 => 151 + leap
  | 6 => 181 + leap
  | 7 => 212 + leap
  | 8 => 243 + leap
  | 9 => 273 + leap
  | 10 => 304 + leap
  | _ => 334 + leap
  end.

Definition MonthFromTime (t : Z) : Z :=
  let d := DayWithinYear t in
  let leap := InLeapYear t in
  if d <? 31 then 0
  else if d <? 59 + leap then 1
  else if d <? 90 + leap then 2
  else if d <? 120 + leap then 3
  else if d <? 151 + leap then 4
  else if d <? 181 + leap then 5
  else if d <? 212 + leap then 6
  else if d <? 243 + leap then 7
  else if d <? 273 + leap then 8
  else if d <? 304 + leap then 9
  else if d <? 334 + leap then 10
  else 11.

Definition DateFromTime (t : Z) : Z :=
  DayWithinYear t - daysBeforeMonth (MonthFromTime t) (InLeapYear t) + 1.

Definition HourFromTime (t : Z) : Z := (t / 3600000) mod 24.
Definition MinFromTime (t : Z) : Z := (t / 60000) mod 60.
Definition SecFromTime (t : Z) : Z := (t / 1000) mod 60.
Definition msFromTime (t : Z) : Z := t mod 1000.

(** [MakeDay(year, month, date)]: the day number of the first of the month
    plus [date - 1]; [month] and [date] may lie outside their usual range. *)
Definition MakeDay (year month date : Z) : Z :=
  let ym := year + month / 12 in
  let mn := month mod 12 in
  DayFromYear ym + daysBeforeMonth mn (leapDays ym) + date - 1.

Definition MakeDate (day time : Z) : Z := day * msPerDay + time.

Definition LocalTime (host : Host) (t : Z) : Z := t + LocalTZA host t true.

Definition UTC (host : Host) (t : Z) : Z := t - LocalTZA host t false.

(** [TimeClip]: a time value lies within 100,000,000 days of the epoch. *)
Definition maxTimeValue : Z := 8640000000000000.

Definition TimeClip (t : Z) : option Z :=
  if Z.abs t <=? maxTimeValue then Some t else None.

(** [Date.prototype.getDate] *)
Definition getDate (host : Host) (t : Z) : Z := DateFromTime (LocalTime host t).

(** [Date.prototype.setDate(dt)]: the new time value of the object, in
    local time the day [dt] of the month of [t] at the time of day of [t];
    [None] is NaN. *)
Definition setDate (host : Host) (dt t : Z) : option Z :=
  let local := LocalTime host t in
  let newDate :=
    MakeDate (MakeDay (YearFromTime local) (MonthFromTime local) dt)
             (TimeWithinDay local) in
  TimeClip (UTC host newDate).

(** The year of an ISO date: four digits, or a sign and six digits outside
    0..9999. *)
Definition isoYear (y : Z) : string :=
  if (0 <=? y) && (y <=? 9999) then padStart 4 "0" (numberToString y)
  else (if y <? 0 then "-" else "+") +:+
       padStart 6 "0" (numberToString (Z.abs y)).

(** [Date.prototype.toISOString] on a time value: YYYY-MM-DDTHH:mm:ss.sssZ,
    in UTC. On the Invalid Date it throws a RangeError. *)
Definition toISOString (t : Z) : string :=
  isoYear (YearFromTime t) +:+ "-" +:+
  padStart 2 "0" (numberToString (MonthFromTime t + 1)) +:+ "-" +:+
  padStart 2 "0" (numberToString (DateFromTime t)) +:+ "T" +:+
  padStart 2 "0" (numberToString (HourFromTime t)) +:+ ":" +:+
  padStart 2 "0" (numberToString (MinFromTime t)) +:+ ":" +:+
  padStart 2 "0" (numberToString (SecFromTime t)) +:+ "." +:+
  padStart 3 "0" (numberToString (msFromTime t)) +:+ "Z".

(** [s.split(sep)[0]] for a one-character separator: [s] up to the first
    occurrence of [sep]. *)
Fixpoint splitFirst (sep : ascii) (s : string) : string :=
  match s with
  | EmptyString => EmptyString
  | String c s' => if ascii_dec c sep then EmptyString else String c (splitFirst sep s')
  end.

(** The calendar date that [toISOString] prints for a time value. *)
Definition isoDate (t : Z) : string := splitFirst "T" (toISOString t).

(** [getMinDate]; [now] is the value of [new Date()]. [None] is the
    RangeError of [toISOString]. *)
Definition getMinDate (host : Host) (now : Z) : option string :=
  let tomorrow := now in
  tomorrow ← setDate host (getDate host tomorrow + 1) tomorrow;
  Some (splitFirst "T" (toISOString tomorrow)).

(** [getMaxDate] *)
Definition getMaxDate (host : Host) (now : Z) : option string :=
  let maxDate := now in
  maxDate ← setDate host (getDate host maxDate + 30) maxDate;
  Some (splitFirst "T" (toISOString maxDate)).

(** The [min] and [max] attributes of the date input of step 2. *)
Definition dateInputRange (host : Host) (now : Z) : option (string * string) :=
  min ← getMinDate host now;
  max ← getMaxDate host now;
  Some (min, max).

(** *** The booking form *)

(** The date-time form YYYY-MM-DDTHH:mm:ss of the ECMAScript specification
    ("Date Time String Format"), which is read as local time: the local
    time value of a string of that form whose elements are legal and name
    a day of the calendar, [None] for every other string. Every engine
    reads the strings of the format so ([readsDateTimeFormat] below); what
    a host makes of other strings is its [dateParse] (V8 reads 2024-02-30
    as 1 March, other engines as the Invalid Date). *)
Definition digitValue (c : ascii) : option Z :=
  let n := Z.of_N (N_of_ascii c) in
  if (48 <=? n) && (n <=? 57) then Some (n - 48) else None.

Definition twoDigits (a b : ascii) : option Z :=
  x ← digitValue a; y ← digitValue b; Some (10 * x + y).

Definition fourDigits (a b c d : ascii) : option Z :=
  x ← twoDigits a b; y ← twoDigits c d; Some (100 * x + y).

Definition DaysInMonth (year month : Z) : Z :=
  (if month =? 11 then 365 + leapDays year
   else daysBeforeMonth (month + 1) (leapDays year))
  - daysBeforeMonth month (leapDays year).

Definition msPerHour : Z := 3600000.
Definition msPerMinute : Z := 60000.
Definition msPerSecond : Z := 1000.

Definition MakeTime (hour min sec ms : Z) : Z :=
  hour * msPerHour + min * msPerMinute + sec * msPerSecond + ms.

(** The day number of YYYY-MM-DD. *)
Definition dateOf (y1 y2 y3 y4 m1 m2 d1 d2 : ascii) : option Z :=
  year ← fourDigits y1 y2 y3 y4;
  month ← twoDigits m1 m2;
  day ← twoDigits d1 d2;
  if (1 <=? month) && (month <=? 12) && (1 <=? day)
     && (day <=? DaysInMonth year (month - 1))
  then Some (MakeDay year (month - 1) day) else None.

(** The time within the day of HH:mm:ss; 24:00:00 is the end of the day. *)
Definition timeOf (h1 h2 n1 n2 s1 s2 : ascii) : option Z :=
  hour ← twoDigits h1 h2;
  min ← twoDigits n1 n2;
  sec ← twoDigits s1 s2;
  if ((hour <=? 23) && (min <=? 59) && (sec <=? 59))
     || ((hour =? 24) && (min =? 0) && (sec =? 0))
  then Some (MakeTime hour min sec 0) else None.

Definition isChar (c : ascii) (expected : string) : bool :=
  bool_decide (String c EmptyString = expected).

Definition parseLocalDateTime (s : string) : option Z :=
  match list_ascii_of_string s with
  | [y1; y2; y3; y4; p1; m1; m2; p2; d1; d2; t; h1; h2; c1; n1; n2; c2; s1; s2] =>
      if isChar p1 "-" && isChar p2 "-" && isChar t "T"
         && isChar c1 ":" && isChar c2 ":"
      then day ← dateOf y1 y2 y3 y4 m1 m2 d1 d2;
           time ← timeOf h1 h2 n1 n2 s1 s2;
           Some (MakeDate day time)
      else None
  | _ => None
  end.

(** The two halves of the form on their own: the day number of a string
    YYYY-MM-DD, and the time within the day of a string HH:mm. *)
Definition parseDate (s : string) : option Z :=
  match list_ascii_of_string s with
  | [y1; y2; y3; y4; p1; m1; m2; p2; d1; d2] =>
      if isChar p1 "-" && isChar p2 "-"
      then dateOf y1 y2 y3 y4 m1 m2 d1 d2 else None
  | _ => None
  end.

Definition parseTime (s : string) : option Z :=
  match list_ascii_of_string s with
  | [h1; h2; c1; n1; n2] =>
      if isChar c1 ":" then timeOf h1 h2 n1 n2 "0" "0" else None
  | _ => None
  end.

(** A host reads the strings of the date-time format as the specification
    says: as local time, taken to UTC and clipped. *)
Definition readsDateTimeFormat (host : Host) : Prop :=
  forall s local,
    parseLocalDateTime s = Some local ->
    dateParse host s = TimeClip (UTC host local).

(** The offsets of a host stay within a day. *)
Definition offsetsWithinADay (host : Host) : Prop :=
  forall t isUTC, Z.abs (LocalTZA host t isUTC) <= msPerDay.

(** A host whose zone is a constant [tza] milliseconds ahead of UTC and
    which reads the date-time format and nothing else. *)
Definition fixedOffsetHost (tza : Z) : Host :=
  mkHost (fun _ _ => tza)
         (fun s => local ← parseLocalDateTime s; TimeClip (local - tza)).

(** A day of the month as V8 takes it: any day from 01 to 31, carried
    over into the next month where the month is shorter. *)
Definition dateOfCarrying (y1 y2 y3 y4 m1 m2 d1 d2 : ascii) : option Z :=
  year ← fourDigits y1 y2 y3 y4;
  month ← twoDigits m1 m2;
  day ← twoDigits d1 d2;
  if (1 <=? month) && (month <=? 12) && (1 <=? day) && (day <=? 31)
  then Some (MakeDay year (month - 1) day) else None.

Definition parseCarrying (s : string) : option Z :=
  match list_ascii_of_string s with
  | [y1; y2; y3; y4; p1; m1; m2; p2; d1; d2; t; h1; h2; c1; n1; n2; c2; s1; s2] =>
      if isChar p1 "-" && isChar p2 "-" && isChar t "T"
         && isChar c1 ":" && isChar c2 ":"
      then day ← dateOfCarrying y1 y2 y3 y4 m1 m2 d1 d2;
           time ← timeOf h1 h2 n1 n2 s1 s2;
           Some (MakeDate day time)
      else None
  | _ => None
  end.

(** New York in 2024: five hours behind UTC, four from 10 March, 07:00 UTC
    to 3 November, 06:00 UTC. A local time that the clocks skip is read
    with the offset before the change, one that occurs twice as the
    earlier instant. Days past the end of a month are carried over. *)
Definition newYorkOffset (t : Z) (isUTC : bool) : Z :=
  if isUTC then
    if (1710054000000 <=? t) && (t <? 1730613600000)
    then - 4 * msPerHour else - 5 * msPerHour
  else
    if (1710039600000 <=? t) && (t <? 1730599200000)
    then - 4 * msPerHour else - 5 * msPerHour.

Definition newYork2024 : Host :=
  mkHost newYorkOffset
         (fun s => local ← parseCarrying s;
                   TimeClip (local - newYorkOffset local false)).

(** A doctor of a search result. *)
Record Doctor := mkDoctor {
  doctor_id : Z;
  doctor_name : string;
  doctor_specialty : string;
  doctor_city : string
}.

(** The requests of the component with their parameters and bodies, and
    whether they were answered ([true]) or rejected. *)
Inductive Exchange :=
| GetSpecialties (ok : bool)
    (* api.get('/appointments/doctors/specialties') *)
| SearchDoctors (city : string) (specialty : option string) (ok : bool)
    (* api.get('/appointments/doctors/search', {params: {city, specialty}}) *)
| Book (doctorId : Z) (appointment_date : string)
       (disease_type symptoms : option string) (ok : bool).
    (* api.post('/appointments/book', {doctor_id, appointment_date, ...}) *)

Inductive Toast :=
| ToastSuccess (message : string)
| ToastError (message : string).

(** The [useState] cells ([searchData] and [appointmentData] field by
    field), then the logs. *)
Record Form := mkForm {
  step : Z;
  searchCity : string;
  searchSpecialty : string;
  doctors : list Doctor;
  specialties : list string;
  selectedDoctor : option Doctor;
  apptDate : string;
  apptTime : string;
  apptDiseaseType : string;
  apptSymptoms : string;
  loading : bool;
  searching : bool;
  exchanges : list Exchange;
  toasts : list Toast
}.

(** The component on mounting: [city: user?.city || '']. *)
Definition initialForm (user : option User) : Form :=
  mkForm 1 (JsString.orElse (option_map city user) "") "" [] [] None
         "" "" "" "" false false [] [].

Definition setStep (v : Z) (f : Form) : Form :=
  mkForm v (searchCity f) (searchSpecialty f) (doctors f) (specialties f)
         (selectedDoctor f) (apptDate f) (apptTime f) (apptDiseaseType f)
         (apptSymptoms f) (loading f) (searching f) (exchanges f) (toasts f).

Definition setSearchCity (v : string) (f : Form) : Form :=
  mkForm (step f) v (searchSpecialty f) (doctors f) (specialties f)
         (selectedDoctor f) (apptDate f) (apptTime f) (apptDiseaseType f)
         (apptSymptoms f) (loading f) (searching f) (exchanges f) (toasts f).

Definition setSearchSpecialty (v : string) (f : Form) : Form :=
  mkForm (step f) (searchCity f) v (doctors f) (specialties f)
         (selectedDoctor f) (apptDate f) (apptTime f) (apptDiseaseType f)
         (apptSymptoms f) (loading f) (searching f) (exchanges f) (toasts f).

Definition setDoctors (v : list Doctor) (f : Form) : Form :=
  mkForm (step f) (searchCity f) (searchSpecialty f) v (specialties f)
         (selectedDoctor f) (apptDate f) (apptTime f) (apptDiseaseType f)
         (apptSymptoms f) (loading f) (searching f) (exchanges f) (toasts f).

Definition setSpecialties (v : list string) (f : Form) : Form :=
  mkForm (step f) (searchCity f) (searchSpecialty f) (doctors f) v
         (selectedDoctor f) (apptDate f) (apptTime f) (apptDiseaseType f)
         (apptSymptoms f) (loading f) (searching f) (exchanges f) (toasts f).

Definition setSelectedDoctor (v : option Doctor) (f : Form) : Form :=
  mkForm (step f) (searchCity f) (searchSpecialty f) (doctors f) (specialties f)
         v (apptDate f) (apptTime f) (apptDiseaseType f)
         (apptSymptoms f) (loading f) (searching f) (exchanges f) (toasts f).

Definition setApptDate (v : string) (f : Form) : Form :=
  mkForm (step f) (searchCity f) (searchSpecialty f) (doctors f) (specialties f)
         (selectedDoctor f) v (apptTime f) (apptDiseaseType f)
         (apptSymptoms f) (loading f) (searching f) (exchanges f) (toasts f).

Definition setApptTime (v : string) (f : Form) : Form :=
  mkForm (step f) (searchCity f) (searchSpecialty f) (doctors f) (specialties f)
         (selectedDoctor f) (apptDate f) v (apptDiseaseType f)
         (apptSymptoms f) (loading f) (searching f) (exchanges f) (toasts f).

Definition setApptDiseaseType (v : string) (f : Form) : Form :=
  mkForm (step f) (searchCity f) (searchSpecialty f) (doctors f) (specialties f)
         (selectedDoctor f) (apptDate f) (apptTime f) v
         (apptSymptoms f) (loading f) (searching f) (exchanges f) (toasts f).

Definition setApptSymptoms (v : string) (f : Form) : Form :=
  mkForm (step f) (searchCity f) (searchSpecialty f) (doctors f) (specialties f)
         (selectedDoctor f) (apptDate f) (apptTime f) (apptDiseaseType f)
         v (loading f) (searching f) (exchanges f) (toasts f).

Definition setFormLoading (v : bool) (f : Form) : Form :=
  mkForm (step f) (searchCity f) (searchSpecialty f) (doctors f) (specialties f)
         (selectedDoctor f) (apptDate f) (apptTime f) (apptDiseaseType f)
         (apptSymptoms f) v (searching f) (exchanges f) (toasts f).

Definition setSearching (v : bool) (f : Form) : Form :=
  mkForm (step f) (searchCity f) (searchSpecialty f) (doctors f) (specialties f)
         (selectedDoctor f) (apptDate f) (apptTime f) (apptDiseaseType f)
         (apptSymptoms f) (loading f) v (exchanges f) (toasts f).

Definition exchanged (e : Exchange) (f : Form) : Form :=
  mkForm (step f) (searchCity f) (searchSpecialty f) (doctors f) (specialties f)
         (selectedDoctor f) (apptDate f) (apptTime f) (apptDiseaseType f)
         (apptSymptoms f) (loading f) (searching f) (exchanges f ++ [e]) (toasts f).

Definition toast (t : Toast) (f : Form) : Form :=
  mkForm (step f) (searchCity f) (searchSpecialty f) (doctors f) (specialties f)
         (selectedDoctor f) (apptDate f) (apptTime f) (apptDiseaseType f)
         (apptSymptoms f) (loading f) (searching f) (exchanges f) (toasts f ++ [t]).

(** [v || null] and [v || undefined] on a string. *)
Definition orNull (v : string) : option string :=
  if JsString.truthy v then Some v else None.

(** [fetchSpecialties]; the answer is [response.data.specialties]. *)
Definition fetchSpecialties (reply : option (list string)) (f : Form) : Form :=
  match reply with
  | Some l => setSpecialties l (exchanged (GetSpecialties true) f)
  | None => exchanged (GetSpecialties false) f   (* console.error only *)
  end.

(** [searchDoctors]; the answer is [response.data.doctors]. *)
Definition searchDoctors (reply : option (list Doctor)) (f : Form) : Form :=
  if negb (JsString.truthy (JsString.trim (searchCity f))) then
    toast (ToastError "Please enter a city") f
  else
    let f := setSearching true f in
    let f :=
      (* try *)
      match reply with
      | Some found =>
          let f := exchanged (SearchDoctors (searchCity f)
                                (orNull (searchSpecialty f)) true) f in
          let f := setDoctors found f in
          if (length found =? 0)%nat then
            toast (ToastError
              "No doctors found in your area. Try a different city or specialty.") f
          else f
      | None =>
          (* catch *)
          let f := exchanged (SearchDoctors (searchCity f)
                                (orNull (searchSpecialty f)) false) f in
          toast (ToastError "Failed to search doctors. Please try again.") f
      end in
    (* finally *)
    setSearching false f.

Definition selectDoctor (doctor : Doctor) (f : Form) : Form :=
  setStep 2 (setSelectedDoctor (Some doctor) f).

(** The answer to POST /appointments/book: success, or a rejection with
    [error.response?.data?.detail]. *)
Inductive BookReply :=
| BookOk
| BookFailed (detail : option string).

(** [bookAppointment], run against the server's [reply]. Inside the [try]
    block the body of the request is built first: reading [id] of a
    missing doctor throws a TypeError and [toISOString] of an Invalid Date
    a RangeError, both caught as errors without [response], before any
    request is made. *)
Definition bookAppointment (host : Host) (reply : BookReply) (f : Form) : Form :=
  if negb (JsString.truthy (apptDate f)) || negb (JsString.truthy (apptTime f)) then
    toast (ToastError "Please select date and time") f
  else
    let f := setFormLoading true f in
    let f :=
      (* try *)
      let appointmentDateTime :=
        dateParse host (apptDate f +:+ "T" +:+ apptTime f +:+ ":00") in
      match selectedDoctor f, appointmentDateTime with
      | Some doctor, Some t =>
          let body ok :=
            Book (doctor_id doctor) (toISOString t)
                 (orNull (apptDiseaseType f)) (orNull (apptSymptoms f)) ok in
          match reply with
          | BookOk =>
              let f := exchanged (body true) f in
              let f := toast (ToastSuccess "Appointment booked successfully!") f in
              setStep 3 f
          | BookFailed detail =>
              (* catch *)
              let f := exchanged (body false) f in
              toast (ToastError (JsString.orElse detail "Failed to book appointment")) f
          end
      | _, _ =>
          (* catch *)
          toast (ToastError (JsString.orElse None "Failed to book appointment")) f
      end in
    (* finally *)
    setFormLoading false f.

(** [disabled={loading || !appointmentData.date || !appointmentData.time}] *)
Definition bookDisabled (f : Form) : bool :=
  loading f || negb (JsString.truthy (apptDate f))
            || negb (JsString.truthy (apptTime f)).

(** What the user can do, control by control. A control acts only while
    it is on screen and enabled: the search card and the doctor cards
    with [step === 1], the booking card with [step === 2 && selectedDoctor];
    the time [select] offers the empty option and the slots. *)
Inductive FormEvent :=
| TypeCity (v : string)
| ChooseSpecialty (v : string)
| ClickSearch (reply : option (list Doctor))
| ClickSelectDoctor (i : nat)
| PickDate (v : string)
| ChooseTime (v : string)
| TypeConcern (v : string)
| TypeSymptoms (v : string)
| ClickBack
| ClickBook (reply : BookReply).

Definition onSearchCard (f : Form) : bool := step f =? 1.

Definition onBookingCard (f : Form) : bool :=
  (step f =? 2) && match selectedDoctor f with Some _ => true | None => false end.

Definition formStep (host : Host) (f : Form) (e : FormEvent) : Form :=
  match e with
  | TypeCity v => if onSearchCard f then setSearchCity v f else f
  | ChooseSpecialty v =>
      if onSearchCard f && bool_decide (v ∈ "" :: specialties f)
      then setSearchSpecialty v f else f
  | ClickSearch reply =>
      if onSearchCard f && negb (searching f) then searchDoctors reply f else f
  | ClickSelectDoctor i =>
      if onSearchCard f then
        match doctors f !! i with
        | Some doctor => selectDoctor doctor f
        | None => f
        end
      else f
  | PickDate v => if onBookingCard f then setApptDate v f else f
  | ChooseTime v =>
      if onBookingCard f && bool_decide (v ∈ "" :: generateTimeSlots)
      then setApptTime v f else f
  | TypeConcern v => if onBookingCard f then setApptDiseaseType v f else f
  | TypeSymptoms v => if onBookingCard f then setApptSymptoms v f else f
  | ClickBack => if onBookingCard f then setStep 1 f else f
  | ClickBook reply =>
      if onBookingCard f && negb (bookDisabled f)
      then bookAppointment host reply f else f
  end.

Definition formRun (host : Host) (events : list FormEvent) (f : Form) : Form :=
  fold_left (formStep host) events f.

(** A booking request asks for one of the slots: its [appointment_date]
    is the ISO string of the instant that the host reads from a date-time
    string whose time is a slot. *)
Definition bookingAtSlot (host : Host) (e : Exchange) : Prop :=
  match e with
  | Book _ when _ _ _ =>
      exists date slot t,
        In slot generateTimeSlots /\
        dateParse host (date +:+ "T" +:+ slot +:+ ":00") = Some t /\
        when = toISOString t
  | _ => True
  end.

(** What holds of the form in every run. *)
Definition formInvariant (host : Host) (f : Form) : Prop :=
  (step f = 1 \/ step f = 2 \/ step f = 3) /\
  (step f <> 1 -> selectedDoctor f <> None) /\
  (apptTime f = "" \/ In (apptTime f) generateTimeSlots) /\
  (step f = 3 ->
     exists doctorId when disease symptoms,
       In (Book doctorId when disease symptoms true) (exchanges f)) /\
  Forall (bookingAtSlot host) (exchanges f).

End BookAppointment.

(** ** components/Disease/ImageDetection.jsx *)
Module ImageDetection.
Import JsString.

(** A [File] of the file input. [readResult] is what a [FileReader] makes
    of it: the data URL handed to [onload], or [None] when the read fails
    and [onload] never fires. *)
Record File := mkFile {
  name : string;
  size : Z;
  readResult : option string
}.

(** The body of POST /disease/detect. *)
Record DetectBody := mkDetectBody {
  disease_type : string;
  image_base64 : option string;
  symptoms_sent : option string
}.

(** [response.data] of /disease/detect. *)
Record Results := mkResults {
  final_diagnosis : string;
  recommendations : option string;
  gemini_analysis : option string
}.

(** What a handler does to the outside world. *)
Inductive Effect :=
| ToastError (message : string)
| ToastSuccess (message : string)
| ReadAsDataURL (file : File)          (* reader.readAsDataURL(file) *)
| PostDetect (body : DetectBody).      (* api.post('/disease/detect', body) *)

Record State := mkState {
  selectedModel : string;
  selectedImage : option string;
  imagePreview : option string;
  symptoms : string;
  loading : bool;
  results : option Results;
  effects : list Effect
}.

Definition initial : State := mkState "" None None "" false None [].

Definition effect (e : Effect) (st : State) : State :=
  mkState (selectedModel st) (selectedImage st) (imagePreview st) (symptoms st)
          (loading st) (results st) (effects st ++ [e]).

Definition setSelectedImage (v : option string) (st : State) : State :=
  mkState (selectedModel st) v (imagePreview st) (symptoms st)
          (loading st) (results st) (effects st).

Definition setImagePreview (v : option string) (st : State) : State :=
  mkState (selectedModel st) (selectedImage st) v (symptoms st)
          (loading st) (results st) (effects st).

Definition setLoading (v : bool) (st : State) : State :=
  mkState (selectedModel st) (selectedImage st) (imagePreview st) (symptoms st)
          v (results st) (effects st).

Definition setResults (v : option Results) (st : State) : State :=
  mkState (selectedModel st) (selectedImage st) (imagePreview st) (symptoms st)
          (loading st) v (effects st).

(** [10 * 1024 * 1024] *)
Definition sizeLimit : Z := 10 * 1024 * 1024.

(** [reader.onload]: [e.target.result] becomes image and preview. *)
Definition readerOnload (result : string) (st : State) : State :=
  let st := setSelectedImage (Some result) st in
  setImagePreview (Some result) st.

(** [handleImageSelect], up to the return of the handler: [files] is
    [event.target.files]. *)
Definition handleImageSelect (files : list File) (st : State) : State :=
  match files with
  | file :: _ =>
      if size file >? sizeLimit then
        effect (ToastError "Image size should be less than 10MB") st
      else
        effect (ReadAsDataURL file) st
  | [] => st
  end.

(** The change event of the file input together with the completion of
    the read it starts, if it starts one and the read succeeds. *)
Definition selectFile (files : list File) (st : State) : State :=
  let st' := handleImageSelect files st in
  match files with
  | file :: _ =>
      if size file >? sizeLimit then st'
      else match readResult file with
           | Some result => readerOnload result st'
           | None => st'
           end
  | [] => st'
  end.

(** The answer to POST /disease/detect: the data, or a rejection with
    [error.response?.data?.detail]. *)
Inductive DetectReply :=
| DetectOk (data : Results)
| DetectFailed (detail : option string).

(** [symptoms.trim() || null] *)
Definition normalizedSymptoms (symptoms : string) : option string :=
  if truthy (trim symptoms) then Some (trim symptoms) else None.

(** [handleDetection], run to completion against the server's [reply]. *)
Definition handleDetection (reply : DetectReply) (st : State) : State :=
  if negb (truthy (selectedModel st)) then
    effect (ToastError "Please select a disease type") st
  else if negb (truthyOpt (selectedImage st)) then
    effect (ToastError "Please upload an image") st
  else
    let st := setLoading true st in
    let st := setResults None st in
    let st :=
      (* try *)
      let st := effect (PostDetect (mkDetectBody (selectedModel st) (selectedImage st)
                                                  (normalizedSymptoms (symptoms st)))) st in
      match reply with
      | DetectOk data =>
          let st := setResults (Some data) st in
          effect (ToastSuccess "Analysis completed successfully!") st
      | DetectFailed detail =>
          (* catch *)
          effect (ToastError (orElse detail "Analysis failed. Please try again.")) st
      end in
    (* finally *)
    setLoading false st.

(** The detection requests among the effects. *)
Definition detectRequests (l : list Effect) : list DetectBody :=
  flat_map (fun e => match e with PostDetect b => [b] | _ => [] end) l.

(** The file reads among the effects. *)
Definition fileReads (l : list Effect) : list File :=
  flat_map (fun e => match e with ReadAsDataURL f => [f] | _ => [] end) l.

(** Modelled from the spec: the server side of /disease/detect is not part
    of the sources at hand; section 4.4 has the Symptom Refiner "invoked
    only when symptomText is non-empty". The condition, on the request body: *)
Definition refinerInvoked (body : DetectBody) : bool :=
  truthyOpt (symptoms_sent body).

(** [resetForm]; the file input it empties is not part of the state. *)
Definition resetForm (st : State) : State :=
  mkState "" None None "" (loading st) None (effects st).

(** The button on the preview: both image cells go back to null. *)
Definition removeImage (st : State) : State :=
  setImagePreview None (setSelectedImage None st).

Definition setSelectedModel (v : string) (st : State) : State :=
  mkState v (selectedImage st) (imagePreview st) (symptoms st)
          (loading st) (results st) (effects st).

Definition setSymptoms (v : string) (st : State) : State :=
  mkState (selectedModel st) (selectedImage st) (imagePreview st) v
          (loading st) (results st) (effects st).

(** [disabled={loading || !selectedModel || !selectedImage}] on the
    Analyze button. *)
Definition analyzeDisabled (st : State) : bool :=
  loading st || negb (truthy (selectedModel st))
             || negb (truthyOpt (selectedImage st)).

(** What happens on the page: the user's actions, and the completion of
    a file read that was started earlier (the [i]-th effect of the log),
    which may come at any later time. The remove button is on screen with
    a preview only, and the Analyze button acts only while enabled. *)
Inductive Event :=
| ChooseModel (key : string)
| PickFiles (files : list File)
| ReadDone (i : nat)
| ClickRemoveImage
| TypeSymptoms (text : string)
| ClickAnalyze (reply : DetectReply)
| ClickReset.

Definition step (st : State) (e : Event) : State :=
  match e with
  | ChooseModel key => setSelectedModel key st
  | PickFiles files => handleImageSelect files st
  | ReadDone i =>
      match effects st !! i with
      | Some (ReadAsDataURL file) =>
          match readResult file with
          | Some result => readerOnload result st
          | None => st
          end
      | _ => st
      end
  | ClickRemoveImage => if truthyOpt (imagePreview st) then removeImage st else st
  | TypeSymptoms text => setSymptoms text st
  | ClickAnalyze reply => if analyzeDisabled st then st else handleDetection reply st
  | ClickReset => resetForm st
  end.

Definition run (events : list Event) (st : State) : State :=
  fold_left step events st.

(** An image that a read of a file within the size limit delivered. *)
Definition readFromAdmittedFile (log : list Effect) (image : string) : Prop :=
  exists file,
    In (ReadAsDataURL file) log /\ readResult file = Some image /\
    size file <= sizeLimit.

(** What holds of the page in every run. *)
Definition pageInvariant (st : State) : Prop :=
  imagePreview st = selectedImage st /\
  (forall image, selectedImage st = Some image ->
     readFromAdmittedFile (effects st) image) /\
  (forall body, In (PostDetect body) (effects st) ->
     truthy (disease_type body) = true /\
     exists image,
       image_base64 body = Some image /\ truthy image = true /\
       readFromAdmittedFile (effects st) image) /\
  (forall file, In (ReadAsDataURL file) (effects st) -> size file <= sizeLimit) /\
  loading st = false.

End ImageDetection.

(** ** contexts/AuthContext.jsx *)
Module AuthContext.
Import JsString.

(** A request as it leaves the client. *)
Record ApiRequest := mkApiRequest {
  method : string;
  url : string;
  headers : gmap string string
}.

Inductive Toast :=
| ToastSuccess (message : string)
| ToastError (message : string).

(** The provider's state cells [user] and [loading], the browser's
    [localStorage], the [api.defaults.headers.common] object of the HTTP
    client, and the logs of toasts and of requests sent. *)
Record World := mkWorld {
  user : option User;
  loading : bool;
  localStorage : gmap string string;
  defaultHeaders : gmap string string;
  toasts : list Toast;
  sent : list ApiRequest
}.

(** The provider on a fresh page load, over what the browser has stored. *)
Definition initial (stored : gmap string string) : World :=
  mkWorld None true stored ∅ [] [].

Definition setUser (v : option User) (w : World) : World :=
  mkWorld v (loading w) (localStorage w) (defaultHeaders w) (toasts w) (sent w).

Definition setLoading (v : bool) (w : World) : World :=
  mkWorld (user w) v (localStorage w) (defaultHeaders w) (toasts w) (sent w).

(** [localStorage.setItem(key, value)] *)
Definition setItem (key value : string) (w : World) : World :=
  mkWorld (user w) (loading w) (<[key := value]> (localStorage w))
          (defaultHeaders w) (toasts w) (sent w).

(** [localStorage.removeItem(key)] *)
Definition removeItem (key : string) (w : World) : World :=
  mkWorld (user w) (loading w) (delete key (localStorage w))
          (defaultHeaders w) (toasts w) (sent w).

(** [api.defaults.headers.common[name] = value] *)
Definition setHeader (name value : string) (w : World) : World :=
  mkWorld (user w) (loading w) (localStorage w)
          (<[name := value]> (defaultHeaders w)) (toasts w) (sent w).

(** [delete api.defaults.headers.common[name]] *)
Definition deleteHeader (name : string) (w : World) : World :=
  mkWorld (user w) (loading w) (localStorage w)
          (delete name (defaultHeaders w)) (toasts w) (sent w).

Definition toast (t : Toast) (w : World) : World :=
  mkWorld (user w) (loading w) (localStorage w) (defaultHeaders w)
          (toasts w ++ [t]) (sent w).

(** Modelled from the spec: services/api.js, the HTTP client [api], is not
    part of the sources at hand. Section 6 has the bearer token "sent on
    every subsequent request": a request made through [api] carries the
    default headers as they are when it is made. *)
Definition request (method url : string) (w : World) : World :=
  mkWorld (user w) (loading w) (localStorage w) (defaultHeaders w) (toasts w)
          (sent w ++ [mkApiRequest method url (defaultHeaders w)]).

(** The answer to a login or signup request: [response.data] with its
    [access_token] and [user] (which a reply may lack), or a rejection with
    [error.response?.data?.detail]. *)
Inductive AuthReply :=
| AuthOk (access_token : string) (userData : option User)
| AuthFailed (detail : option string).

(** The answer to GET /auth/me. *)
Inductive MeReply :=
| MeOk (data : option User)
| MeFailed.

(** The object a login or signup call resolves to. *)
Record Outcome := mkOutcome {
  success : bool;
  error : option string
}.

Definition bearer (token : string) : string := "Bearer " +:+ token.

(** [checkAuthStatus]; [reply] answers GET /auth/me when it is sent. *)
Definition checkAuthStatus (reply : MeReply) (w : World) : World :=
  let w :=
    (* try *)
    match localStorage w !! "medix_token" with
    | Some token =>
        if truthy token then
          let w := setHeader "Authorization" (bearer token) w in
          let w := request "GET" "/auth/me" w in
          match reply with
          | MeOk data => setUser data w
          | MeFailed =>
              (* catch *)
              let w := removeItem "medix_token" w in
              deleteHeader "Authorization" w
          end
        else w
    | None => w
    end in
  (* finally *)
  setLoading false w.

(** The part that [login] and [signup] share after the request: the [try]
    block from the destructuring of [response.data] on, and the [catch]
    block. [greeting] is the text in front of the name in the success
    toast, [fallback] the default error message. Reading [full_name] of a
    missing user throws a TypeError, which the [catch] block receives as an
    error without [response]. *)
Definition settle (greeting fallback : string) (reply : AuthReply) (w : World)
    : World * Outcome :=
  match reply with
  | AuthOk access_token userData =>
      let w := setItem "medix_token" access_token w in
      let w := setHeader "Authorization" (bearer access_token) w in
      let w := setUser userData w in
      match userData with
      | Some u =>
          let w := toast (ToastSuccess (greeting +:+ full_name u +:+ "!")) w in
          (w, mkOutcome true None)
      | None =>
          (* catch, after the TypeError *)
          let message := orElse None fallback in
          (toast (ToastError message) w, mkOutcome false (Some message))
      end
  | AuthFailed detail =>
      (* catch *)
      let message := orElse detail fallback in
      (toast (ToastError message) w, mkOutcome false (Some message))
  end.

(** [login(email, password)] *)
Definition login (email password : string) (reply : AuthReply) (w : World)
    : World * Outcome :=
  let w := request "POST" "/auth/login" w in
  settle "Welcome back, " "Login failed" reply w.

(** [signup(userData)]; of [userData] only [user_type] is read. *)
Definition signup (userData : User) (reply : AuthReply) (w : World)
    : World * Outcome :=
  let endpoint :=
    if bool_decide (user_type userData = "patient")
    then "/auth/signup/patient" else "/auth/signup/doctor" in
  let w := request "POST" endpoint w in
  settle "Welcome to MediX, " "Signup failed" reply w.

(** [logout] *)
Definition logout (w : World) : World :=
  let w := removeItem "medix_token" w in
  let w := deleteHeader "Authorization" w in
  let w := setUser None w in
  toast (ToastSuccess "Logged out successfully") w.

(** Any number of requests made by the rest of the application. *)
Definition requests (l : list (string * string)) (w : World) : World :=
  fold_left (fun w r => request (fst r) (snd r) w) l w.

(** Every request made from [w] on, by whatever part of the application,
    carries [value] as its Authorization header. *)
Definition laterRequestsCarry (w : World) (value : string) : Prop :=
  forall (l : list (string * string)) (r : ApiRequest),
    In r (skipn (length (sent w)) (sent (requests l w))) ->
    headers r !! "Authorization" = Some value.

(** What the application does with the provider after the mount effect. *)
Inductive Op :=
| Login (email password : string) (reply : AuthReply)
| Signup (userData : User) (reply : AuthReply)
| Logout
| Request (method url : string).

Definition perform (w : World) (op : Op) : World :=
  match op with
  | Login email password reply => fst (login email password reply w)
  | Signup userData reply => fst (signup userData reply w)
  | Logout => logout w
  | Request method url => request method url w
  end.

(** A visit of the page: the mount effect runs [checkAuthStatus] once,
    over what the browser has stored, and then the application works with
    the provider. *)
Definition visit (stored : gmap string string) (me : MeReply) (ops : list Op)
    : World :=
  fold_left perform ops (checkAuthStatus me (initial stored)).

(** A logged-in user goes with a stored token and its bearer header. *)
Definition userHasToken (w : World) : Prop :=
  forall u, user w = Some u ->
    exists token,
      localStorage w !! "medix_token" = Some token /\
      defaultHeaders w !! "Authorization" = Some (bearer token).

End AuthContext.

(** ** App.jsx: the route guards *)
Module App.

Inductive Page :=
| HomePage | Login | Signup
| PatientDashboard | DoctorDashboard
| ImageDetection | SymptomChat | AppointmentList | BookAppointment.

(** What a route element renders to. *)
Inductive Rendered :=
| Spinner
| Navigate (to : string)
| Content (page : Page).

Definition ProtectedRoute (user : option User) (loading : bool) (children : Page)
    : Rendered :=
  if loading then Spinner
  else match user with
       | Some _ => Content children
       | None => Navigate "/login"
       end.

Definition PublicRoute (user : option User) (loading : bool) (children : Page)
    : Rendered :=
  if loading then Spinner
  else match user with
       | Some _ => Navigate "/dashboard"
       | None => Content children
       end.

(** The [element] of a [<Route>]. *)
Inductive RouteElement :=
| Public (children : Page)
| Protected (children : Page)
| Forward (to : string).

(** The [<Routes>] table of [AppContent], in source order. *)
Definition routes (user : option User) : list (string * RouteElement) :=
  [ ("/", Public HomePage);
    ("/login", Public Login);
    ("/signup", Public Signup);
    ("/dashboard",
       Protected (if userTypeIs user "patient" then PatientDashboard else DoctorDashboard));
    ("/detect", Protected ImageDetection);
    ("/chat", Protected SymptomChat);
    ("/appointments", Protected AppointmentList);
    ("/book-appointment", Protected BookAppointment);
    ("/", Forward "/dashboard") ].

Definition renderElement (user : option User) (loading : bool) (e : RouteElement)
    : Rendered :=
  match e with
  | Public children => PublicRoute user loading children
  | Protected children => ProtectedRoute user loading children
  | Forward to => Navigate to
  end.

(** Whether the path of a route matches a location is the router's
    decision (react-router, a library the page depends on):
    [matchPath pattern pathname]. It is not equality of strings: the
    router matches without regard to case and to slashes at the end. *)
Definition Matcher : Type := string -> string -> bool.

(** The route that [<Routes>] takes at a location: the first in source
    order whose path matches. The router takes the best ranked of the
    matching routes and, of routes of one rank, the earlier; the paths of
    the table are "/" and static paths of one segment, and under a matcher
    that lets no two different paths of the table match one location
    ([staticMatcher] below) the first match in source order is that
    route. *)
Fixpoint matchRoute (matchPath : Matcher) (pathname : string)
    (table : list (string * RouteElement)) : option RouteElement :=
  match table with
  | [] => None
  | (p, e) :: rest =>
      if matchPath p pathname then Some e else matchRoute matchPath pathname rest
  end.

(** [AppContent] at a location: whether the header is shown ([user &&
    <Header />], with the [user] of the auth context) and what the matching
    route renders, if one matches. *)
Definition AppContent (matchPath : Matcher) (user : option User) (loading : bool)
    (pathname : string) : bool * option Rendered :=
  (match user with Some _ => true | None => false end,
   option_map (renderElement user loading)
              (matchRoute matchPath pathname (routes user))).

(** The pages that sit behind a [ProtectedRoute]. *)
Definition authenticatedPage (p : Page) : bool :=
  match p with
  | HomePage | Login | Signup => false
  | _ => true
  end.

(** Where a location leads: a [<Navigate>] replaces the location and the
    routes are matched again, at most [hops] times. *)
Fixpoint settleAt (hops : nat) (matchPath : Matcher) (user : option User)
    (loading : bool) (pathname : string) : option Rendered :=
  match snd (AppContent matchPath user loading pathname) with
  | Some (Navigate to) =>
      match hops with
      | O => Some (Navigate to)
      | S n => settleAt n matchPath user loading to
      end
  | r => r
  end.

(** The paths of the route table. *)
Definition knownPaths : list string :=
  [ "/"; "/login"; "/signup"; "/dashboard"; "/detect"; "/chat";
    "/appointments"; "/book-appointment" ].

Definition publicPaths : list string := [ "/"; "/login"; "/signup" ].

Definition protectedPaths : list string :=
  [ "/dashboard"; "/detect"; "/chat"; "/appointments"; "/book-appointment" ].

(** [user?.user_type === 'patient' ? <PatientDashboard /> : <DoctorDashboard />] *)
Definition dashboardOf (user : option User) : Page :=
  if userTypeIs user "patient" then PatientDashboard else DoctorDashboard.

(** What the properties of navigation need of the router: every path of
    the table matches itself as a location, and no location is matched by
    two different paths of the table. *)
Definition staticMatcher (matchPath : Matcher) : Prop :=
  (forall p, In p knownPaths -> matchPath p p = true) /\
  (forall p q pathname,
      In p knownPaths -> In q knownPaths ->
      matchPath p pathname = true -> matchPath q pathname = true -> p = q).

(** Two matchers: equality of strings, and a matcher that ignores case
    and slashes at the end of the location. *)
Definition exactMatch : Matcher := fun p pathname => bool_decide (p = pathname).

Fixpoint dropTrailingSlashes (s : string) : string :=
  match s with
  | EmptyString => EmptyString
  | String c s' =>
      match dropTrailingSlashes s' with
      | EmptyString =>
          if bool_decide (c = "/"%char) then EmptyString else String c EmptyString
      | r => String c r
      end
  end.

Definition looseMatch : Matcher := fun p pathname =>
  bool_decide (JsString.toLowerCase (dropTrailingSlashes pathname)
               = JsString.toLowerCase (dropTrailingSlashes p)).

End App.

(** ** components/Dashboard/PatientDashboard.jsx *)
Module PatientDashboard.

(** An entry of /disease/history, with the fields the dashboard prints
    as text. *)
Record Detection := mkDetection {
  disease_type : string;
  final_diagnosis : string
}.

Record Stats := mkStats {
  totalDetections : nat;
  chatSessions : nat;
  upcomingAppointments : nat
}.

Record State := mkState {
  stats : Stats;
  recentResults : list Detection;
  loading : bool;
  requests : list string
}.

Definition initial : State := mkState (mkStats 0 0 0) [] true [].

(** [apt.status === 'scheduled' && new Date(apt.appointment_date) > new Date()] *)
Definition isUpcoming (now : Z) (apt : AppointmentList.Appointment) : bool :=
  bool_decide (AppointmentList.status apt = "scheduled")
  && (now <? AppointmentList.appointment_date apt).

(** [fetchDashboardData]: the two requests go out together
    ([Promise.all]) and the [try] block goes on only when both are
    answered; an answer is [response.data.history], respectively
    [response.data.appointments], which may be missing. *)
Definition fetchDashboardData (now : Z)
    (historyReply : option (option (list Detection)))
    (appointmentsReply : option (option (list AppointmentList.Appointment)))
    (st : State) : State :=
  let sent := requests st ++ ["/disease/history"; "/appointments/my-appointments"] in
  match historyReply, appointmentsReply with
  | Some historyData, Some appointmentsData =>
      let history := match historyData with Some l => l | None => [] end in
      let appointments := match appointmentsData with Some l => l | None => [] end in
      mkState (mkStats (length history) 0
                       (length (List.filter (isUpcoming now) appointments)))
              (firstn 5 history)   (* history.slice(0, 5) *)
              false sent
  | _, _ =>
      (* catch: console.error only *)
      mkState (stats st) (recentResults st) false sent
  end.

(** The [link]s of the three quick actions. *)
Definition quickActions : list string := [ "/detect"; "/chat"; "/book-appointment" ].

End PatientDashboard.

(** ** components/Dashboard/DoctorDashboard.jsx *)
Module DoctorDashboard.

(** An appointment as the doctor's dashboard reads it: the fields of the
    appointment list and the patient's name. *)
Record Appt := mkAppt {
  base : AppointmentList.Appointment;
  patient_name : string
}.

Record Stats := mkStats {
  totalPatients : nat;
  todayAppointments : nat;
  upcomingAppointments : nat;
  completedAppointments : nat
}.

Record State := mkState {
  stats : Stats;
  todaysAppointments : list Appt;
  loading : bool;
  requests : list string
}.

Definition initial : State := mkState (mkStats 0 0 0 0) [] true [].

(** [new Date(apt.appointment_date).toDateString() === today]: the two
    instants print the same local calendar date, which they do when they
    lie on the same local day. *)
Definition isToday (host : BookAppointment.Host) (now : Z) (apt : Appt) : bool :=
  BookAppointment.Day (BookAppointment.LocalTime host
                         (AppointmentList.appointment_date (base apt)))
  =? BookAppointment.Day (BookAppointment.LocalTime host now).

Definition isUpcoming (now : Z) (apt : Appt) : bool :=
  bool_decide (AppointmentList.status (base apt) = "scheduled")
  && (now <? AppointmentList.appointment_date (base apt)).

Definition isCompleted (apt : Appt) : bool :=
  bool_decide (AppointmentList.status (base apt) = "completed").

(** [new Set(appointments.map(apt => apt.patient_name)).size] *)
Definition uniquePatients (appointments : list Appt) : nat :=
  size (list_to_set (map patient_name appointments) : gset string).

(** [fetchDashboardData]; the answer is [response.data.appointments],
    which may be missing. *)
Definition fetchDashboardData (host : BookAppointment.Host) (now : Z)
    (reply : option (option (list Appt))) (st : State) : State :=
  let sent := requests st ++ ["/appointments/my-appointments"] in
  match reply with
  | Some data =>
      let appointments := match data with Some l => l | None => [] end in
      let todayAppts := List.filter (isToday host now) appointments in
      let upcoming := List.filter (isUpcoming now) appointments in
      let completed := List.filter isCompleted appointments in
      mkState (mkStats (uniquePatients appointments) (length todayAppts)
                       (length upcoming) (length completed))
              todayAppts false sent
  | None =>
      (* catch: console.error only *)
      mkState (stats st) (todaysAppointments st) false sent
  end.

(** The "Join Call" link of a row of today's list: [appointment.meet_link &&]. *)
Definition joinCallShown (apt : Appt) : bool :=
  JsString.truthyOpt (AppointmentList.meet_link (base apt)).

End DoctorDashboard.

(** ** components/Auth/Signup.jsx *)
Module Signup.
Import JsString.

(** *** [parseInt] *)

Definition hexValue (c : ascii) : option Z :=
  let n := Z.of_N (N_of_ascii c) in
  if (48 <=? n) && (n <=? 57) then Some (n - 48)
  else if (65 <=? n) && (n <=? 70) then Some (n - 55)
  else if (97 <=? n) && (n <=? 102) then Some (n - 87)
  else None.

(** The number that the longest prefix of digits of [s] denotes, [acc]
    being the value of the digits read so far; [None] when there is no
    digit at all. *)
Fixpoint takeDigits (radix : Z) (value : ascii -> option Z)
    (acc : Z) (seen : bool) (s : string) : option Z :=
  match s with
  | EmptyString => if seen then Some acc else None
  | String c s' =>
      match value c with
      | Some d => takeDigits radix value (radix * acc + d) true s'
      | None => if seen then Some acc else None
      end
  end.

(** A Number that [parseInt] can return. *)
Inductive JsNumber :=
| NaN
| Infinite (negative : bool)
| Finite (value : Z).

(** The Number value of a non-negative integer: the integer itself below
    2^53; from there on the nearest integer with 53 significant bits, the
    even one of two that are equally near; Infinity ([None]) when that is
    2^1024 or more. *)
Definition roundToDouble (m : Z) : option Z :=
  if m <? 2 ^ 53 then Some m
  else
    let e := Z.log2 m - 52 in
    let q := m / 2 ^ e in
    let r := m mod 2 ^ e in
    let half := 2 ^ (e - 1) in
    let q := if (half <? r) || ((r =? half) && Z.odd q) then q + 1 else q in
    if q * 2 ^ e <? 2 ^ 1024 then Some (q * 2 ^ e) else None.

(** [parseInt(s)] without a radix: leading white space is skipped, a sign
    is read, a prefix 0x or 0X selects radix 16, and the digits up to the
    first other character are the number, as a Number value; without a
    digit the result is NaN. (For more than 20 significant decimal digits
    the language allows an approximation of the integer before it is
    rounded; the integer is rounded as it is here, as V8 does.) *)
Definition parseInt (s : string) : JsNumber :=
  let s := trimStart s in
  let negative :=
    match s with String c _ => BookAppointment.isChar c "-" | EmptyString => false end in
  let s :=
    match s with
    | String c s' =>
        if BookAppointment.isChar c "-" || BookAppointment.isChar c "+" then s' else s
    | EmptyString => s
    end in
  let magnitude :=
    match s with
    | String z (String x s') =>
        if BookAppointment.isChar z "0"
           && (BookAppointment.isChar x "x" || BookAppointment.isChar x "X")
        then takeDigits 16 hexValue 0 false s'
        else takeDigits 10 BookAppointment.digitValue 0 false s
    | _ => takeDigits 10 BookAppointment.digitValue 0 false s
    end in
  match magnitude with
  | None => NaN
  | Some m =>
      match roundToDouble m with
      | Some v => Finite (if negative then - v else v)
      | None => Infinite negative
      end
  end.

(** A Number in a JSON body: NaN and the infinities are written as null. *)
Definition onTheWire (n : JsNumber) : option Z :=
  match n with
  | Finite value => Some value
  | _ => None
  end.

(** *** The form *)

(** [formData] is an object used as a map from the [name] of an input to
    its text. *)
Definition initialFormData : gmap string string :=
  list_to_map
    [ ("email", ""); ("password", ""); ("full_name", ""); ("city", "");
      ("phone", ""); ("age", ""); ("gender", "");
      ("specialty", ""); ("license_number", ""); ("experience_years", "") ].

Record State := mkState {
  userType : string;
  formData : gmap string string;
  loading : bool
}.

Definition initial : State := mkState "patient" initialFormData false.

(** [handleChange]: [{...formData, [e.target.name]: e.target.value}] *)
Definition handleChange (name value : string) (st : State) : State :=
  mkState (userType st) (<[name := value]> (formData st)) (loading st).

Definition setUserType (v : string) (st : State) : State :=
  mkState v (formData st) (loading st).

(** What [handleSubmit] hands to [signup], as it goes over the wire: the
    texts of [formData], with [user_type], [age] and [experience_years]
    written over them; [None] is null. *)
Record SubmitData := mkSubmitData {
  texts : gmap string string;
  user_type_sent : string;
  age_sent : option Z;
  experience_years_sent : option Z
}.

(** [formData.age ? parseInt(formData.age) : null] *)
Definition numberOrNull (v : option string) : option Z :=
  match v with
  | Some s => if truthy s then onTheWire (parseInt s) else None
  | None => None
  end.

Definition submitData (st : State) : SubmitData :=
  mkSubmitData
    (delete "user_type" (delete "age" (delete "experience_years" (formData st))))
    (userType st)
    (numberOrNull (formData st !! "age"))
    (numberOrNull (formData st !! "experience_years")).

(** The part of the submitted data that the auth context reads. *)
Definition asUser (data : SubmitData) : User :=
  mkUser (default "" (texts data !! "full_name")) (user_type_sent data)
         (default "" (texts data !! "city")).

(** [handleSubmit], run against the answer to the signup request. *)
Definition handleSubmit (reply : AuthContext.AuthReply) (st : State)
    (w : AuthContext.World) : State * AuthContext.World :=
  let st := mkState (userType st) (formData st) true in
  let w := fst (AuthContext.signup (asUser (submitData st)) reply w) in
  (mkState (userType st) (formData st) false, w).

(** The inputs on screen: the common ones, and the ones of the chosen
    account type. *)
Definition commonInputs : list string :=
  [ "full_name"; "email"; "password"; "city"; "phone" ].

Definition patientInputs : list string := [ "age"; "gender" ].

Definition doctorInputs : list string :=
  [ "specialty"; "license_number"; "experience_years" ].

Definition onScreen (st : State) (name : string) : bool :=
  bool_decide (name ∈ commonInputs)
  || (bool_decide (userType st = "patient") && bool_decide (name ∈ patientInputs))
  || (bool_decide (userType st = "doctor") && bool_decide (name ∈ doctorInputs)).

Inductive Event :=
| ClickPatient
| ClickDoctor
| Change (name value : string).

Definition step (st : State) (e : Event) : State :=
  match e with
  | ClickPatient => setUserType "patient" st
  | ClickDoctor => setUserType "doctor" st
  | Change name value => if onScreen st name then handleChange name value st else st
  end.

Definition run (events : list Event) (st : State) : State :=
  fold_left step events st.

End Signup.

(** ** components/HomePage.js *)
Module HomePage.

(** The titles of the three feature cards. *)
Definition features : list string :=
  [ "AI Image Analysis"; "Smart Symptom Chat"; "Doctor Consultations" ].

(** The interval callback: [setCurrentFeature((prev) => (prev + 1) % 3)]. *)
Definition tick (currentFeature : Z) : Z := (currentFeature + 1) mod 3.

(** The state after [n] ticks of the timer, from the initial 0. *)
Definition afterTicks (n : nat) : Z := Nat.iter n tick 0.

(** The cards drawn as the active one: [currentFeature === index] under
    [features.map((feature, index) => ...)]. *)
Definition highlighted (currentFeature : Z) : list string :=
  map snd
    (filter (fun card => currentFeature =? Z.of_nat (fst card))
       (combine (seq 0 (length features)) features)).

End HomePage.

(** ** components/Layout/Header.jsx *)
Module Header.

(** The links of the navigation bar, as (name, href). *)
Definition navigation (user : option User) : list (string * string) :=
  if userTypeIs user "patient" then
    [ ("Dashboard", "/dashboard");
      ("AI Detection", "/detect");
      ("Symptom Chat", "/chat");
      ("Appointments", "/appointments") ]
  else
    [ ("Dashboard", "/dashboard");
      ("Appointments", "/appointments") ].

(** The link of the current location is the highlighted one:
    [location.pathname === item.href]. *)
Definition highlighted (pathname : string) (item : string * string) : bool :=
  bool_decide (pathname = snd item).

(** The mobile menu: the menu button toggles it, a click on a link of the
    open menu closes it. *)
Definition toggleMenu (isMenuOpen : bool) : bool := negb isMenuOpen.

Definition clickMenuLink (isMenuOpen : bool) : bool := false.

End Header.

(** * Properties *)

(** ** Facts about the string primitives *)
Module JsStringFacts.
Import JsString.

Lemma startsWith_spec (k s : string) :
  startsWith s k = true <-> exists post, s = k +:+ post.
Proof.
  revert s; induction k as [|a k IH]; intros s; simpl.
  - split; [intros _; exists s; reflexivity | reflexivity].
  - destruct s as [|b s]; simpl.
    + split; [discriminate | intros [post H]; discriminate].
    + destruct (ascii_dec a b) as [->|Hne].
      * rewrite IH. split; intros [post H]; exists post.
        -- now rewrite H.
        -- now injection H.
      * split; [discriminate|].
        intros [post H]. injection H as H1 _. congruence.
Qed.

Lemma includes_spec (s k : string) :
  includes s k = true <-> isSubstringOf k s.
Proof.
  unfold isSubstringOf.
  induction s as [|c s IH]; simpl.
  - rewrite orb_false_r, startsWith_spec. split.
    + intros [post H]. exists EmptyString, post. exact H.
    + intros [pre [post H]]. destruct pre; simpl in H.
      * exists post; exact H.
      * discriminate.
  - rewrite orb_true_iff, startsWith_spec, IH. split.
    + intros [[post H] | [pre [post H]]].
      * exists EmptyString, post. exact H.
      * exists (String c pre), post. simpl. now rewrite H.
    + intros [pre [post H]]. destruct pre as [|c' pre]; simpl in H.
      * left. exists post. exact H.
      * right. exists pre, post. now injection H.
Qed.

Lemma trimStart_whitespaceOnly (s : string) :
  trimStart s = EmptyString <-> whitespaceOnly s = true.
Proof.
  induction s as [|c s IH]; simpl.
  - tauto.
  - destruct (isWhiteSpace c); simpl.
    + exact IH.
    + split; discriminate.
Qed.

Lemma trimEnd_empty (s : string) :
  trimEnd s = EmptyString <-> whitespaceOnly s = true.
Proof.
  induction s as [|c s IH]; simpl.
  - tauto.
  - destruct (trimEnd s) eqn:E.
    + destruct (isWhiteSpace c); simpl.
      * rewrite <- IH. tauto.
      * split; discriminate.
    + split; [discriminate|].
      rewrite andb_true_iff. intros [_ H]. apply IH in H. discriminate.
Qed.

Lemma trimStart_not_ws (s : string) :
  whitespaceOnly (trimStart s) = true -> trimStart s = EmptyString.
Proof.
  induction s as [|c s IH]; simpl; [reflexivity|].
  destruct (isWhiteSpace c) eqn:E; [exact IH|].
  simpl. rewrite E. discriminate.
Qed.

(** [s.trim()] is the empty (falsy) string exactly for the strings that
    are empty or white space only. *)
Lemma trim_falsy (s : string) :
  truthy (trim s) = false <-> whitespaceOnly s = true.
Proof.
  unfold trim. transitivity (trimEnd (trimStart s) = EmptyString).
  - destruct (trimEnd (trimStart s)); simpl; split; congruence.
  - rewrite trimEnd_empty. split.
    + intros H. apply trimStart_not_ws in H. now apply trimStart_whitespaceOnly.
    + intros H. apply trimStart_whitespaceOnly in H. now rewrite H.
Qed.

Lemma trim_truthy (s : string) :
  truthy (trim s) = true <-> whitespaceOnly s = false.
Proof.
  rewrite <- !not_true_iff_false, <- trim_falsy.
  destruct (truthy (trim s)); split; congruence.
Qed.

Lemma truthy_not_empty (s : string) : truthy s = true <-> s <> "".
Proof. destruct s; simpl; split; congruence. Qed.

End JsStringFacts.

(** ** The symptom chat *)
Module SymptomChatFacts.
Import JsString JsStringFacts SymptomChat.

(** C1. For every message, [containsEmergencyKeywords] answers [true]
    exactly when the lower-cased message contains one of the keywords as a
    substring; the keywords are the twelve fixed ones (the list that
    constants.js exports as well); "I have chest pain" and "no chest pain"
    are flagged, "mild headache" is not. *)
Theorem containsEmergencyKeywords_iff_keyword_substring :
  (forall s : string,
      containsEmergencyKeywords s = true <->
      exists keyword,
        In keyword emergencyKeywords /\ isSubstringOf keyword (toLowerCase s)) /\
  emergencyKeywords =
    [ "chest pain"; "difficulty breathing"; "severe pain"; "bleeding heavily";
      "unconscious"; "stroke"; "heart attack"; "suicide"; "overdose";
      "severe headache"; "high fever"; "can't breathe" ] /\
  length emergencyKeywords = 12%nat /\
  EMERGENCY_KEYWORDS = emergencyKeywords /\
  containsEmergencyKeywords "I have chest pain" = true /\
  containsEmergencyKeywords "mild headache" = false /\
  containsEmergencyKeywords "no chest pain" = true.
Proof.
  split; [|repeat split; reflexivity].
  intros s. unfold containsEmergencyKeywords.
  rewrite existsb_exists. split.
  - intros [k [Hin Hinc]]. exists k. split; [exact Hin|].
    now apply includes_spec.
  - intros [k [Hin Hsub]]. exists k. split; [exact Hin|].
    now apply includes_spec.
Qed.

(** Lower-casing is applied to the message only: a message in capitals is
    flagged just the same. *)
Example containsEmergencyKeywords_capitals :
  containsEmergencyKeywords "CHEST PAIN since this morning" = true.
Proof. reflexivity. Qed.

(** *** The blank message *)

(** A blank input makes [sendMessage] return at its first line. *)
Lemma sendMessage_blank (st : State) :
  whitespaceOnly (inputMessage st) = true -> sendMessage st = st.
Proof.
  intros Hblank. apply trim_falsy in Hblank.
  unfold sendMessage. now rewrite Hblank.
Qed.

(** C10. With an empty or white-space-only input [sendMessage] gives back
    the state it was given: transcript, session id and traffic log (and
    every other cell) are the same, and no call is left waiting; and the
    send button is disabled. *)
Theorem sendMessage_blank_noop (st : State) :
  whitespaceOnly (inputMessage st) = true ->
  sendMessage st = st /\
  messages (sendMessage st) = messages st /\
  network (sendMessage st) = network st /\
  calls (sendMessage st) = calls st /\
  sessionId (sendMessage st) = sessionId st /\
  sendDisabled st = true.
Proof.
  intros Hblank. rewrite (sendMessage_blank st Hblank). repeat split.
  apply trim_falsy in Hblank.
  unfold sendDisabled. rewrite Hblank. apply orb_true_r.
Qed.

Lemma sendMessage_blank_noop_witness :
  let st := setInputMessage "  " (initial None) in
  sendMessage st = st /\
  messages (sendMessage st) = messages st /\
  network (sendMessage st) = network st /\
  calls (sendMessage st) = calls st /\
  sessionId (sendMessage st) = sessionId st /\
  sendDisabled st = true.
Proof.
  exact (sendMessage_blank_noop (setInputMessage "  " (initial None)) eq_refl).
Defined.

(** The guard is sharp: a message with a visible character is sent. *)
Lemma sendMessage_visible (st : State) :
  whitespaceOnly (inputMessage st) = false ->
  network (sendMessage st) =
    network st ++ [Sent (chatRequest (inputMessage st) (recordedSession st))] /\
  calls (sendMessage st) =
    calls st ++ [AwaitChat (inputMessage st) (recordedSession st)] /\
  messages (sendMessage st) =
    messages st ++ [mkMessage "user" (inputMessage st)] /\
  sessionId (sendMessage st) = sessionId st /\
  loading (sendMessage st) = true.
Proof.
  intros H. apply trim_truthy in H. unfold sendMessage. rewrite H.
  now repeat split.
Qed.

(** *** The session protocol *)

Lemma recordedSession_Some (st : State) (sid : string) :
  recordedSession st = Some sid <-> sessionId st = Some sid /\ truthy sid = true.
Proof.
  unfold recordedSession. destruct (sessionId st) as [s|].
  - destruct (truthy s) eqn:E; split.
    + intros [= ->]. now split.
    + intros [[= ->] _]. reflexivity.
    + discriminate.
    + intros [[= ->] H]. congruence.
  - split; [discriminate | intros [H _]; discriminate].
Qed.

(** What the answer of a chat request does to log and session id. *)
Lemma chatAnswered_effect (input : string) (session : option string)
    (reply : option ChatResponse) (st : State) :
  network (chatAnswered input session reply st) =
    network st ++ ChatAnswered (chatRequest input session) reply ::
      match reply with
      | Some _ =>
          if containsEmergencyKeywords input
          then [Sent (EmergencyAssessment input)] else []
      | None => []
      end /\
  sessionId (chatAnswered input session reply st) =
    match session, reply with
    | None, Some r => session_id r
    | _, _ => sessionId st
    end.
Proof.
  unfold chatAnswered.
  destruct reply as [r|]; simpl; [|now destruct session].
  destruct session, (containsEmergencyKeywords input); simpl;
    rewrite <- ?app_assoc; now split.
Qed.

Lemma emergencyAnswered_effect (symptoms : string) (reply : option EmergencyData)
    (st : State) :
  network (emergencyAnswered symptoms reply st) =
    network st ++ [EmergencyAnswered (EmergencyAssessment symptoms) reply] /\
  sessionId (emergencyAnswered symptoms reply st) = sessionId st.
Proof. unfold emergencyAnswered. now destruct reply. Qed.

Lemma issuedBy_app (l1 l2 : list NetEvent) (sid : string) :
  issuedBy l1 sid -> issuedBy (l1 ++ l2) sid.
Proof.
  intros [m [r [Hin Hs]]]. exists m, r. split; [|exact Hs].
  apply in_or_app. now left.
Qed.

Lemma continuesAreIssued_snoc (log : list NetEvent) (e : NetEvent) :
  continuesAreIssued log ->
  (forall message sid,
      e = Sent (ChatContinue message sid) -> truthy sid = true /\ issuedBy log sid) ->
  continuesAreIssued (log ++ [e]).
Proof.
  intros Hlog He l1 m sid l2 Heq.
  destruct l2 as [|x l2 _] using rev_ind.
  - apply app_inj_tail in Heq as [-> ->]. now apply (He m sid).
  - rewrite app_comm_cons, app_assoc in Heq.
    apply app_inj_tail in Heq as [Heq _].
    now apply (Hlog l1 m sid l2).
Qed.

Lemma recordedSession_same (st st' : State) :
  sessionId st' = sessionId st -> recordedSession st' = recordedSession st.
Proof. unfold recordedSession. now intros ->. Qed.

Lemma sessionInvariant_initial (user : option User) :
  sessionInvariant (initial user).
Proof.
  split.
  - intros l1 m sid l2 H. simpl in H. now destruct l1.
  - discriminate.
Qed.

Lemma sessionInvariant_sendMessage (st : State) :
  sessionInvariant st -> sessionInvariant (sendMessage st).
Proof.
  intros [Hlog Hsid].
  destruct (whitespaceOnly (inputMessage st)) eqn:Hin.
  - now rewrite (sendMessage_blank st Hin).
  - destruct (sendMessage_visible st Hin) as [Hn [_ [_ [Hs _]]]].
    split.
    + rewrite Hn. apply continuesAreIssued_snoc; [exact Hlog|].
      intros m sid E. unfold chatRequest in E.
      destruct (recordedSession st) as [s|] eqn:Hrec; [|discriminate].
      injection E as <- <-. split; [|now apply Hsid].
      now apply recordedSession_Some in Hrec.
    + intros sid H. rewrite (recordedSession_same _ _ Hs) in H.
      rewrite Hn. now apply issuedBy_app, Hsid.
Qed.

Lemma sessionInvariant_setCalls (l : list Suspended) (st : State) :
  sessionInvariant st -> sessionInvariant (setCalls l st).
Proof. intros H. exact H. Qed.

Lemma sessionInvariant_chatAnswered (input : string) (session : option string)
    (reply : option ChatResponse) (st : State) :
  sessionInvariant st -> sessionInvariant (chatAnswered input session reply st).
Proof.
  intros [Hlog Hsid].
  destruct (chatAnswered_effect input session reply st) as [Hn Hs].
  assert (Hlog' : continuesAreIssued (network (chatAnswered input session reply st))).
  { rewrite Hn.
    change (?l ++ ?x :: ?f) with (l ++ [x] ++ f). rewrite app_assoc.
    assert (H1 : continuesAreIssued
                   (network st ++ [ChatAnswered (chatRequest input session) reply]))
      by (apply continuesAreIssued_snoc; [exact Hlog | discriminate]).
    destruct reply; [destruct (containsEmergencyKeywords input)|];
      rewrite ?app_nil_r; try exact H1.
    apply continuesAreIssued_snoc; [exact H1 | discriminate]. }
  split; [exact Hlog'|].
  intros sid H. rewrite Hn.
  destruct session as [s|].
  - assert (E : sessionId (chatAnswered input (Some s) reply st) = sessionId st)
      by (rewrite Hs; now destruct reply).
    rewrite (recordedSession_same _ _ E) in H. now apply issuedBy_app, Hsid.
  - destruct reply as [r|].
    + apply recordedSession_Some in H as [H _]. rewrite Hs in H.
      exists input, r. split; [|exact H].
      apply in_or_app. right. now left.
    + rewrite (recordedSession_same _ _ Hs) in H. now apply issuedBy_app, Hsid.
Qed.

Lemma sessionInvariant_emergencyAnswered (symptoms : string)
    (reply : option EmergencyData) (st : State) :
  sessionInvariant st -> sessionInvariant (emergencyAnswered symptoms reply st).
Proof.
  intros [Hlog Hsid].
  destruct (emergencyAnswered_effect symptoms reply st) as [Hn Hs].
  split.
  - rewrite Hn. apply continuesAreIssued_snoc; [exact Hlog | discriminate].
  - intros sid H. rewrite (recordedSession_same _ _ Hs) in H.
    rewrite Hn. now apply issuedBy_app, Hsid.
Qed.

Lemma sessionInvariant_step (st : State) (e : Event) :
  sessionInvariant st -> sessionInvariant (step st e).
Proof.
  intros H. destruct e as [text| | |i reply|i reply]; simpl.
  - exact H.
  - now apply sessionInvariant_sendMessage.
  - destruct H as [Hlog _]. split; [exact Hlog | discriminate].
  - destruct (calls st !! i) as [[input session|input]|]; try exact H.
    now apply sessionInvariant_chatAnswered, sessionInvariant_setCalls.
  - destruct (calls st !! i) as [[input session|input]|]; try exact H.
    now apply sessionInvariant_emergencyAnswered, sessionInvariant_setCalls.
Qed.

Lemma sessionInvariant_run (events : list Event) (st : State) :
  sessionInvariant st -> sessionInvariant (run events st).
Proof.
  revert st. induction events as [|e events IH]; intros st H; simpl.
  - exact H.
  - apply IH. now apply sessionInvariant_step.
Qed.

(** C6. A visible message sent while no session id is recorded goes to
    /chat/start (a request that has no session id field), and the session
    id of the answer is recorded when the answer arrives; a visible message
    sent while a session id is recorded goes to /chat/continue with exactly
    that id, and neither the call nor its answer changes the id; "New Chat"
    sets the session id back to null without a request; and in every run
    of the component from its mounted state, however the user's actions
    and the server's answers interleave, each /chat/continue in the traffic
    log carries a non-empty session id that an earlier answer of a
    /chat/start in the same log returned. *)
Theorem chat_session_protocol :
  (forall user, sessionId (initial user) = None) /\
  (forall st,
      whitespaceOnly (inputMessage st) = false ->
      sessionId st = None ->
      network (sendMessage st) = network st ++ [Sent (ChatStart (inputMessage st))] /\
      calls (sendMessage st) = calls st ++ [AwaitChat (inputMessage st) None]) /\
  (forall st input r,
      sessionId (chatAnswered input None (Some r) st) = session_id r) /\
  (forall st sid,
      whitespaceOnly (inputMessage st) = false ->
      sessionId st = Some sid -> sid <> "" ->
      network (sendMessage st) =
        network st ++ [Sent (ChatContinue (inputMessage st) sid)] /\
      calls (sendMessage st) = calls st ++ [AwaitChat (inputMessage st) (Some sid)] /\
      sessionId (sendMessage st) = Some sid) /\
  (forall st input sid reply,
      sessionId (chatAnswered input (Some sid) reply st) = sessionId st) /\
  (forall st,
      sessionId (startNewChat st) = None /\
      network (startNewChat st) = network st) /\
  (forall user events l1 message sid l2,
      network (run events (initial user)) =
        l1 ++ Sent (ChatContinue message sid) :: l2 ->
      sid <> "" /\ issuedBy l1 sid).
Proof.
  split; [reflexivity|]. split; [|split; [|split; [|split; [|split]]]].
  - intros st Hin Hsid.
    destruct (sendMessage_visible st Hin) as [Hn [Hc _]].
    assert (Hrec : recordedSession st = None)
      by (unfold recordedSession; now rewrite Hsid).
    rewrite Hrec in Hn, Hc. now split.
  - intros st input r.
    now destruct (chatAnswered_effect input None (Some r) st) as [_ ->].
  - intros st sid Hin Hsid Hne.
    destruct (sendMessage_visible st Hin) as [Hn [Hc [_ [Hs _]]]].
    assert (Hrec : recordedSession st = Some sid)
      by (apply recordedSession_Some; split;
          [exact Hsid | now apply truthy_not_empty]).
    rewrite Hrec in Hn, Hc. repeat split; [exact Hn | exact Hc | congruence].
  - intros st input sid reply.
    destruct (chatAnswered_effect input (Some sid) reply st) as [_ ->].
    now destruct reply.
  - intros st. split; reflexivity.
  - intros user events l1 message sid l2 Hlog.
    destruct (sessionInvariant_run events (initial user)
                (sessionInvariant_initial user)) as [Hwf _].
    destruct (Hwf l1 message sid l2 Hlog) as [Ht Hi].
    split; [now apply truthy_not_empty | exact Hi].
Qed.

(** A conversation of two messages: the second request is a
    /chat/continue with the id that the answer to the first, a
    /chat/start, returned. *)
Lemma chat_session_protocol_witness :
  let first := mkChatResponse "Since when?" (Some "s-1") in
  let second := mkChatResponse "I see." (Some "s-1") in
  network (run (say "I feel dizzy" (Some first) None ++
                say "Since yesterday" (Some second) None)
               (initial None)) =
    [ Sent (ChatStart "I feel dizzy");
      ChatAnswered (ChatStart "I feel dizzy") (Some first);
      Sent (ChatContinue "Since yesterday" "s-1");
      ChatAnswered (ChatContinue "Since yesterday" "s-1") (Some second) ] /\
  "s-1" <> "" /\
  issuedBy [ Sent (ChatStart "I feel dizzy");
             ChatAnswered (ChatStart "I feel dizzy") (Some first) ]
           "s-1".
Proof.
  split; [reflexivity|].
  exact (proj2 (proj2 (proj2 (proj2 (proj2 (proj2 chat_session_protocol))))) None
           (say "I feel dizzy" (Some (mkChatResponse "Since when?" (Some "s-1"))) None ++
            say "Since yesterday" (Some (mkChatResponse "I see." (Some "s-1"))) None)
           [ Sent (ChatStart "I feel dizzy");
             ChatAnswered (ChatStart "I feel dizzy")
                          (Some (mkChatResponse "Since when?" (Some "s-1"))) ]
           "Since yesterday" "s-1"
           [ ChatAnswered (ChatContinue "Since yesterday" "s-1")
                          (Some (mkChatResponse "I see." (Some "s-1"))) ]
           eq_refl).
Defined.

(** The handler tests the session id for truthiness: an answer of
    /chat/start whose session id is the empty string (or is missing) is
    recorded as it is, and the next message goes to /chat/start again. *)
Example empty_session_id_starts_again :
  let st := run (say "hello" (Some (mkChatResponse "hi" (Some ""))) None ++
                 [TypeText "again"; Send])
                (initial None) in
  network st =
    [ Sent (ChatStart "hello");
      ChatAnswered (ChatStart "hello") (Some (mkChatResponse "hi" (Some "")));
      Sent (ChatStart "again") ] /\
  sessionId st = Some "".
Proof. split; reflexivity. Qed.

(** A rejected /chat/start records nothing; the user is told. *)
Example failed_start_records_nothing :
  let st := run (say "hello" None None) (initial None) in
  network st = [ Sent (ChatStart "hello"); ChatAnswered (ChatStart "hello") None ] /\
  sessionId st = None /\
  messages st = [ welcome None; mkMessage "user" "hello"; errorMessage ] /\
  toasts st = [ "Failed to send message. Please try again." ] /\
  loading st = false /\ inputMessage st = "".
Proof. repeat split; reflexivity. Qed.

(** A message with an emergency keyword is followed by the assessment. *)
Example emergency_message_is_assessed :
  let data := mkEmergencyData "emergency" "Call emergency services" in
  let answer := mkChatResponse "Please seek help." (Some "s-3") in
  let st := run (say "I have chest pain" (Some answer) (Some data)) (initial None) in
  network st =
    [ Sent (ChatStart "I have chest pain");
      ChatAnswered (ChatStart "I have chest pain") (Some answer);
      Sent (EmergencyAssessment "I have chest pain");
      EmergencyAnswered (EmergencyAssessment "I have chest pain") (Some data) ] /\
  emergencyAssessment st = Some data /\
  calls st = [].
Proof. repeat split; reflexivity. Qed.

(** "New Chat" while the first request is still out: the answer that
    arrives afterwards still records its session id, and the next message
    continues that session. *)
Example new_chat_while_waiting :
  let answer := mkChatResponse "Since when?" (Some "s-4") in
  let st := run [ TypeText "I feel dizzy"; Send; NewChat;
                  ChatReply 0 (Some answer); TypeText "hello"; Send ]
                (initial None) in
  network st =
    [ Sent (ChatStart "I feel dizzy");
      ChatAnswered (ChatStart "I feel dizzy") (Some answer);
      Sent (ChatContinue "hello" "s-4") ] /\
  messages st =
    [ newChatGreeting; mkMessage "assistant" "Since when?"; mkMessage "user" "hello" ].
Proof. split; reflexivity. Qed.

(** *** What holds of every run *)

Lemma run_invariant (I : State -> Prop) :
  (forall st e, I st -> I (step st e)) ->
  forall events st, I st -> I (run events st).
Proof.
  intros Hstep events. induction events as [|e events IH]; intros st H; simpl.
  - exact H.
  - apply IH, Hstep, H.
Qed.

Lemma eachEvent_snoc (P : list NetEvent -> NetEvent -> Prop)
    (log : list NetEvent) (e : NetEvent) :
  eachEvent P log -> P log e -> eachEvent P (log ++ [e]).
Proof.
  intros Hlog He l1 x l2 Heq.
  destruct l2 as [|y l2 _] using rev_ind.
  - apply app_inj_tail in Heq as [-> ->]. exact He.
  - rewrite app_comm_cons, app_assoc in Heq.
    apply app_inj_tail in Heq as [Heq _].
    now apply (Hlog l1 x l2).
Qed.

Lemma sendMessage_cases (st : State) :
  sendMessage st = st \/
  (network (sendMessage st) =
     network st ++ [Sent (chatRequest (inputMessage st) (recordedSession st))] /\
   calls (sendMessage st) =
     calls st ++ [AwaitChat (inputMessage st) (recordedSession st)] /\
   emergencyAssessment (sendMessage st) = emergencyAssessment st).
Proof.
  destruct (whitespaceOnly (inputMessage st)) eqn:Hin.
  - left. now apply sendMessage_blank.
  - right. destruct (sendMessage_visible st Hin) as [Hn [Hc _]].
    repeat split; try assumption.
    apply trim_truthy in Hin. unfold sendMessage. now rewrite Hin.
Qed.

(** X1. Whenever no call of [sendMessage] is waiting for an answer, the
    typing indicator is off: no answer, rejection or "New Chat" leaves
    [loading] set behind. *)
Theorem idle_when_nothing_waits (user : option User) (events : list Event) :
  calls (run events (initial user)) = [] ->
  loading (run events (initial user)) = false.
Proof.
  apply (run_invariant (fun st => calls st = [] -> loading st = false));
    [|reflexivity].
  intros st e IH. destruct e as [text| | |i reply|i reply]; simpl.
  - exact IH.
  - destruct (sendMessage_cases st) as [->|[_ [Hc _]]]; [exact IH|].
    rewrite Hc. intros H. now apply app_eq_nil in H as [_ H].
  - exact IH.
  - destruct (calls st !! i) as [[input session|input]|] eqn:E; try exact IH.
    unfold chatAnswered.
    destruct reply as [r|]; [|reflexivity].
    destruct (containsEmergencyKeywords input); [|reflexivity].
    simpl. intros H. now apply app_eq_nil in H as [_ H].
  - destruct (calls st !! i) as [[input session|input]|] eqn:E; try exact IH.
    reflexivity.
Qed.

Lemma idle_when_nothing_waits_witness :
  loading (run (say "I have chest pain" None None) (initial None)) = false.
Proof.
  exact (idle_when_nothing_waits None (say "I have chest pain" None None) eq_refl).
Defined.

Lemma Forall_delete_call (i : nat) (l : list Suspended) :
  Forall waitingForKeyword l -> Forall waitingForKeyword (delete i l).
Proof. apply Forall_delete. Qed.

Lemma chatAnswered_calls (input : string) (session : option string)
    (reply : option ChatResponse) (st : State) :
  calls (chatAnswered input session reply st) =
    calls st ++
      match reply with
      | Some _ => if containsEmergencyKeywords input then [AwaitEmergency input] else []
      | None => []
      end /\
  emergencyAssessment (chatAnswered input session reply st) = emergencyAssessment st.
Proof.
  unfold chatAnswered.
  destruct reply as [r|]; simpl; [|now rewrite app_nil_r].
  destruct session, (containsEmergencyKeywords input); simpl;
    rewrite ?app_nil_r; now split.
Qed.

Lemma assessmentInvariant_step (st : State) (e : Event) :
  assessmentInvariant st -> assessmentInvariant (step st e).
Proof.
  intros [Hlog [Hcalls Hdata]].
  destruct e as [text| | |i reply|i reply]; simpl.
  - repeat split; assumption.
  - destruct (sendMessage_cases st) as [->|[Hn [Hc He]]];
      [repeat split; assumption|].
    split; [|split].
    + rewrite Hn. apply eachEvent_snoc; [exact Hlog|].
      unfold chatRequest. now destruct (recordedSession st).
    + rewrite Hc. apply Forall_app. split; [exact Hcalls|].
      now constructor.
    + intros data H. rewrite He in H. destruct (Hdata data H) as [s [Hk Hin]].
      exists s. split; [exact Hk|]. rewrite Hn. apply in_or_app. now left.
  - split; [exact Hlog|]. split; [exact Hcalls | discriminate].
  - destruct (calls st !! i) as [[input session|input]|] eqn:E;
      try (repeat split; assumption).
    pose proof (Forall_delete_call i _ Hcalls) as Hdel.
    set (st0 := setCalls (delete i (calls st)) st).
    destruct (chatAnswered_effect input session reply st0) as [Hn _].
    destruct (chatAnswered_calls input session reply st0) as [Hc He].
    change (network st0) with (network st) in Hn.
    change (calls st0) with (delete i (calls st)) in Hc.
    change (emergencyAssessment st0) with (emergencyAssessment st) in He.
    assert (H1 : eachEvent afterKeywordAnswer
                   (network st ++ [ChatAnswered (chatRequest input session) reply]))
      by (apply eachEvent_snoc; [exact Hlog | exact I]).
    split; [|split].
    + rewrite Hn.
      change (?l ++ ?x :: ?f) with (l ++ [x] ++ f). rewrite app_assoc.
      destruct reply as [r|]; [|now rewrite app_nil_r].
      destruct (containsEmergencyKeywords input) eqn:Ek; [|now rewrite app_nil_r].
      apply eachEvent_snoc; [exact H1|].
      split; [exact Ek|]. now exists (network st), session, r.
    + rewrite Hc. apply Forall_app. split; [exact Hdel|].
      destruct reply as [r|]; [|constructor].
      destruct (containsEmergencyKeywords input) eqn:Ek; [|constructor].
      now repeat constructor.
    + intros data H. rewrite He in H. destruct (Hdata data H) as [s [Hk Hin]].
      exists s. split; [exact Hk|]. rewrite Hn. apply in_or_app. now left.
  - destruct (calls st !! i) as [[input session|input]|] eqn:E;
      try (repeat split; assumption).
    assert (Hk : containsEmergencyKeywords input = true).
    { exact (Forall_lookup_1 _ _ _ _ Hcalls E). }
    pose proof (Forall_delete_call i _ Hcalls) as Hdel.
    unfold emergencyAnswered.
    assert (H1 : eachEvent afterKeywordAnswer
              (network st ++ [EmergencyAnswered (EmergencyAssessment input) reply]))
      by (apply eachEvent_snoc; [exact Hlog | exact I]).
    destruct reply as [d|]; simpl; (split; [exact H1|]); (split; [exact Hdel|]).
    + intros data [= <-]. exists input. split; [exact Hk|].
      apply in_or_app. right. now left.
    + intros data H. destruct (Hdata data H) as [s [Hs Hin]].
      exists s. split; [exact Hs|]. apply in_or_app. now left.
Qed.

Lemma assessmentInvariant_run (user : option User) (events : list Event) :
  assessmentInvariant (run events (initial user)).
Proof.
  apply run_invariant; [exact assessmentInvariant_step|].
  split; [|split].
  - intros l1 e l2 H. simpl in H. now destruct l1.
  - constructor.
  - discriminate.
Qed.

(** X2. In every run, a request to /disease/emergency-assessment carries
    a text with an emergency keyword and directly follows the successful
    answer to the chat request that carried the same text; and when the
    chat request is rejected, no assessment is asked for, keyword or not. *)
Theorem assessment_only_after_answered_keyword_message :
  (forall user events l1 s l2,
      network (run events (initial user)) =
        l1 ++ Sent (EmergencyAssessment s) :: l2 ->
      containsEmergencyKeywords s = true /\
      exists l0 session r,
        l1 = l0 ++ [ChatAnswered (chatRequest s session) (Some r)]) /\
  (forall input session st,
      network (chatAnswered input session None st) =
        network st ++ [ChatAnswered (chatRequest input session) None] /\
      calls (chatAnswered input session None st) = calls st).
Proof.
  split.
  - intros user events l1 s l2 H.
    destruct (assessmentInvariant_run user events) as [Hlog _].
    exact (Hlog l1 _ l2 H).
  - intros input session st. now split.
Qed.

Lemma assessment_only_after_answered_keyword_message_witness :
  let answer := mkChatResponse "Please seek help." (Some "s-3") in
  containsEmergencyKeywords "I have chest pain" = true /\
  exists l0 session r,
    [ Sent (ChatStart "I have chest pain");
      ChatAnswered (ChatStart "I have chest pain") (Some answer) ] =
    l0 ++ [ChatAnswered (chatRequest "I have chest pain" session) (Some r)].
Proof.
  exact (proj1 assessment_only_after_answered_keyword_message None
           (say "I have chest pain"
                (Some (mkChatResponse "Please seek help." (Some "s-3"))) None)
           [ Sent (ChatStart "I have chest pain");
             ChatAnswered (ChatStart "I have chest pain")
                          (Some (mkChatResponse "Please seek help." (Some "s-3"))) ]
           "I have chest pain"
           [ EmergencyAnswered (EmergencyAssessment "I have chest pain") None ]
           eq_refl).
Defined.

(** X3. In every run, an emergency alert on screen shows the
    [immediate_actions] of an answered assessment with urgency level
    'emergency' whose text held a keyword; "New Chat" takes the alert
    down. *)
Theorem alert_stems_from_keyword_assessment :
  (forall user events actions,
      emergencyAlert (run events (initial user)) = Some actions ->
      exists s data,
        containsEmergencyKeywords s = true /\
        In (EmergencyAnswered (EmergencyAssessment s) (Some data))
           (network (run events (initial user))) /\
        urgency_level data = "emergency" /\
        immediate_actions data = actions) /\
  (forall st, emergencyAlert (startNewChat st) = None).
Proof.
  split; [|reflexivity].
  intros user events actions H.
  destruct (assessmentInvariant_run user events) as [_ [_ Hdata]].
  unfold emergencyAlert in H.
  destruct (emergencyAssessment (run events (initial user))) as [data|] eqn:E;
    [|discriminate].
  destruct (bool_decide (urgency_level data = "emergency")) eqn:Eu; [|discriminate].
  injection H as <-. apply bool_decide_eq_true in Eu.
  destruct (Hdata data eq_refl) as [s [Hk Hin]].
  now exists s, data.
Qed.

Lemma alert_stems_from_keyword_assessment_witness :
  let data := mkEmergencyData "emergency" "Call emergency services" in
  let events := say "I have chest pain" (Some (mkChatResponse "..." (Some "s-3")))
                    (Some data) in
  emergencyAlert (run events (initial None)) = Some "Call emergency services" /\
  exists s d,
    containsEmergencyKeywords s = true /\
    In (EmergencyAnswered (EmergencyAssessment s) (Some d))
       (network (run events (initial None))) /\
    urgency_level d = "emergency" /\
    immediate_actions d = "Call emergency services".
Proof.
  split; [reflexivity|].
  exact (proj1 alert_stems_from_keyword_assessment None
           (say "I have chest pain" (Some (mkChatResponse "..." (Some "s-3")))
                (Some (mkEmergencyData "emergency" "Call emergency services")))
           "Call emergency services" eq_refl).
Defined.

(** X4. One message, sent while nothing else is waiting and answered
    before anything else happens: the transcript grows by the user's text
    as typed and then by exactly one assistant message, the server's
    response or, when the request is rejected, the fixed apology; after
    the last answer nothing is waiting, the input box is empty and the
    typing indicator is off. *)
Theorem exchange_appends_two_messages
    (st : State) (chatReply : option ChatResponse)
    (emergencyReply : option EmergencyData) :
  calls st = [] ->
  whitespaceOnly (inputMessage st) = false ->
  let st' := run [Send; ChatReply 0 chatReply; EmergencyReply 0 emergencyReply] st in
  messages st' =
    messages st ++
    [ mkMessage "user" (inputMessage st);
      match chatReply with
      | Some r => mkMessage "assistant" (response r)
      | None => errorMessage
      end ] /\
  calls st' = [] /\ inputMessage st' = "" /\ loading st' = false.
Proof.
  intros Hc Hin st'. subst st'. apply trim_truthy in Hin.
  unfold run. simpl. unfold sendMessage. rewrite Hin. simpl. rewrite Hc. simpl.
  unfold chatAnswered.
  destruct chatReply as [r|]; simpl.
  - destruct (containsEmergencyKeywords (inputMessage st)); simpl.
    + destruct (recordedSession st); simpl;
        unfold emergencyAnswered; destruct emergencyReply; simpl;
        rewrite <- app_assoc; now repeat split.
    + destruct (recordedSession st); simpl;
        rewrite <- app_assoc; now repeat split.
  - rewrite <- app_assoc. now repeat split.
Qed.

Lemma exchange_appends_two_messages_witness :
  let st := setInputMessage " my head hurts " (initial None) in
  let st' := run [Send; ChatReply 0 None; EmergencyReply 0 None] st in
  messages st' =
    messages st ++ [ mkMessage "user" " my head hurts "; errorMessage ] /\
  calls st' = [] /\ inputMessage st' = "" /\ loading st' = false.
Proof.
  exact (exchange_appends_two_messages
           (setInputMessage " my head hurts " (initial None)) None None
           eq_refl eq_refl).
Defined.

End SymptomChatFacts.

(** ** The appointment list *)
Module AppointmentListFacts.
Import JsString AppointmentList.

Lemma isScheduled_iff (appointment : Appointment) :
  isScheduled appointment = true <-> status appointment = "scheduled".
Proof. unfold isScheduled. apply bool_decide_eq_true. Qed.

(** The status-changing buttons of one card, spelled out. *)
Lemma statusChanges_renderActions (user : option User) (appointment : Appointment) :
  omap statusChange (renderActions user appointment) =
    if isScheduled appointment then
      (if userTypeIs user "doctor" then [(id appointment, "completed")] else [])
      ++ [(id appointment, "cancelled")]
    else [].
Proof.
  unfold renderActions.
  destruct (isScheduled appointment), (userTypeIs user "doctor"),
    (meet_link appointment) as [link|]; try destruct (truthy link); reflexivity.
Qed.

Lemma statusChange_in_omap (a : Action) (c : Z * string) (l : list Action) :
  In a l -> statusChange a = Some c -> In c (omap statusChange l).
Proof.
  intros Hin Hc. apply list_elem_of_In, list_elem_of_omap.
  exists a. split; [now apply list_elem_of_In | exact Hc].
Qed.

(** What a status-changing button of a card asks for, and when. *)
Lemma statusChange_rendered (user : option User) (appointment : Appointment)
    (a : Action) (c : Z * string) :
  In a (renderActions user appointment) -> statusChange a = Some c ->
  status appointment = "scheduled" /\
  (c = (id appointment, "cancelled") \/
   c = (id appointment, "completed") /\ userTypeIs user "doctor" = true).
Proof.
  intros Hin Hc.
  pose proof (statusChange_in_omap _ _ _ Hin Hc) as H.
  rewrite statusChanges_renderActions in H.
  destruct (isScheduled appointment) eqn:E; [|destruct H].
  split; [now apply isScheduled_iff|].
  apply in_app_or in H as [H|[H|[]]].
  - destruct (userTypeIs user "doctor"); [|destruct H].
    destruct H as [H|[]]. right. now split.
  - now left.
Qed.

(** Every card pairs an appointment of the sorted list with its actions. *)
Lemma render_card (user : option User) (now : Z) (st : State)
    (cards : list (Appointment * list Action))
    (appointment : Appointment) (actions : list Action) :
  render user now st = Some cards ->
  In (appointment, actions) cards ->
  actions = renderActions user appointment /\
  In appointment (sortedAppointments now st).
Proof.
  unfold render. destruct (loading st); [discriminate|].
  intros [= <-] Hin. apply in_map_iff in Hin as [a [[= -> <-] Hin]].
  now split.
Qed.

(** C2. On every card of the rendered list: a button that changes the
    status is there only if the appointment is 'scheduled', it addresses
    the appointment of its card and asks for 'completed' or 'cancelled';
    a button asking for 'completed' is there only for a doctor; on a
    scheduled appointment Cancel is there whoever the user is (patient and
    doctor alike) and Complete is there for a doctor; and a card whose
    status is not 'scheduled' ('completed' and 'cancelled' among them)
    has no status-changing button at all. *)
Theorem status_actions_only_while_scheduled
    (user : option User) (now : Z) (st : State)
    (cards : list (Appointment * list Action))
    (appointment : Appointment) (actions : list Action) :
  render user now st = Some cards ->
  In (appointment, actions) cards ->
  (forall a i s,
      In a actions -> statusChange a = Some (i, s) ->
      status appointment = "scheduled" /\ i = id appointment /\
      (s = "completed" \/ s = "cancelled")) /\
  (forall a i,
      In a actions -> statusChange a = Some (i, "completed") ->
      userTypeIs user "doctor" = true) /\
  (status appointment = "scheduled" ->
      In (Button "Cancel" (UpdateAppointmentStatus (id appointment) "cancelled"))
         actions) /\
  (status appointment = "scheduled" -> userTypeIs user "doctor" = true ->
      In (Button "Complete" (UpdateAppointmentStatus (id appointment) "completed"))
         actions) /\
  (status appointment <> "scheduled" ->
      forall a, In a actions -> statusChange a = None).
Proof.
  intros Hr Hin. destruct (render_card _ _ _ _ _ _ Hr Hin) as [-> _].
  split; [|split; [|split; [|split]]].
  - intros a i s Ha Hs.
    destruct (statusChange_rendered _ _ _ _ Ha Hs) as [Hst [[= -> ->]|[[= -> ->] _]]];
      auto.
  - intros a i Ha Hs.
    now destruct (statusChange_rendered _ _ _ _ Ha Hs) as [_ [[=]|[_ Hd]]].
  - intros Hs. apply isScheduled_iff in Hs. unfold renderActions. rewrite Hs.
    apply in_or_app. right. apply in_or_app. right. now left.
  - intros Hs Hd. apply isScheduled_iff in Hs. unfold renderActions.
    rewrite Hs, Hd. apply in_or_app. right. now left.
  - intros Hns a Ha.
    destruct (statusChange a) as [c|] eqn:Ec; [|reflexivity].
    now destruct (statusChange_rendered _ _ _ _ Ha Ec) as [Hst _].
Qed.

Lemma status_actions_only_while_scheduled_witness :
  let doctor := Some (mkUser "Dr. Rao" "doctor" "Pune") in
  let open := mkAppointment 1 "scheduled" 1000 (Some "https://meet.example/abc") in
  let closed := mkAppointment 2 "completed" 2000 None in
  let st := mkState [open; closed] false "all" [] [] in
  render doctor 0 st =
    Some [ (closed, []);
           (open, [ JoinCall "https://meet.example/abc";
                    Button "Complete" (UpdateAppointmentStatus 1 "completed");
                    Button "Cancel" (UpdateAppointmentStatus 1 "cancelled") ]) ] /\
  (forall a, In a (renderActions doctor closed) -> statusChange a = None).
Proof.
  split; [reflexivity|].
  refine (proj2 (proj2 (proj2 (proj2
    (status_actions_only_while_scheduled
       (Some (mkUser "Dr. Rao" "doctor" "Pune")) 0
       (mkState [ mkAppointment 1 "scheduled" 1000 (Some "https://meet.example/abc");
                  mkAppointment 2 "completed" 2000 None ] false "all" [] [])
       _ (mkAppointment 2 "completed" 2000 None) _ eq_refl _)))) _).
  - simpl. left. reflexivity.
  - discriminate.
Defined.

(** A patient sees Cancel, and only Cancel, on a scheduled appointment. *)
Example patient_sees_cancel_only :
  renderActions (Some (mkUser "Asha" "patient" "Pune"))
                (mkAppointment 7 "scheduled" 1000 None) =
    [ Button "Cancel" (UpdateAppointmentStatus 7 "cancelled") ].
Proof. reflexivity. Qed.

(** Clicking a button sends the PUT for the appointment and status of its
    handler, with empty notes, before anything else. *)
Lemma click_sends_put (i : Z) (s : string) (putOk : bool)
    (refetch : option (option (list Appointment))) (st : State) :
  exists rest,
    requests (click (UpdateAppointmentStatus i s) putOk refetch st) =
      requests st ++ PutStatus i s "" :: rest.
Proof.
  unfold click, updateAppointmentStatus.
  destruct putOk; simpl.
  - exists [GetMyAppointments].
    destruct refetch; simpl; now rewrite <- app_assoc.
  - now exists [].
Qed.

(** Hence the request a rendered button sends is about an appointment
    that the list shows as 'scheduled': the list never asks the server to
    move an appointment out of 'completed' or 'cancelled'. *)
Corollary rendered_button_targets_scheduled
    (user : option User) (now : Z) (st : State)
    (cards : list (Appointment * list Action))
    (appointment : Appointment) (actions : list Action)
    (label : string) (i : Z) (s : string) (putOk : bool)
    (refetch : option (option (list Appointment))) :
  render user now st = Some cards ->
  In (appointment, actions) cards ->
  In (Button label (UpdateAppointmentStatus i s)) actions ->
  status appointment = "scheduled" /\ i = id appointment /\
  exists rest,
    requests (click (UpdateAppointmentStatus i s) putOk refetch st) =
      requests st ++ PutStatus (id appointment) s "" :: rest.
Proof.
  intros Hr Hin Hb.
  destruct (render_card _ _ _ _ _ _ Hr Hin) as [-> _].
  destruct (statusChange_rendered user appointment _ (i, s) Hb eq_refl)
    as [Hst Hc].
  assert (i = id appointment) as -> by (destruct Hc as [[=]|[[=] _]]; assumption).
  repeat split; [exact Hst|]. apply click_sends_put.
Qed.

(** *** Filtering and ordering *)

Lemma insertSorted_Permutation (x : Appointment) (l : list Appointment) :
  Permutation (insertSorted byDateDescending x l) (x :: l).
Proof.
  induction l as [|y l IH]; simpl; [reflexivity|].
  destruct (byDateDescending x y <=? 0); [reflexivity|].
  rewrite IH. apply perm_swap.
Qed.

Lemma sort_Permutation (l : list Appointment) :
  Permutation (sort byDateDescending l) l.
Proof.
  induction l as [|x l IH]; [reflexivity|].
  change (sort byDateDescending (x :: l))
    with (insertSorted byDateDescending x (sort byDateDescending l)).
  rewrite insertSorted_Permutation. now constructor.
Qed.

Lemma insertSorted_HdRel (x y : Appointment) (l : list Appointment) :
  notEarlier y x -> HdRel notEarlier y l ->
  HdRel notEarlier y (insertSorted byDateDescending x l).
Proof.
  intros Hyx Hl. destruct l as [|z l]; simpl.
  - now constructor.
  - destruct (byDateDescending x z <=? 0); constructor; [exact Hyx|].
    now inversion Hl.
Qed.

Lemma insertSorted_Sorted (x : Appointment) (l : list Appointment) :
  Sorted notEarlier l -> Sorted notEarlier (insertSorted byDateDescending x l).
Proof.
  induction l as [|y l IH]; intros Hs; simpl.
  - repeat constructor.
  - destruct (byDateDescending x y <=? 0) eqn:E.
    + constructor; [exact Hs|]. constructor.
      unfold notEarlier, byDateDescending in *. lia.
    + inversion Hs as [|? ? Hs' Hhd]; subst.
      constructor; [now apply IH|].
      apply insertSorted_HdRel; [|exact Hhd].
      unfold notEarlier, byDateDescending in *. lia.
Qed.

Lemma sort_Sorted (l : list Appointment) :
  Sorted notEarlier (sort byDateDescending l).
Proof.
  induction l as [|x l IH]; [constructor|].
  change (sort byDateDescending (x :: l))
    with (insertSorted byDateDescending x (sort byDateDescending l)).
  now apply insertSorted_Sorted.
Qed.

Lemma notEarlier_trans (a b c : Appointment) :
  notEarlier a b -> notEarlier b c -> notEarlier a c.
Proof. unfold notEarlier. lia. Qed.

Lemma sort_already_sorted (l : list Appointment) :
  Sorted notEarlier l -> sort byDateDescending l = l.
Proof.
  induction l as [|x l IH]; intros Hs; [reflexivity|].
  inversion Hs as [|? ? Hs' Hhd]; subst.
  change (sort byDateDescending (x :: l))
    with (insertSorted byDateDescending x (sort byDateDescending l)).
  rewrite (IH Hs').
  destruct l as [|y l]; [reflexivity|]. simpl.
  inversion Hhd; subst.
  assert (E : (byDateDescending x y <=? 0) = true)
    by (apply Z.leb_le; unfold notEarlier, byDateDescending in *; lia).
  now rewrite E.
Qed.

Lemma keeps_spec (now : Z) (key : string) (a : Appointment) :
  keeps now key a = true <->
  key = "all" \/
  (key = "upcoming" /\ status a = "scheduled" /\ now < appointment_date a) \/
  (key <> "all" /\ key <> "upcoming" /\ status a = key).
Proof.
  unfold keeps.
  destruct (bool_decide (key = "all")) eqn:Ea.
  - apply bool_decide_eq_true in Ea. tauto.
  - apply bool_decide_eq_false in Ea.
    destruct (bool_decide (key = "upcoming")) eqn:Eu.
    + apply bool_decide_eq_true in Eu.
      rewrite andb_true_iff, bool_decide_eq_true, Z.ltb_lt. tauto.
    + apply bool_decide_eq_false in Eu. rewrite bool_decide_eq_true. tauto.
Qed.

Lemma shown_iff_kept (now : Z) (st : State) (a : Appointment) :
  In a (sortedAppointments now st) <->
  In a (appointments st) /\
  (filter st = "all" \/
   (filter st = "upcoming" /\ status a = "scheduled" /\ now < appointment_date a) \/
   (filter st <> "all" /\ filter st <> "upcoming" /\ status a = filter st)).
Proof.
  unfold sortedAppointments. split.
  - intros H. apply (Permutation_in _ (sort_Permutation _)) in H.
    unfold filteredAppointments in H. apply filter_In in H as [H1 H2].
    split; [exact H1 | now apply keeps_spec].
  - intros [H1 H2].
    apply (Permutation_in _ (Permutation_sym (sort_Permutation _))).
    unfold filteredAppointments. apply filter_In.
    split; [exact H1 | now apply keeps_spec].
Qed.

(** X5. The appointments shown are the ones the filter keeps, each as
    often as the server sent it, with the later appointment first; under
    "all" every appointment is shown, under "upcoming" the scheduled ones
    after now, under any other key the ones whose status is the key; and
    a selection that the server already sent latest-first is shown in the
    server's order. *)
Theorem shown_are_kept_latest_first (now : Z) (st : State) :
  Permutation (sortedAppointments now st) (filteredAppointments now st) /\
  StronglySorted notEarlier (sortedAppointments now st) /\
  (forall a,
      In a (sortedAppointments now st) <->
      In a (appointments st) /\
      (filter st = "all" \/
       (filter st = "upcoming" /\ status a = "scheduled" /\ now < appointment_date a) \/
       (filter st <> "all" /\ filter st <> "upcoming" /\ status a = filter st))) /\
  (Sorted notEarlier (filteredAppointments now st) ->
      sortedAppointments now st = filteredAppointments now st).
Proof.
  split; [apply sort_Permutation|].
  split; [|split].
  - apply Sorted_StronglySorted; [|apply sort_Sorted].
    intros a b c. apply notEarlier_trans.
  - intros a. apply shown_iff_kept.
  - apply sort_already_sorted.
Qed.

Lemma shown_are_kept_latest_first_witness :
  let early := mkAppointment 1 "scheduled" 1000 None in
  let late := mkAppointment 2 "scheduled" 5000 None in
  let done := mkAppointment 3 "completed" 3000 None in
  sortedAppointments 0 (mkState [early; done; late] false "all" [] []) =
    [late; done; early] /\
  sortedAppointments 2000 (mkState [early; done; late] false "upcoming" [] []) =
    [late] /\
  sortedAppointments 0 (mkState [late; done; early] false "all" [] []) =
    filteredAppointments 0 (mkState [late; done; early] false "all" [] []).
Proof.
  split; [reflexivity|]. split; [reflexivity|].
  refine (proj2 (proj2 (proj2 (shown_are_kept_latest_first 0
            (mkState [ mkAppointment 2 "scheduled" 5000 None;
                       mkAppointment 3 "completed" 3000 None;
                       mkAppointment 1 "scheduled" 1000 None ] false "all" [] []))))
            _).
  repeat constructor; unfold notEarlier; simpl; lia.
Defined.

(** X6. Filter and action column together: under "upcoming" every card
    shown lies after now and carries the Cancel button (and the Complete
    button for a doctor); under "completed" and under "cancelled" the
    action column of every card is empty. *)
Theorem actions_under_filter
    (user : option User) (now : Z) (st : State)
    (cards : list (Appointment * list Action))
    (appointment : Appointment) (actions : list Action) :
  render user now st = Some cards ->
  In (appointment, actions) cards ->
  (filter st = "upcoming" ->
     now < appointment_date appointment /\
     In (Button "Cancel" (UpdateAppointmentStatus (id appointment) "cancelled"))
        actions /\
     (userTypeIs user "doctor" = true ->
        In (Button "Complete" (UpdateAppointmentStatus (id appointment) "completed"))
           actions)) /\
  (filter st = "completed" \/ filter st = "cancelled" -> actions = []).
Proof.
  intros Hr Hin. destruct (render_card _ _ _ _ _ _ Hr Hin) as [-> Hshown].
  apply shown_iff_kept in Hshown as [_ Hk].
  split.
  - intros Hf. rewrite Hf in Hk.
    destruct Hk as [Hk|[[_ [Hs Hd]]|[_ [Hk _]]]]; try congruence.
    split; [exact Hd|].
    apply isScheduled_iff in Hs. unfold renderActions. rewrite Hs. split.
    + apply in_or_app. right. apply in_or_app. right. now left.
    + intros ->. apply in_or_app. right. now left.
  - intros Hf.
    assert (Hs : isScheduled appointment = false).
    { apply bool_decide_eq_false.
      destruct Hf as [Hf|Hf]; rewrite Hf in Hk;
        destruct Hk as [Hk|[[Hk _]|[_ [_ Hk]]]]; congruence. }
    unfold renderActions. rewrite Hs.
    destruct (meet_link appointment) as [link|]; [|reflexivity].
    now rewrite andb_false_r.
Qed.

Lemma actions_under_filter_witness :
  let open := mkAppointment 1 "scheduled" 5000 (Some "https://meet.example/abc") in
  let closed := mkAppointment 2 "cancelled" 6000 (Some "https://meet.example/xyz") in
  (1000 < appointment_date open /\
   In (Button "Cancel" (UpdateAppointmentStatus 1 "cancelled"))
      (renderActions None open)) /\
  renderActions None closed = [].
Proof.
  split.
  - pose proof (proj1 (actions_under_filter None 1000
        (mkState [ mkAppointment 1 "scheduled" 5000 (Some "https://meet.example/abc");
                   mkAppointment 2 "cancelled" 6000 (Some "https://meet.example/xyz") ]
                 false "upcoming" [] [])
        _ (mkAppointment 1 "scheduled" 5000 (Some "https://meet.example/abc")) _
        eq_refl (or_introl eq_refl)) eq_refl) as [H1 [H2 _]].
    split; [exact H1 | exact H2].
  - exact (proj2 (actions_under_filter None 1000
        (mkState [ mkAppointment 1 "scheduled" 5000 (Some "https://meet.example/abc");
                   mkAppointment 2 "cancelled" 6000 (Some "https://meet.example/xyz") ]
                 false "cancelled" [] [])
        _ (mkAppointment 2 "cancelled" 6000 (Some "https://meet.example/xyz")) _
        eq_refl (or_introl eq_refl)) (or_intror eq_refl)).
Defined.

(** *** Status changes and the list *)

(** X7. A click on Complete or Cancel changes nothing in the list by
    itself. When the PUT fails, no refresh is asked for and the list on
    screen is what it was; when the PUT succeeds, exactly one refresh
    follows it: if the refresh fails the list on screen is still what it
    was (old status, same buttons), and otherwise the list is rebuilt from
    what the server sent (from the empty list when the answer has no
    [appointments]). *)
Theorem status_change_shows_only_what_the_server_sends
    (user : option User) (now : Z) (st : State) (i : Z) (s : string)
    (refetch : option (option (list Appointment))) :
  loading st = false ->
  (requests (click (UpdateAppointmentStatus i s) false refetch st) =
     requests st ++ [PutStatus i s ""] /\
   render user now (click (UpdateAppointmentStatus i s) false refetch st) =
     render user now st) /\
  (requests (click (UpdateAppointmentStatus i s) true refetch st) =
     requests st ++ [PutStatus i s ""; GetMyAppointments] /\
   render user now (click (UpdateAppointmentStatus i s) true refetch st) =
     match refetch with
     | None => render user now st
     | Some data =>
         render user now
           (mkState (match data with Some l => l | None => [] end)
                    false (filter st) [] [])
     end).
Proof.
  intros Hl. unfold click, updateAppointmentStatus, fetchAppointments.
  split; [split|split].
  - reflexivity.
  - reflexivity.
  - destruct refetch; simpl; now rewrite <- app_assoc.
  - destruct refetch as [data|]; unfold render; simpl; [reflexivity|].
    now rewrite Hl.
Qed.

Lemma status_change_shows_only_what_the_server_sends_witness :
  let open := mkAppointment 1 "scheduled" 5000 None in
  let st := mkState [open] false "all" [] [] in
  render None 0 (click (UpdateAppointmentStatus 1 "cancelled") true None st) =
    Some [ (open, [ Button "Cancel" (UpdateAppointmentStatus 1 "cancelled") ]) ].
Proof.
  exact (proj2 (proj2 (status_change_shows_only_what_the_server_sends None 0
           (mkState [mkAppointment 1 "scheduled" 5000 None] false "all" [] [])
           1 "cancelled" None eq_refl))).
Defined.

End AppointmentListFacts.

(** ** Booking: time slots and the date range *)
Module BookAppointmentFacts.
Import BookAppointment.

Lemma MonthFromTime_range (t : Z) : 0 <= MonthFromTime t <= 11.
Proof.
  unfold MonthFromTime.
  repeat match goal with
         | |- context [if ?b then _ else _] => destruct b
         end; lia.
Qed.

(** Within the month of [t], [MakeDay] counts days from the day of [t]. *)
Lemma MakeDay_of_date (t n : Z) :
  MakeDay (YearFromTime t) (MonthFromTime t) (DateFromTime t + n) = Day t + n.
Proof.
  pose proof (MonthFromTime_range t) as Hm.
  unfold MakeDay.
  rewrite (Z.div_small (MonthFromTime t) 12) by lia.
  rewrite (Z.mod_small (MonthFromTime t) 12) by lia.
  rewrite Z.add_0_r.
  unfold DateFromTime, DayWithinYear, InLeapYear. lia.
Qed.

(** [d.setDate(d.getDate() + n)] moves the local time by [n] days and
    takes the result back to UTC. *)
Lemma setDate_getDate (host : Host) (t n : Z) :
  setDate host (getDate host t + n) t =
  TimeClip (UTC host (LocalTime host t + n * msPerDay)).
Proof.
  unfold setDate, getDate. cbv zeta.
  rewrite MakeDay_of_date. f_equal. f_equal.
  unfold MakeDate, TimeWithinDay, Day.
  pose proof (Z.div_mod (LocalTime host t) msPerDay) as H.
  assert (msPerDay <> 0) by (unfold msPerDay; lia).
  specialize (H ltac:(assumption)). lia.
Qed.

Lemma Day_add_days (t n : Z) : Day (t + n * msPerDay) = Day t + n.
Proof. unfold Day. apply Z.div_add. unfold msPerDay. lia. Qed.

Lemma Day_of_day (d : Z) : Day (d * msPerDay) = d.
Proof. unfold Day. apply Z.div_mul. unfold msPerDay. lia. Qed.

Lemma splitFirst_append (sep : ascii) (a x y : string) :
  splitFirst sep x = splitFirst sep y ->
  splitFirst sep (a +:+ x) = splitFirst sep (a +:+ y).
Proof.
  intros H. induction a as [|c a IH]; simpl; [exact H|].
  destruct (ascii_dec c sep); [reflexivity | now rewrite IH].
Qed.

(** The calendar date printed for a time value is that of its day. *)
Lemma isoDate_Day (a b : Z) : Day a = Day b -> isoDate a = isoDate b.
Proof.
  intros H. unfold isoDate, toISOString.
  assert (Hy : YearFromTime a = YearFromTime b)
    by (unfold YearFromTime; now rewrite H).
  assert (Hm : MonthFromTime a = MonthFromTime b)
    by (unfold MonthFromTime, DayWithinYear, InLeapYear; now rewrite H, Hy).
  assert (Hd : DateFromTime a = DateFromTime b)
    by (unfold DateFromTime, DayWithinYear, InLeapYear; now rewrite H, Hy, Hm).
  rewrite Hy, Hm, Hd.
  do 5 apply splitFirst_append.
  simpl. now destruct (ascii_dec "T" "T").
Qed.

Lemma TimeClip_some (t : Z) : Z.abs t <= maxTimeValue -> TimeClip t = Some t.
Proof. intros H. unfold TimeClip. apply Z.leb_le in H. now rewrite H. Qed.

(** The date that [getMinDate] and [getMaxDate] print, [n] days ahead:
    the day after today counted by [n], when the computed instant lies on
    that day in UTC too. *)
Lemma date_ahead (host : Host) (now n : Z) :
  Z.abs (UTC host (LocalTime host now + n * msPerDay)) <= maxTimeValue ->
  Day (UTC host (LocalTime host now + n * msPerDay))
    = Day (LocalTime host now) + n ->
  (t ← setDate host (getDate host now + n) now;
   Some (splitFirst "T" (toISOString t)))
  = Some (isoDate ((Day (LocalTime host now) + n) * msPerDay)).
Proof.
  intros Hclip Hday. rewrite setDate_getDate, (TimeClip_some _ Hclip).
  cbn. f_equal. apply isoDate_Day. now rewrite Hday, Day_of_day.
Qed.

Lemma generateTimeSlots_value :
  generateTimeSlots =
    [ "09:00"; "09:30"; "10:00"; "10:30"; "11:00"; "11:30";
      "12:00"; "12:30"; "13:00"; "13:30"; "14:00"; "14:30";
      "15:00"; "15:30"; "16:00"; "16:30"; "17:00"; "17:30" ].
Proof. vm_compute. reflexivity. Qed.

(** The slot list holds 17:30, a time after 17:00: it is not the list of
    the half hours within 09:00-17:00. *)
Lemma generateTimeSlots_has_1730 :
  In "17:30" generateTimeSlots /\
  ~ In "17:30" BookAppointment.specTimeSlots /\
  generateTimeSlots <> BookAppointment.specTimeSlots.
Proof.
  rewrite generateTimeSlots_value.
  assert (E : BookAppointment.specTimeSlots =
    [ "09:00"; "09:30"; "10:00"; "10:30"; "11:00"; "11:30";
      "12:00"; "12:30"; "13:00"; "13:30"; "14:00"; "14:30";
      "15:00"; "15:30"; "16:00"; "16:30"; "17:00" ])
    by (vm_compute; reflexivity).
  rewrite E. split; [|split].
  - simpl. tauto.
  - simpl. intros H.
    repeat (destruct H as [H|H]; [discriminate|]). exact H.
  - discriminate.
Qed.

(** C3, as the code has it. The slots are the eighteen half hours from
    09:00 to 17:30, ascending in steps of 30 minutes: the half hours
    within 09:00-17:00 followed by 17:30. The date input ranges from the
    day after the current date to the 30th day after it, by the local
    calendar, whenever the two instants that [setDate] computes are time
    values and lie on those days in UTC as well, which is where
    [toISOString] takes the printed date from. *)
Theorem slots_and_date_range :
  generateTimeSlots =
    map (fun k => let t := 9 * 60 + 30 * Z.of_nat k in timeString (t / 60) (t mod 60))
        (seq 0 18) /\
  generateTimeSlots = specTimeSlots ++ ["17:30"] /\
  generateTimeSlots =
    [ "09:00"; "09:30"; "10:00"; "10:30"; "11:00"; "11:30";
      "12:00"; "12:30"; "13:00"; "13:30"; "14:00"; "14:30";
      "15:00"; "15:30"; "16:00"; "16:30"; "17:00"; "17:30" ] /\
  forall (host : Host) (now : Z),
    let today := Day (LocalTime host now) in
    let tomorrow := UTC host (LocalTime host now + 1 * msPerDay) in
    let last := UTC host (LocalTime host now + 30 * msPerDay) in
    Z.abs tomorrow <= maxTimeValue -> Z.abs last <= maxTimeValue ->
    Day tomorrow = today + 1 -> Day last = today + 30 ->
    dateInputRange host now =
      Some (isoDate ((today + 1) * msPerDay), isoDate ((today + 30) * msPerDay)).
Proof.
  split; [vm_compute; reflexivity|].
  split; [vm_compute; reflexivity|].
  split; [exact generateTimeSlots_value|].
  intros host now today tomorrow last Hc1 Hc30 Hd1 Hd30.
  unfold dateInputRange, getMinDate, getMaxDate. cbv zeta.
  rewrite (date_ahead host now 1 Hc1 Hd1), (date_ahead host now 30 Hc30 Hd30).
  reflexivity.
Qed.

(** In New York on 9 March 2024, 19:30 (10 March, 00:30 UTC), the night
    before the clocks go forward, the date input offers 10 March to
    8 April 2024. *)
Lemma slots_and_date_range_witness :
  Day (LocalTime newYork2024 1710030600000) = 19791 /\
  isoDate (19791 * msPerDay) = "2024-03-09" /\
  dateInputRange newYork2024 1710030600000 = Some ("2024-03-10", "2024-04-08").
Proof.
  split; [vm_compute; reflexivity|]. split; [vm_compute; reflexivity|].
  pose proof (proj2 (proj2 (proj2 slots_and_date_range))
                newYork2024 1710030600000
                ltac:(vm_compute; discriminate) ltac:(vm_compute; discriminate)
                ltac:(vm_compute; reflexivity) ltac:(vm_compute; reflexivity))
    as H.
  vm_compute in H. exact H.
Defined.

(** On 1 January 2024, 20:30 UTC, in a zone without offset, the date
    input offers 2 January to 31 January 2024. *)
Example date_range_2024 :
  dateInputRange (fixedOffsetHost 0) 1704141000000
  = Some ("2024-01-02", "2024-01-31").
Proof. vm_compute. reflexivity. Qed.

(** The printed dates are UTC dates. In a zone ahead of UTC the local
    calendar can be a day ahead: at 02:00 on 2 January 2024 in a zone five
    and a half hours ahead of UTC (the instant above), the minimum is
    2 January, the local date of that very day, although the comment at
    [getMinDate] says "tomorrow". *)
Example min_date_in_zone_ahead_of_utc :
  let host := fixedOffsetHost 19800000 in
  let now := 1704141000000 in
  isoDate (LocalTime host now) = "2024-01-02" /\
  getMinDate host now = Some "2024-01-02".
Proof. split; vm_compute; reflexivity. Qed.

(** A clock at the end of the range of time values: the date 30 days on
    is no time value, and [toISOString] throws. *)
Example max_date_out_of_range :
  getMaxDate (fixedOffsetHost 0) maxTimeValue = None.
Proof. vm_compute. reflexivity. Qed.

(** The calendar functions on some known dates. *)
Example toISOString_known_dates :
  toISOString 0 = "1970-01-01T00:00:00.000Z" /\
  toISOString (-1) = "1969-12-31T23:59:59.999Z" /\
  toISOString 951782400000 = "2000-02-29T00:00:00.000Z" /\
  toISOString 1709251199999 = "2024-02-29T23:59:59.999Z" /\
  toISOString 4102444800000 = "2100-01-01T00:00:00.000Z".
Proof. repeat split; vm_compute; reflexivity. Qed.

(** *** The booking form *)

Lemma HourFromTime_MakeDate (day tod : Z) :
  0 <= tod < msPerDay ->
  Day (MakeDate day tod) = day /\
  HourFromTime (MakeDate day tod) = tod / msPerHour /\
  MinFromTime (MakeDate day tod) = (tod / msPerMinute) mod 60 /\
  SecFromTime (MakeDate day tod) = (tod / msPerSecond) mod 60 /\
  msFromTime (MakeDate day tod) = tod mod 1000.
Proof.
  intros Ht.
  unfold Day, HourFromTime, MinFromTime, SecFromTime, msFromTime, MakeDate,
    msPerDay, msPerHour, msPerMinute, msPerSecond in *.
  repeat split.
  - rewrite Z.add_comm, Z.div_add by lia. rewrite Z.div_small by lia. lia.
  - replace (day * 86400000 + tod) with (tod + (day * 24) * 3600000) by lia.
    rewrite Z.div_add by lia.
    rewrite Z.mod_add by lia.
    apply Z.mod_small. split.
    + apply Z.div_pos; lia.
    + apply Z.div_lt_upper_bound; lia.
  - replace (day * 86400000 + tod) with (tod + (day * 1440) * 60000) by lia.
    rewrite Z.div_add by lia.
    replace (tod / 60000 + day * 1440) with (tod / 60000 + (day * 24) * 60) by lia.
    now rewrite Z.mod_add by lia.
  - replace (day * 86400000 + tod) with (tod + (day * 86400) * 1000) by lia.
    rewrite Z.div_add by lia.
    replace (tod / 1000 + day * 86400) with (tod / 1000 + (day * 1440) * 60) by lia.
    now rewrite Z.mod_add by lia.
  - replace (day * 86400000 + tod) with (tod + (day * 86400) * 1000) by lia.
    now rewrite Z.mod_add by lia.
Qed.

Lemma length_list_ascii_of_string (s : string) :
  length (list_ascii_of_string s) = String.length s.
Proof. induction s as [|c s IH]; simpl; [reflexivity | now rewrite IH]. Qed.

Lemma length_string_append (s1 s2 : string) :
  String.length (s1 +:+ s2) = (String.length s1 + String.length s2)%nat.
Proof. induction s1 as [|c s1 IH]; simpl; [reflexivity | now rewrite IH]. Qed.

Lemma parseLocalDateTime_length (s : string) (local : Z) :
  parseLocalDateTime s = Some local -> String.length s = 19%nat.
Proof.
  rewrite <- length_list_ascii_of_string. unfold parseLocalDateTime.
  destruct (list_ascii_of_string s) as [|? l]; [discriminate|].
  do 18 (destruct l as [|? l]; [discriminate|]).
  destruct l; [reflexivity | discriminate].
Qed.

Lemma parseDate_length (s : string) (day : Z) :
  parseDate s = Some day -> String.length s = 10%nat.
Proof.
  rewrite <- length_list_ascii_of_string. unfold parseDate.
  destruct (list_ascii_of_string s) as [|? l]; [discriminate|].
  do 9 (destruct l as [|? l]; [discriminate|]).
  destruct l; [reflexivity | discriminate].
Qed.

Lemma parse_joined_fixed (date time : string) (local : Z) :
  String.length date = 10%nat ->
  String.length time = 5%nat ->
  parseLocalDateTime (date +:+ "T" +:+ time +:+ ":00") = Some local <->
  exists day tod,
    parseDate date = Some day /\ parseTime time = Some tod /\
    local = MakeDate day tod.
Proof.
  intros Hd Hlen.
  do 5 (destruct time as [|? time]; [discriminate|]).
  destruct time; [clear Hlen | discriminate].
  do 10 (destruct date as [|? date]; [discriminate|]).
  destruct date; [clear Hd | discriminate].
  unfold parseLocalDateTime, parseDate, parseTime. simpl.
  repeat match goal with
         | |- context [isChar ?c ?e] => destruct (isChar c e) eqn:?
         end; simpl;
    try (split; [discriminate | intros [? [? [? [? _]]]]; discriminate]).
  all: match goal with
       | |- context [dateOf ?a ?b ?c ?d ?e ?f ?g ?h] =>
           destruct (dateOf a b c d e f g h) as [day|]; simpl
       end;
    try (split; [discriminate | intros [? [? [? _]]]; discriminate]).
  all: match goal with
       | |- context [timeOf ?a ?b ?c ?d ?e ?f] =>
           destruct (timeOf a b c d e f) as [tod|]; simpl
       end;
    try (split; [discriminate | intros [? [? [_ [? _]]]]; discriminate]).
  all: split;
    [ intros [= <-]; now exists day, tod
    | intros [? [? [[= <-] [[= <-] ->]]]]; reflexivity ].
Qed.

(** A date and a time joined by the handler parse as a whole exactly when
    both halves parse. *)
Lemma parse_joined (date time : string) (local : Z) :
  String.length time = 5%nat ->
  parseLocalDateTime (date +:+ "T" +:+ time +:+ ":00") = Some local <->
  exists day tod,
    parseDate date = Some day /\ parseTime time = Some tod /\
    local = MakeDate day tod.
Proof.
  intros Hlen. split.
  - intros H. pose proof (parseLocalDateTime_length _ _ H) as Hl.
    rewrite !length_string_append, Hlen in Hl. simpl in Hl.
    apply parse_joined_fixed; [lia | exact Hlen | exact H].
  - intros [day [tod [Hd H]]].
    pose proof (parseDate_length _ _ Hd) as Hl.
    apply parse_joined_fixed; [exact Hl | exact Hlen |].
    now exists day, tod.
Qed.

(** Every slot is a time the parser accepts, and it prints back. *)
Lemma slots_parse (slot : string) :
  In slot generateTimeSlots ->
  String.length slot = 5%nat /\
  exists tod,
    parseTime slot = Some tod /\ 0 <= tod < msPerDay /\
    timeString (tod / msPerHour) ((tod / msPerMinute) mod 60) = slot /\
    (tod / msPerSecond) mod 60 = 0 /\ tod mod 1000 = 0.
Proof.
  rewrite generateTimeSlots_value. intros H.
  repeat (destruct H as [<-|H];
          [split; [reflexivity|];
           eexists; split; [vm_compute; reflexivity|];
           repeat split; vm_compute; congruence|]).
  destruct H.
Qed.

Lemma digitValue_range (c : ascii) (x : Z) :
  digitValue c = Some x -> 0 <= x <= 9.
Proof.
  unfold digitValue.
  destruct ((48 <=? Z.of_N (N_of_ascii c)) && (Z.of_N (N_of_ascii c) <=? 57))
    eqn:E; [|discriminate].
  apply andb_true_iff in E as [E1 E2].
  apply Z.leb_le in E1, E2. intros [= <-]. lia.
Qed.

Lemma twoDigits_range (a b : ascii) (x : Z) :
  twoDigits a b = Some x -> 0 <= x <= 99.
Proof.
  unfold twoDigits.
  destruct (digitValue a) as [p|] eqn:Ea; [|discriminate].
  destruct (digitValue b) as [q|] eqn:Eb; [|discriminate].
  apply digitValue_range in Ea, Eb. cbn. intros [= <-]. lia.
Qed.

Lemma fourDigits_range (a b c d : ascii) (x : Z) :
  fourDigits a b c d = Some x -> 0 <= x <= 9999.
Proof.
  unfold fourDigits.
  destruct (twoDigits a b) as [p|] eqn:Ea; [|discriminate].
  destruct (twoDigits c d) as [q|] eqn:Eb; [|discriminate].
  apply twoDigits_range in Ea, Eb. cbn. intros [= <-]. lia.
Qed.

Lemma leapDays_range (y : Z) : 0 <= leapDays y <= 1.
Proof.
  unfold leapDays, DaysInYear.
  repeat match goal with
         | |- context [if ?b then _ else _] => destruct b
         end; lia.
Qed.

Lemma daysBeforeMonth_range (m leap : Z) :
  0 <= m <= 11 -> 0 <= leap <= 1 -> 0 <= daysBeforeMonth m leap <= 335.
Proof.
  intros Hm Hl.
  assert (H : m = 0 \/ m = 1 \/ m = 2 \/ m = 3 \/ m = 4 \/ m = 5 \/ m = 6
              \/ m = 7 \/ m = 8 \/ m = 9 \/ m = 10 \/ m = 11) by lia.
  repeat (destruct H as [-> | H]; [cbn; lia |]).
  subst m. cbn. lia.
Qed.

Lemma DaysInMonth_range (year month : Z) :
  0 <= month <= 11 -> 28 <= DaysInMonth year month <= 31.
Proof.
  intros Hm. pose proof (leapDays_range year) as Hl. unfold DaysInMonth.
  generalize dependent (leapDays year). intros leap Hl.
  assert (H : month = 0 \/ month = 1 \/ month = 2 \/ month = 3 \/ month = 4
              \/ month = 5 \/ month = 6 \/ month = 7 \/ month = 8
              \/ month = 9 \/ month = 10 \/ month = 11) by lia.
  repeat (destruct H as [-> | H]; [simpl; lia |]).
  subst month. simpl. lia.
Qed.

(** The years 0000 to 9999 lie well within the range of time values. *)
Lemma MakeDay_range (year month date : Z) :
  0 <= year <= 9999 -> 0 <= month <= 11 -> 1 <= date <= 31 ->
  - 720000 <= MakeDay year month date <= 2940000.
Proof.
  intros Hy Hm Hd. unfold MakeDay.
  rewrite (Z.div_small month 12), (Z.mod_small month 12), Z.add_0_r by lia.
  pose proof (daysBeforeMonth_range month (leapDays year) Hm
                (leapDays_range year)) as Hb.
  unfold DayFromYear.
  pose proof (Z.div_le_mono (- 1969) (year - 1969) 4 ltac:(lia) ltac:(lia)).
  pose proof (Z.div_le_mono (year - 1969) 8030 4 ltac:(lia) ltac:(lia)).
  pose proof (Z.div_le_mono (- 1901) (year - 1901) 100 ltac:(lia) ltac:(lia)).
  pose proof (Z.div_le_mono (year - 1901) 8098 100 ltac:(lia) ltac:(lia)).
  pose proof (Z.div_le_mono (- 1601) (year - 1601) 400 ltac:(lia) ltac:(lia)).
  pose proof (Z.div_le_mono (year - 1601) 8398 400 ltac:(lia) ltac:(lia)).
  change (- 1969 / 4) with (- 493) in *. change (8030 / 4) with 2007 in *.
  change (- 1901 / 100) with (- 20) in *. change (8098 / 100) with 80 in *.
  change (- 1601 / 400) with (- 5) in *. change (8398 / 400) with 20 in *.
  lia.
Qed.

Lemma dateOf_range (y1 y2 y3 y4 m1 m2 d1 d2 : ascii) (day : Z) :
  dateOf y1 y2 y3 y4 m1 m2 d1 d2 = Some day -> - 720000 <= day <= 2940000.
Proof.
  unfold dateOf.
  destruct (fourDigits y1 y2 y3 y4) as [year|] eqn:Ey; [|discriminate].
  destruct (twoDigits m1 m2) as [month|] eqn:Em; [|discriminate].
  destruct (twoDigits d1 d2) as [d|] eqn:Ed; [|discriminate].
  cbn.
  destruct ((1 <=? month) && (month <=? 12) && (1 <=? d)
            && (d <=? DaysInMonth year (month - 1))) eqn:E; [|discriminate].
  apply andb_true_iff in E as [E E4]. apply andb_true_iff in E as [E E3].
  apply andb_true_iff in E as [E1 E2].
  apply Z.leb_le in E1, E2, E3, E4.
  pose proof (DaysInMonth_range year (month - 1) ltac:(lia)).
  apply fourDigits_range in Ey.
  intros [= <-]. apply MakeDay_range; lia.
Qed.

Lemma parseDate_range (date : string) (day : Z) :
  parseDate date = Some day -> - 720000 <= day <= 2940000.
Proof.
  unfold parseDate.
  destruct (list_ascii_of_string date) as [|y1 l]; [discriminate|].
  do 9 (destruct l as [|? l]; [discriminate|]).
  destruct l; [|discriminate].
  destruct (_ && _); [|discriminate].
  apply dateOf_range.
Qed.

(** A calendar date and a slot, joined by the handler, on a host that
    reads the date-time format. *)
Lemma slot_on_date (host : Host) (date slot : string) (day : Z) :
  readsDateTimeFormat host ->
  offsetsWithinADay host ->
  parseDate date = Some day ->
  In slot generateTimeSlots ->
  exists tod,
    parseTime slot = Some tod /\ 0 <= tod < msPerDay /\
    dateParse host (date +:+ "T" +:+ slot +:+ ":00")
      = Some (UTC host (MakeDate day tod)).
Proof.
  intros Hfmt Hoff Hd Hslot.
  destruct (slots_parse slot Hslot) as [Hlen [tod [Hp [Hr _]]]].
  exists tod. split; [exact Hp|]. split; [exact Hr|].
  rewrite (Hfmt _ (MakeDate day tod)).
  - apply TimeClip_some.
    pose proof (parseDate_range _ _ Hd) as Hday.
    pose proof (Hoff (MakeDate day tod) false) as Ho.
    unfold UTC, MakeDate, maxTimeValue, msPerDay in *. lia.
  - apply (parse_joined _ _ _ Hlen). now exists day, tod.
Qed.

(** X8. The instant of a booking is the chosen slot on the chosen date in
    local time. On a host that reads the date-time format as the language
    specifies it and whose zone offsets stay within a day, for every
    calendar date YYYY-MM-DD and every slot the handler's
    [new Date(`${date}T${slot}:00`)] is a valid date: the instant of a
    local time value that lies on the day of [date], whose hour and
    minute print back as the slot, with zero seconds and milliseconds. *)
Theorem booked_instant_is_the_chosen_slot
    (host : Host) (date slot : string) (day : Z) :
  readsDateTimeFormat host ->
  offsetsWithinADay host ->
  parseDate date = Some day ->
  In slot generateTimeSlots ->
  exists local,
    dateParse host (date +:+ "T" +:+ slot +:+ ":00") = Some (UTC host local) /\
    Day local = day /\
    timeString (HourFromTime local) (MinFromTime local) = slot /\
    SecFromTime local = 0 /\ msFromTime local = 0.
Proof.
  intros Hfmt Hoff Hd Hslot.
  destruct (slot_on_date host date slot day Hfmt Hoff Hd Hslot)
    as [tod [Hp [Hr Hparse]]].
  destruct (slots_parse slot Hslot) as [_ [tod' [Hp' [_ [Hs [Hsec Hms]]]]]].
  rewrite Hp in Hp'. injection Hp' as <-.
  destruct (HourFromTime_MakeDate day tod Hr) as [H1 [H2 [H3 [H4 H5]]]].
  exists (MakeDate day tod).
  rewrite H1, H2, H3, H4, H5. now repeat split.
Qed.

Lemma DaysInMonth_le_31 (year month : Z) :
  1 <= month <= 12 -> DaysInMonth year (month - 1) <= 31.
Proof. intros H. apply DaysInMonth_range. lia. Qed.

Lemma dateOfCarrying_extends (y1 y2 y3 y4 m1 m2 d1 d2 : ascii) (day : Z) :
  dateOf y1 y2 y3 y4 m1 m2 d1 d2 = Some day ->
  dateOfCarrying y1 y2 y3 y4 m1 m2 d1 d2 = Some day.
Proof.
  unfold dateOf, dateOfCarrying.
  destruct (fourDigits y1 y2 y3 y4) as [year|]; [|discriminate].
  destruct (twoDigits m1 m2) as [month|]; [|discriminate].
  destruct (twoDigits d1 d2) as [d|]; [|discriminate].
  cbn.
  destruct ((1 <=? month) && (month <=? 12) && (1 <=? d)
            && (d <=? DaysInMonth year (month - 1))) eqn:E; [|discriminate].
  apply andb_true_iff in E as [E E4]. apply andb_true_iff in E as [E E3].
  apply andb_true_iff in E as [E1 E2].
  rewrite E1, E2, E3. apply Z.leb_le in E1, E2, E4.
  pose proof (DaysInMonth_le_31 year month ltac:(lia)) as Hle.
  assert (E5 : (d <=? 31) = true) by (apply Z.leb_le; lia).
  now rewrite E5.
Qed.

Lemma parseCarrying_extends (s : string) (local : Z) :
  parseLocalDateTime s = Some local -> parseCarrying s = Some local.
Proof.
  unfold parseLocalDateTime, parseCarrying.
  destruct (list_ascii_of_string s) as [|? l]; [discriminate|].
  do 18 (destruct l as [|? l]; [discriminate|]).
  destruct l; [|discriminate].
  destruct (_ && _); [|discriminate].
  match goal with
  | |- context [dateOf ?a ?b ?c ?d ?e ?f ?g ?h] =>
      destruct (dateOf a b c d e f g h) as [day|] eqn:Ed; [|discriminate];
      rewrite (dateOfCarrying_extends _ _ _ _ _ _ _ _ _ Ed)
  end.
  exact (fun H => H).
Qed.

Lemma fixedOffsetHost_reads_format (tza : Z) :
  readsDateTimeFormat (fixedOffsetHost tza).
Proof. intros s local H. cbn. now rewrite H. Qed.

Lemma newYork2024_reads_format : readsDateTimeFormat newYork2024.
Proof.
  intros s local H. cbn. now rewrite (parseCarrying_extends _ _ H).
Qed.

Lemma newYork2024_offsets : offsetsWithinADay newYork2024.
Proof.
  intros t isUTC. cbn. unfold newYorkOffset, msPerHour, msPerDay.
  destruct isUTC; destruct (_ && _); lia.
Qed.

(** 17:30 on 29 February 2024 in New York is 22:30 UTC. *)
Lemma booked_instant_is_the_chosen_slot_witness :
  exists local,
    dateParse newYork2024 ("2024-02-29" +:+ "T" +:+ "17:30" +:+ ":00")
      = Some (UTC newYork2024 local) /\
    Day local = 19782 /\
    timeString (HourFromTime local) (MinFromTime local) = "17:30" /\
    SecFromTime local = 0 /\ msFromTime local = 0.
Proof.
  exact (booked_instant_is_the_chosen_slot newYork2024 "2024-02-29" "17:30" 19782
           newYork2024_reads_format newYork2024_offsets
           ltac:(vm_compute; reflexivity)
           ltac:(rewrite generateTimeSlots_value; simpl; tauto)).
Defined.

Lemma bookDisabled_false (f : Form) :
  bookDisabled f = false ->
  loading f = false /\ JsString.truthy (apptDate f) = true /\
  JsString.truthy (apptTime f) = true.
Proof.
  unfold bookDisabled. intros H.
  apply orb_false_iff in H as [H H3]. apply orb_false_iff in H as [H1 H2].
  apply negb_false_iff in H2, H3. now repeat split.
Qed.

Lemma booking_request_effect
    (host : Host) (reply : BookReply) (f : Form) (doctor : Doctor) :
  selectedDoctor f = Some doctor ->
  bookDisabled f = false ->
  loading (bookAppointment host reply f) = false /\
  match dateParse host (apptDate f +:+ "T" +:+ apptTime f +:+ ":00") with
  | Some t =>
      exchanges (bookAppointment host reply f) =
        exchanges f ++
        [ Book (doctor_id doctor) (toISOString t)
               (orNull (apptDiseaseType f)) (orNull (apptSymptoms f))
               (match reply with BookOk => true | BookFailed _ => false end) ] /\
      step (bookAppointment host reply f) =
        match reply with BookOk => 3 | BookFailed _ => step f end
  | None =>
      exchanges (bookAppointment host reply f) = exchanges f /\
      step (bookAppointment host reply f) = step f /\
      toasts (bookAppointment host reply f) =
        toasts f ++ [ToastError "Failed to book appointment"]
  end.
Proof.
  intros Hd Hb.
  destruct (bookDisabled_false f Hb) as [_ [Hdate Htime]].
  unfold bookAppointment. rewrite Hdate, Htime. simpl. rewrite Hd.
  destruct (dateParse host (apptDate f +:+ "T" +:+ apptTime f +:+ ":00"));
    simpl; [destruct reply|]; simpl; now repeat split.
Qed.

(** X9. A click on the enabled Book button with a doctor selected: when
    the host reads [`${date}T${time}:00`] as a valid date, exactly one
    POST /appointments/book goes out, for the selected doctor, with that
    instant as an ISO string in UTC and with an empty concern or symptoms
    text as null (any other text as typed); the form moves to the
    confirmation step when the request succeeds and stays where it is
    when it is rejected. When the host reads it as the Invalid Date,
    nothing is sent, the form stays and the fixed error text is shown.
    The handler itself checks the date neither against the calendar nor
    against the range of the date input. *)
Theorem booking_request
    (host : Host) (reply : BookReply) (f : Form) (doctor : Doctor) :
  selectedDoctor f = Some doctor ->
  bookDisabled f = false ->
  let f' := bookAppointment host reply f in
  loading f' = false /\
  match dateParse host (apptDate f +:+ "T" +:+ apptTime f +:+ ":00") with
  | Some t =>
      exchanges f' =
        exchanges f ++
        [ Book (doctor_id doctor) (toISOString t)
               (orNull (apptDiseaseType f)) (orNull (apptSymptoms f))
               (match reply with BookOk => true | BookFailed _ => false end) ] /\
      step f' = match reply with BookOk => 3 | BookFailed _ => step f end
  | None =>
      exchanges f' = exchanges f /\ step f' = step f /\
      toasts f' = toasts f ++ [ToastError "Failed to book appointment"]
  end.
Proof.
  intros Hd Hb f'. subst f'. now apply booking_request_effect.
Qed.

(** On a host that carries days over, as V8 does, 30 February 2024 at
    09:00 in New York is booked as 1 March, 14:00 UTC. *)
Lemma booking_request_witness :
  let rao := mkDoctor 7 "Rao" "Dermatology" "Pune" in
  let f := mkForm 2 "Pune" "" [rao] [] (Some rao) "2024-02-30" "09:00" "" "  "
                  false false [] [] in
  exchanges (bookAppointment newYork2024 BookOk f) =
    [ Book 7 "2024-03-01T14:00:00.000Z" None (Some "  ") true ] /\
  step (bookAppointment newYork2024 BookOk f) = 3.
Proof.
  pose proof (booking_request newYork2024 BookOk
    (mkForm 2 "Pune" "" [mkDoctor 7 "Rao" "Dermatology" "Pune"] []
            (Some (mkDoctor 7 "Rao" "Dermatology" "Pune"))
            "2024-02-30" "09:00" "" "  " false false [] [])
    (mkDoctor 7 "Rao" "Dermatology" "Pune") eq_refl eq_refl) as [_ H].
  vm_compute in H. exact H.
Defined.

(** The same click on a host that reads the date-time format only: no
    request, the error text. And a date long before the minimum of the
    date input is booked all the same. *)
Example booking_on_a_strict_host :
  let rao := mkDoctor 7 "Rao" "Dermatology" "Pune" in
  let form date :=
    mkForm 2 "Pune" "" [rao] [] (Some rao) date "09:30" "" "" false false [] [] in
  let host := fixedOffsetHost 19800000 in
  exchanges (bookAppointment host BookOk (form "2024-02-30")) = [] /\
  toasts (bookAppointment host BookOk (form "2024-02-30"))
    = [ToastError "Failed to book appointment"] /\
  getMinDate host 1704141000000 = Some "2024-01-02" /\
  exchanges (bookAppointment host BookOk (form "2020-01-01"))
    = [ Book 7 "2020-01-01T04:00:00.000Z" None None true ].
Proof. repeat split; vm_compute; reflexivity. Qed.

(** What one run of [searchDoctors] does to the form. *)
Lemma searchDoctors_effect (reply : option (list Doctor)) (f : Form) :
  let f' := searchDoctors reply f in
  (JsString.whitespaceOnly (searchCity f) = true ->
     exchanges f' = exchanges f /\ doctors f' = doctors f /\
     toasts f' = toasts f ++ [ToastError "Please enter a city"] /\
     searching f' = searching f) /\
  (JsString.whitespaceOnly (searchCity f) = false ->
     exchanges f' =
       exchanges f ++
       [ SearchDoctors (searchCity f) (orNull (searchSpecialty f))
                       (match reply with Some _ => true | None => false end) ] /\
     doctors f' = match reply with Some found => found | None => doctors f end /\
     toasts f' =
       toasts f ++
       match reply with
       | Some [] =>
           [ToastError
              "No doctors found in your area. Try a different city or specialty."]
       | Some _ => []
       | None => [ToastError "Failed to search doctors. Please try again."]
       end /\
     searching f' = false) /\
  step f' = step f /\ selectedDoctor f' = selectedDoctor f.
Proof.
  intros f'. subst f'. unfold searchDoctors. split; [|split].
  - intros H. apply JsStringFacts.trim_falsy in H. rewrite H. now repeat split.
  - intros H. apply JsStringFacts.trim_truthy in H. rewrite H. simpl.
    destruct reply as [[|d found]|]; simpl; rewrite ?app_nil_r; now repeat split.
  - destruct (JsString.truthy (JsString.trim (searchCity f))); simpl;
      [|now split].
    destruct reply as [[|d found]|]; simpl; now split.
Qed.

(** X10. The doctor search: with an empty or white-space-only city only
    the error text is shown, nothing is sent and the result list stays;
    otherwise exactly one search goes out, with the city as typed and
    with an empty specialty left out; a rejected search keeps the result
    list that was on screen, an answered one replaces it, and an answer
    without doctors shows the "No doctors found" text; in every case
    [searching] is off afterwards. *)
Theorem search_doctors_behaviour (reply : option (list Doctor)) (f : Form) :
  let f' := searchDoctors reply f in
  (JsString.whitespaceOnly (searchCity f) = true ->
     exchanges f' = exchanges f /\ doctors f' = doctors f /\
     toasts f' = toasts f ++ [ToastError "Please enter a city"] /\
     searching f' = searching f) /\
  (JsString.whitespaceOnly (searchCity f) = false ->
     exchanges f' =
       exchanges f ++
       [ SearchDoctors (searchCity f) (orNull (searchSpecialty f))
                       (match reply with Some _ => true | None => false end) ] /\
     doctors f' = match reply with Some found => found | None => doctors f end /\
     toasts f' =
       toasts f ++
       match reply with
       | Some [] =>
           [ToastError
              "No doctors found in your area. Try a different city or specialty."]
       | Some _ => []
       | None => [ToastError "Failed to search doctors. Please try again."]
       end /\
     searching f' = false) /\
  step f' = step f /\ selectedDoctor f' = selectedDoctor f.
Proof. exact (searchDoctors_effect reply f). Qed.

Lemma search_doctors_behaviour_witness :
  let rao := mkDoctor 7 "Rao" "Dermatology" "Pune" in
  let f := mkForm 1 " Pune " "" [rao] [] None "" "" "" "" false false [] [] in
  exchanges (searchDoctors None f) = [ SearchDoctors " Pune " None false ] /\
  doctors (searchDoctors None f) = [rao].
Proof.
  pose proof (proj1 (proj2 (search_doctors_behaviour None
    (mkForm 1 " Pune " "" [mkDoctor 7 "Rao" "Dermatology" "Pune"] [] None
            "" "" "" "" false false [] []))) eq_refl) as [H1 [H2 _]].
  split; [exact H1 | exact H2].
Defined.

(** *** What holds of the form in every run *)

Lemma formInvariant_initial (host : Host) (user : option User) :
  formInvariant host (initialForm user).
Proof.
  unfold formInvariant. simpl.
  split; [now left|]. split; [intros H; now exfalso|].
  split; [now left|]. split; [discriminate | constructor].
Qed.

Lemma formInvariant_searchDoctors (host : Host) (reply : option (list Doctor))
    (f : Form) :
  formInvariant host f -> formInvariant host (searchDoctors reply f).
Proof.
  intros [H1 [H2 [H3 [H4 H5]]]].
  pose proof (searchDoctors_effect reply f) as [Hb [Hv [Hs Hd]]].
  assert (Ht : apptTime (searchDoctors reply f) = apptTime f).
  { unfold searchDoctors.
    destruct (JsString.truthy (JsString.trim (searchCity f))); [|reflexivity].
    destruct reply as [[|d found]|]; reflexivity. }
  assert (Hx : exists l, exchanges (searchDoctors reply f) = exchanges f ++ l /\
                         Forall (bookingAtSlot host) l).
  { destruct (JsString.whitespaceOnly (searchCity f)) eqn:E.
    - exists []. rewrite app_nil_r. split; [now apply Hb | constructor].
    - eexists. split; [now apply Hv | now repeat constructor]. }
  destruct Hx as [l [Hx Hl]].
  unfold formInvariant. rewrite Hs, Hd, Ht, Hx. repeat split; try assumption.
  - intros E. destruct (H4 E) as [a [b [c [d Hin]]]].
    exists a, b, c, d. apply in_or_app. now left.
  - apply Forall_app. now split.
Qed.

Lemma formInvariant_bookAppointment (host : Host) (reply : BookReply) (f : Form) :
  onBookingCard f = true -> bookDisabled f = false ->
  formInvariant host f -> formInvariant host (bookAppointment host reply f).
Proof.
  intros Hcard Hb [H1 [H2 [H3 [H4 H5]]]].
  unfold onBookingCard in Hcard. apply andb_true_iff in Hcard as [Hstep Hdoc].
  apply Z.eqb_eq in Hstep.
  destruct (selectedDoctor f) as [doctor|] eqn:Ed; [clear Hdoc | discriminate].
  pose proof (booking_request_effect host reply f doctor Ed Hb) as [_ Heff].
  assert (Hsel : selectedDoctor (bookAppointment host reply f) = Some doctor).
  { destruct (bookDisabled_false f Hb) as [_ [Hdate Htime]].
    unfold bookAppointment. rewrite Hdate, Htime. simpl. rewrite Ed.
    destruct (dateParse host _); [destruct reply|]; exact Ed. }
  assert (Htm : apptTime (bookAppointment host reply f) = apptTime f).
  { destruct (bookDisabled_false f Hb) as [_ [Hdate Htime]].
    unfold bookAppointment. rewrite Hdate, Htime. simpl. rewrite Ed.
    destruct (dateParse host _); [destruct reply|]; reflexivity. }
  assert (Hslot : In (apptTime f) generateTimeSlots).
  { destruct H3 as [H3|H3]; [|exact H3].
    destruct (bookDisabled_false f Hb) as [_ [_ Htime]].
    rewrite H3 in Htime. discriminate. }
  unfold formInvariant. rewrite Hsel, Htm.
  destruct (dateParse host (apptDate f +:+ "T" +:+ apptTime f +:+ ":00"))
    as [t|] eqn:Ep.
  - destruct Heff as [Hx Hs]. rewrite Hx, Hs.
    split; [destruct reply; lia|].
    split; [discriminate|].
    split; [exact H3|].
    split.
    + destruct reply; [intros _ | intros E; lia].
      eexists _, _, _, _. apply in_or_app. right. now left.
    + apply Forall_app. split; [exact H5|]. constructor; [|constructor].
      now exists (apptDate f), (apptTime f), t.
  - destruct Heff as [Hx [Hs _]]. rewrite Hx, Hs.
    split; [exact H1|].
    split; [discriminate|].
    split; [exact H3|].
    split; [intros E; lia | exact H5].
Qed.

Lemma formInvariant_step (host : Host) (f : Form) (e : FormEvent) :
  formInvariant host f -> formInvariant host (formStep host f e).
Proof.
  intros H. pose proof H as [H1 [H2 [H3 [H4 H5]]]].
  destruct e; simpl.
  - destruct (onSearchCard f); exact H.
  - destruct (_ && _); exact H.
  - destruct (_ && _); [now apply formInvariant_searchDoctors | exact H].
  - destruct (onSearchCard f) eqn:E; [|exact H].
    destruct (doctors f !! i) as [doctor|]; [|exact H].
    unfold onSearchCard in E. apply Z.eqb_eq in E.
    unfold formInvariant, selectDoctor. simpl.
    split; [lia|]. split; [discriminate|]. split; [exact H3|].
    split; [intros C; lia | exact H5].
  - destruct (onBookingCard f); exact H.
  - destruct (onBookingCard f && _) eqn:E; [|exact H].
    apply andb_true_iff in E as [_ E]. apply bool_decide_eq_true in E.
    unfold formInvariant. simpl.
    split; [exact H1|]. split; [exact H2|]. split; [|split; [exact H4 | exact H5]].
    apply elem_of_cons in E as [E|E]; [now left | right].
    now apply list_elem_of_In.
  - destruct (onBookingCard f); exact H.
  - destruct (onBookingCard f); exact H.
  - destruct (onBookingCard f) eqn:E; [|exact H].
    unfold formInvariant. simpl.
    split; [lia|]. split; [intros C; now exfalso|]. split; [exact H3|].
    split; [intros C; lia | exact H5].
  - destruct (onBookingCard f && negb (bookDisabled f)) eqn:E; [|exact H].
    apply andb_true_iff in E as [E1 E2]. apply negb_true_iff in E2.
    now apply formInvariant_bookAppointment.
Qed.

(** X11. In every run of the booking form from its mounted state: the
    step is 1, 2 or 3; past step 1 a doctor is selected, so the booking
    handler never reads the id of a missing doctor; the chosen time is
    empty or one of the slots; every booking request that went out asks
    for the instant that the host reads from a date and a slot time; and
    the confirmation step is on screen only after a booking request has
    succeeded. This holds on every host, whatever its zone and its
    reading of dates. *)
Theorem form_invariant_in_every_run
    (host : Host) (user : option User) (events : list FormEvent) :
  let f := formRun host events (initialForm user) in
  (step f = 1 \/ step f = 2 \/ step f = 3) /\
  (step f <> 1 -> selectedDoctor f <> None) /\
  (apptTime f = "" \/ In (apptTime f) generateTimeSlots) /\
  (step f = 3 ->
     exists doctorId when disease symptoms,
       In (Book doctorId when disease symptoms true) (exchanges f)) /\
  (forall doctorId when disease symptoms ok,
     In (Book doctorId when disease symptoms ok) (exchanges f) ->
     exists date slot t,
       In slot generateTimeSlots /\
       dateParse host (date +:+ "T" +:+ slot +:+ ":00") = Some t /\
       when = toISOString t).
Proof.
  intros f. subst f.
  assert (H : formInvariant host (formRun host events (initialForm user))).
  { generalize (formInvariant_initial host user).
    generalize (initialForm user). unfold formRun.
    induction events as [|e events IH]; intros f0 H0; simpl; [exact H0|].
    apply IH. now apply formInvariant_step. }
  destruct H as [H1 [H2 [H3 [H4 H5]]]].
  repeat split; try assumption.
  intros doctorId when disease symptoms ok Hin.
  exact (proj1 (Forall_forall _ _) H5 _ Hin).
Qed.

Lemma form_invariant_in_every_run_witness :
  let rao := mkDoctor 7 "Rao" "Dermatology" "Pune" in
  let f := formRun (fixedOffsetHost 19800000)
             [ TypeCity "Pune"; ClickSearch (Some [rao]); ClickSelectDoctor 0;
               PickDate "2024-02-29"; ChooseTime "17:30"; ChooseTime "18:00";
               ClickBook BookOk ]
             (initialForm None) in
  step f = 3 /\
  exchanges f =
    [ SearchDoctors "Pune" None true;
      Book 7 "2024-02-29T12:00:00.000Z" None None true ] /\
  exists doctorId when disease symptoms,
    In (Book doctorId when disease symptoms true) (exchanges f).
Proof.
  split; [vm_compute; reflexivity|]. split; [vm_compute; reflexivity|].
  refine (proj1 (proj2 (proj2 (proj2
    (form_invariant_in_every_run (fixedOffsetHost 19800000) None
       [ TypeCity "Pune";
         ClickSearch (Some [mkDoctor 7 "Rao" "Dermatology" "Pune"]);
         ClickSelectDoctor 0;
         PickDate "2024-02-29"; ChooseTime "17:30"; ChooseTime "18:00";
         ClickBook BookOk ])))) _).
  vm_compute. reflexivity.
Defined.

End BookAppointmentFacts.

(** ** Image detection: the picker and the request *)
Module ImageDetectionFacts.
Import JsString JsStringFacts ImageDetection.

Lemma detectRequests_app (l1 l2 : list Effect) :
  detectRequests (l1 ++ l2) = detectRequests l1 ++ detectRequests l2.
Proof. apply flat_map_app. Qed.

Lemma fileReads_app (l1 l2 : list Effect) :
  fileReads (l1 ++ l2) = fileReads l1 ++ fileReads l2.
Proof. apply flat_map_app. Qed.

(** C4. A chosen file of more than 10 MB (10 * 1024 * 1024 = 10485760
    bytes) is turned down: the handler shows the error message and
    nothing else happens, the selected image and the preview stay as they
    were and no read is started. Any other chosen file is read: the
    handler starts a read of that file, and the data URL the read delivers
    becomes the selected image and the preview. *)
Theorem image_over_limit_rejected_else_read
    (file : File) (others : list File) (st : State) :
  sizeLimit = 10485760 /\
  (sizeLimit < size file ->
     let st' := selectFile (file :: others) st in
     effects st' = effects st ++ [ToastError "Image size should be less than 10MB"] /\
     fileReads (effects st') = fileReads (effects st) /\
     selectedImage st' = selectedImage st /\
     imagePreview st' = imagePreview st) /\
  (size file <= sizeLimit ->
     effects (handleImageSelect (file :: others) st) =
       effects st ++ [ReadAsDataURL file] /\
     forall result, readResult file = Some result ->
       let st' := selectFile (file :: others) st in
       effects st' = effects st ++ [ReadAsDataURL file] /\
       selectedImage st' = Some result /\
       imagePreview st' = Some result).
Proof.
  split; [reflexivity|]. split.
  - intros Hbig st'. subst st'. unfold selectFile, handleImageSelect.
    assert (E : (size file >? sizeLimit) = true) by (apply Z.gtb_lt; lia).
    rewrite E. simpl. rewrite fileReads_app, app_nil_r. now repeat split.
  - intros Hok.
    assert (E : (size file >? sizeLimit) = false)
      by (rewrite Z.gtb_ltb; apply Z.ltb_ge; lia).
    unfold selectFile, handleImageSelect. rewrite E. simpl.
    split; [reflexivity|]. intros result ->. now repeat split.
Qed.

(** A file of 10 MB and one byte, then a file of exactly 10 MB. *)
Lemma image_over_limit_rejected_else_read_witness :
  let big := mkFile "scan.png" 10485761 (Some "data:image/png;base64,AAAA") in
  let ok := mkFile "nail.jpg" 10485760 (Some "data:image/jpeg;base64,BBBB") in
  (selectedImage (selectFile [big] initial) = None /\
   imagePreview (selectFile [big] initial) = None) /\
  (selectedImage (selectFile [ok] initial) = Some "data:image/jpeg;base64,BBBB" /\
   imagePreview (selectFile [ok] initial) = Some "data:image/jpeg;base64,BBBB").
Proof.
  split.
  - pose proof (proj1 (proj2 (image_over_limit_rejected_else_read
                  (mkFile "scan.png" 10485761 (Some "data:image/png;base64,AAAA"))
                  [] initial)) eq_refl) as [_ [_ [H1 H2]]].
    split; [exact H1 | exact H2].
  - pose proof (proj2 (proj2 (proj2 (image_over_limit_rejected_else_read
                  (mkFile "nail.jpg" 10485760 (Some "data:image/jpeg;base64,BBBB"))
                  [] initial)) ltac:(discriminate))
                  "data:image/jpeg;base64,BBBB" eq_refl) as [_ [H1 H2]].
    split; [exact H1 | exact H2].
Defined.

(** With no file chosen, or when the read fails, nothing is selected. *)
Lemma selectFile_nothing_selected (files : list File) (st : State) :
  match files with
  | [] => selectFile files st = st
  | file :: _ =>
      readResult file = None ->
      selectedImage (selectFile files st) = selectedImage st /\
      imagePreview (selectFile files st) = imagePreview st
  end.
Proof.
  destruct files as [|file others]; [reflexivity|].
  intros Hr. unfold selectFile, handleImageSelect. rewrite Hr.
  destruct (size file >? sizeLimit); now split.
Qed.

(** *** The detection request *)

Lemma normalizedSymptoms_blank (s : string) :
  whitespaceOnly s = true -> normalizedSymptoms s = None.
Proof.
  intros H. apply trim_falsy in H. unfold normalizedSymptoms. now rewrite H.
Qed.

Lemma normalizedSymptoms_visible (s : string) :
  whitespaceOnly s = false -> normalizedSymptoms s = Some (trim s).
Proof.
  intros H. apply trim_truthy in H. unfold normalizedSymptoms. now rewrite H.
Qed.

(** C5. [handleDetection] without a disease type or without an image
    shows an error, sends nothing and leaves [results] as it was; with
    both it sends exactly one POST /disease/detect whose body holds the
    disease type, the image and the symptoms, where a symptoms text that
    is empty or white space only goes out as null and any other text goes
    out trimmed; for a body built from a blank symptoms text the refiner is
    not invoked. *)
Theorem detection_request_guarded (reply : DetectReply) (st : State) :
  let st' := handleDetection reply st in
  (truthy (selectedModel st) = false \/ truthyOpt (selectedImage st) = false ->
     detectRequests (effects st') = detectRequests (effects st) /\
     results st' = results st /\
     exists message, effects st' = effects st ++ [ToastError message]) /\
  (truthy (selectedModel st) = true -> truthyOpt (selectedImage st) = true ->
     detectRequests (effects st') =
       detectRequests (effects st) ++
       [ mkDetectBody (selectedModel st) (selectedImage st)
                      (normalizedSymptoms (symptoms st)) ]) /\
  (whitespaceOnly (symptoms st) = true ->
     normalizedSymptoms (symptoms st) = None /\
     refinerInvoked (mkDetectBody (selectedModel st) (selectedImage st)
                                  (normalizedSymptoms (symptoms st))) = false) /\
  (whitespaceOnly (symptoms st) = false ->
     normalizedSymptoms (symptoms st) = Some (trim (symptoms st))).
Proof.
  intros st'. subst st'. split; [|split; [|split]].
  - unfold handleDetection. intros [Hm | Hi].
    + rewrite Hm. simpl. rewrite detectRequests_app, app_nil_r.
      repeat split. now eexists.
    + rewrite Hi. destruct (truthy (selectedModel st)); simpl;
        rewrite detectRequests_app, app_nil_r; repeat split; now eexists.
  - intros Hm Hi. unfold handleDetection. rewrite Hm, Hi. simpl.
    destruct reply; simpl; rewrite ?detectRequests_app; simpl;
      now rewrite ?app_nil_r.
  - intros Hb. rewrite (normalizedSymptoms_blank _ Hb). now split.
  - apply normalizedSymptoms_visible.
Qed.

Lemma detection_request_guarded_witness :
  let ready := mkState "skin" (Some "data:image/png;base64,AAAA")
                       (Some "data:image/png;base64,AAAA") "   " false None [] in
  detectRequests (effects (handleDetection (DetectFailed None) ready)) =
    [ mkDetectBody "skin" (Some "data:image/png;base64,AAAA") None ] /\
  detectRequests (effects (handleDetection (DetectFailed None) initial)) = [].
Proof.
  split.
  - exact (proj1 (proj2 (detection_request_guarded (DetectFailed None)
             (mkState "skin" (Some "data:image/png;base64,AAAA")
                      (Some "data:image/png;base64,AAAA") "   " false None [] )))
             eq_refl eq_refl).
  - exact (proj1 (proj1 (detection_request_guarded (DetectFailed None) initial)
                        (or_introl eq_refl))).
Defined.

(** The symptoms go out trimmed. *)
Example symptoms_are_trimmed :
  normalizedSymptoms "  itchy rash " = Some "itchy rash" /\
  normalizedSymptoms "" = None.
Proof. split; reflexivity. Qed.

(** A failed request leaves [results] cleared: they were set to null
    before the request went out. *)
Example failed_detection_clears_results :
  let shown := mkResults "Eczema" None None in
  let st := mkState "skin" (Some "data:image/png;base64,AAAA")
                    (Some "data:image/png;base64,AAAA") "" false (Some shown) [] in
  results (handleDetection (DetectFailed (Some "Model not found")) st) = None /\
  effects (handleDetection (DetectFailed (Some "Model not found")) st) =
    [ PostDetect (mkDetectBody "skin" (Some "data:image/png;base64,AAAA") None);
      ToastError "Model not found" ].
Proof. split; reflexivity. Qed.

(** *** The page as a whole *)

Lemma readFromAdmittedFile_app (l1 l2 : list Effect) (image : string) :
  readFromAdmittedFile l1 image -> readFromAdmittedFile (l1 ++ l2) image.
Proof.
  intros [file [Hin H]]. exists file. split; [|exact H].
  apply in_or_app. now left.
Qed.

Lemma pageInvariant_grow (st st' : State) (l : list Effect) :
  pageInvariant st ->
  effects st' = effects st ++ l ->
  (forall body, In (PostDetect body) l ->
     truthy (disease_type body) = true /\
     exists image,
       image_base64 body = Some image /\ truthy image = true /\
       readFromAdmittedFile (effects st) image) ->
  (forall file, In (ReadAsDataURL file) l -> size file <= sizeLimit) ->
  imagePreview st' = selectedImage st' ->
  (forall image, selectedImage st' = Some image ->
     readFromAdmittedFile (effects st ++ l) image) ->
  loading st' = false ->
  pageInvariant st'.
Proof.
  intros [_ [_ [Hposts [Hreads _]]]] He Hnew Hnr Hp Hs Hl.
  unfold pageInvariant. rewrite He.
  split; [exact Hp|]. split; [exact Hs|]. split; [|split; [|exact Hl]].
  - intros body Hin. apply in_app_or in Hin as [Hin|Hin].
    + destruct (Hposts body Hin) as [Hm [image [H1 [H2 H3]]]].
      split; [exact Hm|]. exists image.
      split; [exact H1|]. split; [exact H2|]. now apply readFromAdmittedFile_app.
    + destruct (Hnew body Hin) as [Hm [image [H1 [H2 H3]]]].
      split; [exact Hm|]. exists image.
      split; [exact H1|]. split; [exact H2|]. now apply readFromAdmittedFile_app.
  - intros file Hin. apply in_app_or in Hin as [Hin|Hin].
    + now apply Hreads.
    + now apply Hnr.
Qed.

Lemma pageInvariant_handleImageSelect (files : list File) (st : State) :
  pageInvariant st -> pageInvariant (handleImageSelect files st).
Proof.
  intros H. pose proof H as [Hp [Hs [_ [_ Hl]]]].
  destruct files as [|file others]; [exact H|].
  unfold handleImageSelect.
  destruct (size file >? sizeLimit) eqn:E.
  - apply (pageInvariant_grow st _
             [ToastError "Image size should be less than 10MB"]);
      try assumption; try reflexivity.
    + intros body [C|[]]. discriminate.
    + intros f [C|[]]. discriminate.
    + intros image Hi. simpl in Hi. now apply readFromAdmittedFile_app, Hs.
  - assert (Hsize : size file <= sizeLimit)
      by (rewrite Z.gtb_ltb in E; apply Z.ltb_ge in E; lia).
    apply (pageInvariant_grow st _ [ReadAsDataURL file]);
      try assumption; try reflexivity.
    + intros body [C|[]]. discriminate.
    + intros f [[= <-]|[]]. exact Hsize.
    + intros image Hi. simpl in Hi. now apply readFromAdmittedFile_app, Hs.
Qed.

Lemma pageInvariant_readerOnload (file : File) (result : string) (st : State) :
  In (ReadAsDataURL file) (effects st) ->
  readResult file = Some result ->
  pageInvariant st -> pageInvariant (readerOnload result st).
Proof.
  intros Hin Hr [_ [_ [Hb [Hreads Hl]]]].
  unfold pageInvariant. simpl.
  split; [reflexivity|]. split; [|split; [exact Hb | split; [exact Hreads | exact Hl]]].
  intros image [= <-]. exists file.
  split; [exact Hin|]. split; [exact Hr | now apply Hreads].
Qed.

Lemma pageInvariant_handleDetection (reply : DetectReply) (st : State) :
  analyzeDisabled st = false ->
  pageInvariant st -> pageInvariant (handleDetection reply st).
Proof.
  intros Hd H. pose proof H as [Hp [Hs [_ [_ Hl]]]].
  unfold analyzeDisabled in Hd.
  apply orb_false_iff in Hd as [Hd Hi]. apply orb_false_iff in Hd as [_ Hm].
  apply negb_false_iff in Hm, Hi.
  unfold handleDetection. rewrite Hm, Hi. simpl.
  destruct (selectedImage st) as [image|] eqn:Ei; [|discriminate].
  assert (Hnew : forall body,
            body = mkDetectBody (selectedModel st) (Some image)
                                (normalizedSymptoms (symptoms st)) ->
            truthy (disease_type body) = true /\
            exists image0,
              image_base64 body = Some image0 /\ truthy image0 = true /\
              readFromAdmittedFile (effects st) image0).
  { intros body ->. split; [exact Hm|]. exists image.
    repeat split; [exact Hi | now apply Hs]. }
  destruct reply as [data|detail].
  - eapply (pageInvariant_grow st _ [PostDetect _; ToastSuccess _]);
      try assumption; simpl; try (rewrite <- app_assoc; reflexivity).
    + intros body [[= <-]|[C|[]]]; [now apply Hnew | discriminate].
    + intros f [C|[C|[]]]; discriminate.
    + now rewrite Ei.
    + intros image0 Hi0. rewrite Ei in Hi0.
      now apply readFromAdmittedFile_app, Hs.
    + reflexivity.
  - eapply (pageInvariant_grow st _ [PostDetect _; ToastError _]);
      try assumption; simpl; try (rewrite <- app_assoc; reflexivity).
    + intros body [[= <-]|[C|[]]]; [now apply Hnew | discriminate].
    + intros f [C|[C|[]]]; discriminate.
    + now rewrite Ei.
    + intros image0 Hi0. rewrite Ei in Hi0.
      now apply readFromAdmittedFile_app, Hs.
    + reflexivity.
Qed.

Lemma pageInvariant_step (st : State) (e : Event) :
  pageInvariant st -> pageInvariant (step st e).
Proof.
  intros H. pose proof H as [Hp [Hs [Hb [Hreads Hl]]]].
  destruct e as [key|files|i| |text|reply| ]; simpl.
  - exact H.
  - now apply pageInvariant_handleImageSelect.
  - destruct (effects st !! i) as [[m|m|file|body]|] eqn:E; try exact H.
    destruct (readResult file) as [result|] eqn:Er; [|exact H].
    apply (pageInvariant_readerOnload file); try assumption.
    apply list_elem_of_In. exact (list_elem_of_lookup_2 _ _ _ E).
  - destruct (truthyOpt (imagePreview st)); [|exact H].
    unfold pageInvariant. simpl.
    split; [reflexivity|]. split; [discriminate|].
    split; [exact Hb | split; [exact Hreads | exact Hl]].
  - exact H.
  - destruct (analyzeDisabled st) eqn:E; [exact H|].
    now apply pageInvariant_handleDetection.
  - unfold pageInvariant. simpl.
    split; [reflexivity|]. split; [discriminate|].
    split; [exact Hb | split; [exact Hreads | exact Hl]].
Qed.

(** X12. In every run of the detection page: preview and selected image
    are the same; the selected image is one that a read of a file of at
    most 10 MB delivered; and every POST /disease/detect that went out
    carries a non-empty disease type and such an image. This holds
    whenever the reads complete, also after a reset or a removal in
    between: no file over the limit reaches the server through the page. *)
Theorem posted_images_are_within_the_limit (events : list Event) :
  let st := run events initial in
  imagePreview st = selectedImage st /\
  (forall image, selectedImage st = Some image ->
     readFromAdmittedFile (effects st) image) /\
  (forall body, In (PostDetect body) (effects st) ->
     truthy (disease_type body) = true /\
     exists image,
       image_base64 body = Some image /\ truthy image = true /\
       readFromAdmittedFile (effects st) image).
Proof.
  intros st. subst st.
  assert (H : pageInvariant (run events initial)).
  { assert (H0 : pageInvariant initial).
    { unfold pageInvariant. simpl.
      split; [reflexivity|]. split; [discriminate|].
      split; [intros body [] | split; [intros file [] | reflexivity]]. }
    revert H0. generalize initial. unfold run.
    induction events as [|e events IH]; intros s0 H0; simpl; [exact H0|].
    apply IH. now apply pageInvariant_step. }
  destruct H as [H1 [H2 [H3 _]]].
  split; [exact H1|]. split; [exact H2 | exact H3].
Qed.

Lemma posted_images_are_within_the_limit_witness :
  let big := mkFile "scan.png" 10485761 (Some "data:image/png;base64,AAAA") in
  let ok := mkFile "nail.jpg" 2048 (Some "data:image/jpeg;base64,BBBB") in
  let st := run [ ChooseModel "nail"; PickFiles [big]; ClickAnalyze (DetectFailed None);
                  PickFiles [ok]; ClickReset; ChooseModel "nail"; ReadDone 1;
                  ClickAnalyze (DetectFailed None) ] initial in
  detectRequests (effects st) =
    [ mkDetectBody "nail" (Some "data:image/jpeg;base64,BBBB") None ] /\
  readFromAdmittedFile (effects st) "data:image/jpeg;base64,BBBB".
Proof.
  split; [reflexivity|].
  exact (proj1 (proj2 (posted_images_are_within_the_limit
           [ ChooseModel "nail";
             PickFiles [mkFile "scan.png" 10485761 (Some "data:image/png;base64,AAAA")];
             ClickAnalyze (DetectFailed None);
             PickFiles [mkFile "nail.jpg" 2048 (Some "data:image/jpeg;base64,BBBB")];
             ClickReset; ChooseModel "nail"; ReadDone 1;
             ClickAnalyze (DetectFailed None) ]))
           "data:image/jpeg;base64,BBBB" eq_refl).
Defined.

(** X13. A click on the enabled Analyze button replaces whatever results
    were on screen: by the data of the answer when the request succeeds,
    and by nothing when it is rejected, in which case the error text is
    the detail of the answer or, without a detail, the fixed text; the
    button is enabled again afterwards. An earlier diagnosis does not
    survive a failed analysis. *)
Theorem analysis_replaces_results (reply : DetectReply) (st : State) :
  analyzeDisabled st = false ->
  let st' := handleDetection reply st in
  results st' =
    match reply with
    | DetectOk data => Some data
    | DetectFailed _ => None
    end /\
  effects st' =
    effects st ++
    [ PostDetect (mkDetectBody (selectedModel st) (selectedImage st)
                               (normalizedSymptoms (symptoms st)));
      match reply with
      | DetectOk _ => ToastSuccess "Analysis completed successfully!"
      | DetectFailed detail =>
          ToastError (orElse detail "Analysis failed. Please try again.")
      end ] /\
  loading st' = false /\
  selectedModel st' = selectedModel st /\
  selectedImage st' = selectedImage st /\
  analyzeDisabled st' = false.
Proof.
  intros Hd st'. subst st'. pose proof Hd as Hd'. unfold analyzeDisabled in Hd.
  apply orb_false_iff in Hd as [Hd Hi]. apply orb_false_iff in Hd as [_ Hm].
  apply negb_false_iff in Hm, Hi.
  unfold handleDetection. rewrite Hm, Hi. simpl.
  destruct reply; simpl; rewrite <- app_assoc; repeat split;
    unfold analyzeDisabled; simpl; now rewrite Hm, Hi.
Qed.

Lemma analysis_replaces_results_witness :
  let shown := mkResults "Eczema" None None in
  let st := mkState "skin" (Some "data:image/png;base64,AAAA")
                    (Some "data:image/png;base64,AAAA") "" false (Some shown) [] in
  results (handleDetection (DetectFailed None) st) = None.
Proof.
  exact (proj1 (analysis_replaces_results (DetectFailed None)
           (mkState "skin" (Some "data:image/png;base64,AAAA")
                    (Some "data:image/png;base64,AAAA") "" false
                    (Some (mkResults "Eczema" None None)) [])
           eq_refl)).
Defined.

End ImageDetectionFacts.

(** ** Authentication state *)
Module AuthContextFacts.
Import JsString JsStringFacts AuthContext.

Lemma requests_sent (l : list (string * string)) (w : World) :
  sent (requests l w) =
    sent w ++ map (fun r => mkApiRequest (fst r) (snd r) (defaultHeaders w)) l /\
  defaultHeaders (requests l w) = defaultHeaders w /\
  localStorage (requests l w) = localStorage w /\
  user (requests l w) = user w.
Proof.
  revert w. induction l as [|r l IH]; intros w; simpl.
  - now rewrite app_nil_r.
  - destruct (IH (request (fst r) (snd r) w)) as [Hs [Hh [Hl Hu]]].
    unfold requests in *. rewrite Hs, Hh, Hl, Hu. simpl.
    now rewrite <- app_assoc.
Qed.

(** What a successful [settle] leaves behind. *)
Lemma settle_ok (greeting fallback token : string) (u : User) (w : World) :
  let w' := fst (settle greeting fallback (AuthOk token (Some u)) w) in
  localStorage w' !! "medix_token" = Some token /\
  defaultHeaders w' !! "Authorization" = Some ("Bearer " +:+ token) /\
  user w' = Some u /\
  snd (settle greeting fallback (AuthOk token (Some u)) w) = mkOutcome true None.
Proof.
  simpl. repeat split; apply lookup_insert_eq.
Qed.

(** What a rejected request leaves behind. *)
Lemma settle_failed (greeting fallback : string) (detail : option string)
    (w : World) :
  let w' := fst (settle greeting fallback (AuthFailed detail) w) in
  localStorage w' = localStorage w /\
  defaultHeaders w' = defaultHeaders w /\
  user w' = user w /\
  loading w' = loading w /\
  sent w' = sent w /\
  snd (settle greeting fallback (AuthFailed detail) w) =
    mkOutcome false (Some (orElse detail fallback)).
Proof. simpl. now repeat split. Qed.

Lemma laterRequestsCarry_of_header (w : World) (value : string) :
  defaultHeaders w !! "Authorization" = Some value ->
  laterRequestsCarry w value.
Proof.
  intros Hh l r Hin.
  destruct (requests_sent l w) as [Hs _]. rewrite Hs in Hin.
  rewrite skipn_app, skipn_all, Nat.sub_diag in Hin. simpl in Hin.
  apply in_map_iff in Hin as [x [<- _]]. exact Hh.
Qed.

(** C7. After a successful login, and after a successful signup, the
    access token is in [localStorage] under medix_token, the default
    Authorization header is 'Bearer ' followed by the token, the user is
    set, and every request the application makes from then on carries that
    header; [logout] removes the stored token and the header and sets the
    user to null; and a failed /auth/me check removes the stored token and
    the header. *)
Theorem bearer_token_installed_and_removed :
  (forall email password token u w,
     let w' := fst (login email password (AuthOk token (Some u)) w) in
     localStorage w' !! "medix_token" = Some token /\
     defaultHeaders w' !! "Authorization" = Some ("Bearer " +:+ token) /\
     user w' = Some u /\
     snd (login email password (AuthOk token (Some u)) w) = mkOutcome true None /\
     laterRequestsCarry w' ("Bearer " +:+ token)) /\
  (forall userData token u w,
     let w' := fst (signup userData (AuthOk token (Some u)) w) in
     localStorage w' !! "medix_token" = Some token /\
     defaultHeaders w' !! "Authorization" = Some ("Bearer " +:+ token) /\
     user w' = Some u /\
     snd (signup userData (AuthOk token (Some u)) w) = mkOutcome true None /\
     laterRequestsCarry w' ("Bearer " +:+ token)) /\
  (forall w,
     localStorage (logout w) !! "medix_token" = None /\
     defaultHeaders (logout w) !! "Authorization" = None /\
     user (logout w) = None) /\
  (forall w token,
     localStorage w !! "medix_token" = Some token -> token <> "" ->
     let w' := checkAuthStatus MeFailed w in
     localStorage w' !! "medix_token" = None /\
     defaultHeaders w' !! "Authorization" = None /\
     loading w' = false /\
     exists before,
       sent w' = before ++ [mkApiRequest "GET" "/auth/me"
                              (<["Authorization" := "Bearer " +:+ token]> (defaultHeaders w))]).
Proof.
  split; [|split; [|split]].
  - intros email password token u w w'. subst w'. unfold login.
    destruct (settle_ok "Welcome back, " "Login failed" token u
                (request "POST" "/auth/login" w)) as [H1 [H2 [H3 H4]]].
    repeat split; try assumption.
    now apply laterRequestsCarry_of_header.
  - intros userData token u w w'. subst w'. unfold signup.
    match goal with
    | |- context [request "POST" ?e w] =>
        destruct (settle_ok "Welcome to MediX, " "Signup failed" token u
                    (request "POST" e w)) as [H1 [H2 [H3 H4]]]
    end.
    repeat split; try assumption.
    now apply laterRequestsCarry_of_header.
  - intros w. unfold logout. simpl. repeat split; apply lookup_delete_eq.
  - intros w token Hst Hne w'. subst w'. unfold checkAuthStatus.
    rewrite Hst. apply truthy_not_empty in Hne. rewrite Hne. simpl.
    repeat split; try apply lookup_delete_eq.
    now exists (sent w).
Qed.

(** A login that stores the token t-1, followed by two requests. *)
Lemma bearer_token_installed_and_removed_witness :
  let asha := mkUser "Asha" "patient" "Pune" in
  let w := fst (login "asha@example.org" "secret" (AuthOk "t-1" (Some asha))
                      (initial ∅)) in
  headers <$> sent (requests [("GET", "/disease/history"); ("POST", "/chat/start")] w) =
    [ ∅; {["Authorization" := "Bearer t-1"]}; {["Authorization" := "Bearer t-1"]} ] /\
  laterRequestsCarry w "Bearer t-1" /\
  localStorage (checkAuthStatus MeFailed w) !! "medix_token" = None.
Proof.
  split; [reflexivity|]. split.
  - exact (proj2 (proj2 (proj2 (proj2
      (proj1 bearer_token_installed_and_removed "asha@example.org" "secret" "t-1"
             (mkUser "Asha" "patient" "Pune") (initial ∅)))))).
  - refine (proj1 (proj2 (proj2 (proj2 bearer_token_installed_and_removed))
                    _ "t-1" _ _)).
    + apply lookup_insert_eq.
    + discriminate.
Defined.

(** C8. A rejected login or signup request resolves to
    [{success: false, error: message}], where the message is the detail of
    the server's answer when there is a (non-empty) one and otherwise the
    fixed text 'Login failed', respectively 'Signup failed'; the stored
    token, the Authorization header and the user are what they were. *)
Theorem failed_auth_leaves_state
    (email password : string) (userData : User) (detail : option string)
    (w : World) :
  let failedLogin := login email password (AuthFailed detail) w in
  let failedSignup := signup userData (AuthFailed detail) w in
  snd failedLogin = mkOutcome false (Some (orElse detail "Login failed")) /\
  snd failedSignup = mkOutcome false (Some (orElse detail "Signup failed")) /\
  (forall d fallback, detail = Some d -> d <> "" -> orElse detail fallback = d) /\
  (forall fallback, detail = None -> orElse detail fallback = fallback) /\
  localStorage (fst failedLogin) = localStorage w /\
  defaultHeaders (fst failedLogin) = defaultHeaders w /\
  user (fst failedLogin) = user w /\
  localStorage (fst failedSignup) = localStorage w /\
  defaultHeaders (fst failedSignup) = defaultHeaders w /\
  user (fst failedSignup) = user w.
Proof.
  cbv zeta. unfold login, signup, settle. simpl.
  repeat split.
  - intros d fallback -> Hd. simpl. apply truthy_not_empty in Hd. now rewrite Hd.
  - now intros fallback ->.
Qed.

(** The messages of a rejected login. *)
Example failed_login_messages :
  snd (login "a@b.c" "x" (AuthFailed (Some "Incorrect email or password")) (initial ∅))
    = mkOutcome false (Some "Incorrect email or password") /\
  snd (login "a@b.c" "x" (AuthFailed None) (initial ∅))
    = mkOutcome false (Some "Login failed") /\
  snd (login "a@b.c" "x" (AuthFailed (Some "")) (initial ∅))
    = mkOutcome false (Some "Login failed").
Proof. repeat split; reflexivity. Qed.

(** An answered login whose data has no [user]: the failure is reported
    after the token has been stored and the header installed. *)
Example login_without_user_in_answer :
  let r := login "a@b.c" "x" (AuthOk "t-9" None) (initial ∅) in
  snd r = mkOutcome false (Some "Login failed") /\
  localStorage (fst r) !! "medix_token" = Some "t-9" /\
  defaultHeaders (fst r) !! "Authorization" = Some "Bearer t-9" /\
  user (fst r) = None.
Proof. repeat split; reflexivity. Qed.

(** A page load with a stored token that the server accepts. *)
Example checkAuthStatus_accepted :
  let asha := mkUser "Asha" "patient" "Pune" in
  let w := checkAuthStatus (MeOk (Some asha)) (initial {["medix_token" := "t-1"]}) in
  user w = Some asha /\ loading w = false /\
  sent w = [ mkApiRequest "GET" "/auth/me" {["Authorization" := "Bearer t-1"]} ].
Proof. repeat split; reflexivity. Qed.

(** *** The page load and the visit as a whole *)

(** X14. The check on page load: without a stored token, or with an
    empty one, nothing is sent and nothing changes but [loading]; with a
    token exactly one GET /auth/me goes out, carrying the bearer header
    of the stored token, and when it is answered the user is what the
    answer holds while token and header stay. In each case [loading] is
    off afterwards. *)
Theorem check_on_page_load (me : MeReply) (w : World) :
  let w' := checkAuthStatus me w in
  loading w' = false /\
  (JsString.truthyOpt (localStorage w !! "medix_token") = false ->
     sent w' = sent w /\ user w' = user w /\
     localStorage w' = localStorage w /\ defaultHeaders w' = defaultHeaders w) /\
  (forall token,
     localStorage w !! "medix_token" = Some token -> token <> "" ->
     sent w' =
       sent w ++ [mkApiRequest "GET" "/auth/me"
                    (<["Authorization" := bearer token]> (defaultHeaders w))] /\
     forall data, me = MeOk data ->
       user w' = data /\
       localStorage w' !! "medix_token" = Some token /\
       defaultHeaders w' !! "Authorization" = Some (bearer token)).
Proof.
  intros w'. subst w'. unfold checkAuthStatus. split; [|split].
  - destruct (localStorage w !! "medix_token") as [t|]; [|reflexivity].
    destruct (truthy t); [|reflexivity]. now destruct me.
  - intros H. destruct (localStorage w !! "medix_token") as [t|]; simpl in H.
    + rewrite H. now repeat split.
    + now repeat split.
  - intros token Hst Hne. rewrite Hst.
    apply truthy_not_empty in Hne. rewrite Hne.
    split; [now destruct me|].
    intros data ->. simpl. repeat split; [exact Hst|].
    apply lookup_insert_eq.
Qed.

Lemma check_on_page_load_witness :
  let asha := mkUser "Asha" "patient" "Pune" in
  let w := checkAuthStatus (MeOk (Some asha)) (initial {["medix_token" := "t-1"]}) in
  sent w = [ mkApiRequest "GET" "/auth/me" {["Authorization" := "Bearer t-1"]} ] /\
  user w = Some asha.
Proof.
  pose proof (proj2 (proj2 (check_on_page_load
      (MeOk (Some (mkUser "Asha" "patient" "Pune")))
      (initial {["medix_token" := "t-1"]}))) "t-1" eq_refl ltac:(discriminate))
    as [H1 H2].
  split; [exact H1|].
  exact (proj1 (H2 _ eq_refl)).
Defined.

Lemma userHasToken_settle (greeting fallback : string) (reply : AuthReply)
    (w : World) :
  userHasToken w -> userHasToken (fst (settle greeting fallback reply w)).
Proof.
  intros H. destruct reply as [token [u|]|detail]; simpl.
  - intros u' _. exists token. split; apply lookup_insert_eq.
  - intros u' C. discriminate.
  - exact H.
Qed.

Lemma userHasToken_perform (w : World) (op : Op) :
  userHasToken w -> userHasToken (perform w op).
Proof.
  intros H. destruct op as [email password reply|userData reply| |method url]; simpl.
  - unfold login. now apply userHasToken_settle.
  - unfold signup. now apply userHasToken_settle.
  - intros u C. discriminate.
  - exact H.
Qed.

Lemma userHasToken_checkAuthStatus (stored : gmap string string) (me : MeReply) :
  userHasToken (checkAuthStatus me (initial stored)).
Proof.
  unfold checkAuthStatus, userHasToken. simpl.
  destruct (stored !! "medix_token") as [t|] eqn:E; [|discriminate].
  destruct (truthy t); [|discriminate].
  destruct me as [data|]; simpl; [|discriminate].
  intros u _. exists t. split; [exact E | apply lookup_insert_eq].
Qed.

(** X15. Throughout a visit (the check on page load, then any logins,
    signups, logouts and requests in any order, whatever the server
    answers): whenever a user is logged in, a token is stored, the default
    Authorization header is the bearer header of that very token, and
    every request made from then on carries it. *)
Theorem logged_in_user_has_bearer_token
    (stored : gmap string string) (me : MeReply) (ops : list Op) (u : User) :
  user (visit stored me ops) = Some u ->
  exists token,
    localStorage (visit stored me ops) !! "medix_token" = Some token /\
    defaultHeaders (visit stored me ops) !! "Authorization" = Some (bearer token) /\
    laterRequestsCarry (visit stored me ops) (bearer token).
Proof.
  assert (H : userHasToken (visit stored me ops)).
  { unfold visit. generalize (userHasToken_checkAuthStatus stored me).
    generalize (checkAuthStatus me (initial stored)).
    induction ops as [|op ops IH]; intros w Hw; simpl; [exact Hw|].
    apply IH. now apply userHasToken_perform. }
  intros Hu. destruct (H u Hu) as [token [H1 H2]].
  exists token. split; [exact H1|]. split; [exact H2|].
  now apply laterRequestsCarry_of_header.
Qed.

Lemma logged_in_user_has_bearer_token_witness :
  let asha := mkUser "Asha" "patient" "Pune" in
  let w := visit {["medix_token" := "old"]} MeFailed
             [ Login "a@b.c" "x" (AuthFailed None);
               Login "a@b.c" "y" (AuthOk "t-2" (Some asha));
               Request "GET" "/disease/history" ] in
  exists token,
    localStorage w !! "medix_token" = Some token /\
    defaultHeaders w !! "Authorization" = Some (bearer token) /\
    laterRequestsCarry w (bearer token).
Proof.
  exact (logged_in_user_has_bearer_token {["medix_token" := "old"]} MeFailed
           [ Login "a@b.c" "x" (AuthFailed None);
             Login "a@b.c" "y" (AuthOk "t-2" (Some (mkUser "Asha" "patient" "Pune")));
             Request "GET" "/disease/history" ]
           (mkUser "Asha" "patient" "Pune") eq_refl).
Defined.

End AuthContextFacts.

(** ** Route guards *)
Module AppFacts.
Import App.

Lemma matchRoute_In (matchPath : Matcher) (pathname : string)
    (table : list (string * RouteElement)) (e : RouteElement) :
  matchRoute matchPath pathname table = Some e ->
  exists p, In (p, e) table /\ matchPath p pathname = true.
Proof.
  induction table as [|[p e'] table IH]; simpl; [discriminate|].
  destruct (matchPath p pathname) eqn:E.
  - intros [= ->]. exists p. split; [now left | exact E].
  - intros H. destruct (IH H) as [q [Hq Hm]]. exists q. split; [now right | exact Hm].
Qed.

Lemma ProtectedRoute_Show (user : option User) (loading : bool) (children p : Page) :
  ProtectedRoute user loading children = Content p ->
  p = children /\ loading = false /\ user <> None.
Proof.
  unfold ProtectedRoute. destruct loading; [discriminate|].
  destruct user; [|discriminate]. intros [= ->]. now repeat split.
Qed.

Lemma PublicRoute_Show (user : option User) (loading : bool) (children p : Page) :
  PublicRoute user loading children = Content p ->
  p = children /\ loading = false /\ user = None.
Proof.
  unfold PublicRoute. destruct loading; [discriminate|].
  destruct user; [discriminate|]. intros [= ->]. now repeat split.
Qed.

(** C9. Once loading is over, a [ProtectedRoute] shows its child exactly
    when there is a user and otherwise navigates to /login, and a
    [PublicRoute] shows its child exactly when there is no user and
    otherwise navigates to /dashboard; while loading both render the
    spinner and nothing else. At every location, however the router
    matches paths, [AppContent] shows a page from behind a
    [ProtectedRoute] only with loading over and a user present, and the
    header only with a user present. *)
Theorem route_guards :
  (forall user children,
      (ProtectedRoute user false children = Content children <-> user <> None) /\
      (user = None -> ProtectedRoute user false children = Navigate "/login")) /\
  (forall user children,
      (PublicRoute user false children = Content children <-> user = None) /\
      (user <> None -> PublicRoute user false children = Navigate "/dashboard")) /\
  (forall user children,
      ProtectedRoute user true children = Spinner /\
      PublicRoute user true children = Spinner) /\
  (forall matchPath user loading path page,
      snd (AppContent matchPath user loading path) = Some (Content page) ->
      authenticatedPage page = true ->
      user <> None /\ loading = false) /\
  (forall matchPath user loading path,
      fst (AppContent matchPath user loading path) = true <-> user <> None).
Proof.
  split; [|split; [|split; [|split]]].
  - intros user children. split; [split|].
    + intros H. now apply ProtectedRoute_Show in H.
    + destruct user; [reflexivity | congruence].
    + now intros ->.
  - intros user children. split; [split|].
    + intros H. now apply PublicRoute_Show in H.
    + now intros ->.
    + destruct user; [reflexivity | congruence].
  - intros user children. split; reflexivity.
  - intros matchPath user loading path page Hshow Hauth.
    unfold AppContent in Hshow. cbn [snd] in Hshow.
    destruct (matchRoute matchPath path (routes user)) as [e|] eqn:Em;
      cbn [option_map] in Hshow; [|discriminate].
    apply matchRoute_In in Em as [p [Em _]]. injection Hshow as Hshow.
    unfold routes in Em. simpl in Em.
    repeat (destruct Em as [[= <- <-]|Em]);
      try (simpl in Hshow; apply PublicRoute_Show in Hshow as [-> _];
           discriminate);
      try (simpl in Hshow; now apply ProtectedRoute_Show in Hshow as [_ [? ?]]);
      try discriminate.
    destruct Em.
  - intros matchPath user loading path. simpl. destruct user; split; congruence.
Qed.

(** The dashboard route for a patient, a doctor and a visitor. *)
Example dashboard_route :
  snd (AppContent exactMatch (Some (mkUser "Asha" "patient" "Pune")) false "/dashboard")
    = Some (Content PatientDashboard) /\
  snd (AppContent exactMatch (Some (mkUser "Dr. Rao" "doctor" "Pune")) false "/dashboard")
    = Some (Content DoctorDashboard) /\
  snd (AppContent exactMatch None false "/dashboard") = Some (Navigate "/login") /\
  snd (AppContent exactMatch None true "/dashboard") = Some Spinner /\
  snd (AppContent exactMatch (Some (mkUser "Asha" "patient" "Pune")) false "/login")
    = Some (Navigate "/dashboard").
Proof. repeat split; reflexivity. Qed.

(** Under a matcher that ignores case and slashes at the end, locations
    other than the paths of the table lead to the same routes. *)
Example loose_locations :
  snd (AppContent looseMatch None false "/LOGIN") = Some (Content Login) /\
  snd (AppContent looseMatch None false "/login/") = Some (Content Login) /\
  snd (AppContent looseMatch (Some (mkUser "Asha" "patient" "Pune")) false "/Dashboard")
    = Some (Content PatientDashboard) /\
  snd (AppContent looseMatch (Some (mkUser "Dr. Rao" "doctor" "Pune")) false "/dashboard/")
    = Some (Content DoctorDashboard) /\
  snd (AppContent looseMatch None false "/nowhere") = None.
Proof. repeat split; reflexivity. Qed.

Lemma route_guards_witness :
  let asha := Some (mkUser "Asha" "patient" "Pune") in
  snd (AppContent looseMatch asha false "/Chat/") = Some (Content SymptomChat) /\
  asha <> None /\ false = false.
Proof.
  split; [reflexivity|].
  exact (proj1 (proj2 (proj2 (proj2 route_guards))) looseMatch
           (Some (mkUser "Asha" "patient" "Pune")) false "/Chat/" SymptomChat
           eq_refl eq_refl).
Defined.

(** *** Navigation *)

(** The route taken at a location, path by path. *)
Lemma matchRoute_known (matchPath : Matcher) (user : option User)
    (pathname : string) :
  match matchRoute matchPath pathname (routes user) with
  | Some e =>
      exists p,
        In p knownPaths /\ matchPath p pathname = true /\
        (e = Public HomePage /\ p = "/" \/
         e = Public Login /\ p = "/login" \/
         e = Public Signup /\ p = "/signup" \/
         e = Protected (dashboardOf user) /\ p = "/dashboard" \/
         e = Protected ImageDetection /\ p = "/detect" \/
         e = Protected SymptomChat /\ p = "/chat" \/
         e = Protected AppointmentList /\ p = "/appointments" \/
         e = Protected BookAppointment /\ p = "/book-appointment")
  | None => forall p, In p knownPaths -> matchPath p pathname = false
  end.
Proof.
  unfold routes, matchRoute, knownPaths.
  repeat match goal with
         | |- context [if matchPath ?p pathname then _ else _] =>
             let E := fresh "E" in
             destruct (matchPath p pathname) eqn:E;
             [ exists p; split; [simpl; tauto | split; [exact E | tauto]] | ]
         end.
  intros p Hp. simpl in Hp.
  repeat (destruct Hp as [<- | Hp]; [assumption |]).
  destruct Hp.
Qed.

(** Under a static matcher the route taken at a location is the route
    taken at the path of the table that matches it. *)
Lemma matchRoute_static (matchPath : Matcher) (user : option User)
    (p pathname : string) :
  staticMatcher matchPath ->
  In p knownPaths -> matchPath p pathname = true ->
  matchRoute matchPath pathname (routes user)
  = matchRoute exactMatch p (routes user).
Proof.
  intros [_ Hex] Hp Hm.
  pose proof (matchRoute_known matchPath user pathname) as H.
  destruct (matchRoute matchPath pathname (routes user)) as [e|].
  - destruct H as [q [Hq [Hmq Hcases]]].
    assert (q = p) by (apply (Hex q p pathname); assumption). subst q.
    repeat (destruct Hcases as [[-> ->] | Hcases]; [reflexivity |]).
    destruct Hcases as [-> ->]. reflexivity.
  - rewrite (H p Hp) in Hm. discriminate.
Qed.

Lemma AppContent_static (matchPath : Matcher) (user : option User)
    (loading : bool) (p pathname : string) :
  staticMatcher matchPath ->
  In p knownPaths -> matchPath p pathname = true ->
  AppContent matchPath user loading pathname = AppContent exactMatch user loading p.
Proof.
  intros Hs Hp Hm. unfold AppContent.
  now rewrite (matchRoute_static matchPath user p pathname Hs Hp Hm).
Qed.

Lemma exactMatch_static : staticMatcher exactMatch.
Proof.
  split.
  - intros p _. unfold exactMatch. now apply bool_decide_eq_true.
  - intros p q pathname _ _ Hp Hq. unfold exactMatch in *.
    apply bool_decide_eq_true in Hp, Hq. congruence.
Qed.

Lemma looseMatch_static : staticMatcher looseMatch.
Proof.
  split.
  - intros p _. unfold looseMatch. now apply bool_decide_eq_true.
  - intros p q pathname Hp Hq Hmp Hmq. unfold looseMatch in *.
    apply bool_decide_eq_true in Hmp, Hmq. rewrite Hmp in Hmq.
    unfold knownPaths in Hp, Hq. simpl in Hp, Hq.
    repeat (destruct Hp as [<- | Hp];
            [ repeat (destruct Hq as [<- | Hq];
                      [first [reflexivity | vm_compute in Hmq; discriminate Hmq] |]);
              destruct Hq |]).
    destruct Hp.
Qed.

(** X16. The second route for "/" (the "default redirect" to /dashboard)
    is shadowed by the first one: however the router matches paths, it is
    never the route taken, at any location and for any user. And
    something of the page is rendered exactly at the locations that a
    path of the table matches. *)
Theorem default_redirect_never_matches (matchPath : Matcher)
    (user : option User) (loading : bool) (pathname : string) :
  matchRoute matchPath pathname (routes user) <> Some (Forward "/dashboard") /\
  ((exists p, In p knownPaths /\ matchPath p pathname = true) <->
   snd (AppContent matchPath user loading pathname) <> None).
Proof.
  pose proof (matchRoute_known matchPath user pathname) as H.
  unfold AppContent. cbn [snd].
  destruct (matchRoute matchPath pathname (routes user)) as [e|]; cbn [option_map].
  - destruct H as [p [Hin [Hm Hcases]]]. split.
    + intros [= ->].
      repeat (destruct Hcases as [[C _]|Hcases]; [discriminate|]).
      destruct Hcases as [C _]. discriminate.
    + split; [discriminate | intros _; now exists p].
  - split; [discriminate|]. split; [|congruence].
    intros [p [Hin Hm]]. rewrite (H p Hin) in Hm. discriminate.
Qed.

(** Settling under equality of strings. *)
Lemma settle_exact (user : option User) (p : string) :
  In p knownPaths ->
  exists page,
    settleAt 1 exactMatch user false p = Some (Content page) /\
    (user = None /\ In p protectedPaths -> page = Login) /\
    (user <> None /\ In p publicPaths -> page = dashboardOf user).
Proof.
  intros Hp. unfold knownPaths in Hp. simpl in Hp.
  destruct user as [u|];
    repeat (destruct Hp as [<- | Hp];
            [ unfold dashboardOf; cbn;
              try destruct (bool_decide (user_type u = "patient"));
              eexists; (split; [reflexivity|]);
              (split; intros [Hu Hq]; try congruence;
               unfold protectedPaths, publicPaths in Hq; simpl in Hq;
               try reflexivity; intuition discriminate) |]);
    destruct Hp.
Qed.

Lemma settle_static (matchPath : Matcher) (user : option User)
    (p pathname : string) :
  staticMatcher matchPath ->
  In p knownPaths -> matchPath p pathname = true ->
  settleAt 1 matchPath user false pathname = settleAt 1 exactMatch user false p.
Proof.
  intros Hs Hp Hm. cbn [settleAt].
  rewrite (AppContent_static matchPath user false p pathname Hs Hp Hm).
  destruct (snd (AppContent exactMatch user false p)) as [[| to | page]|] eqn:E;
    try reflexivity.
  assert (Hto : In to knownPaths).
  { unfold AppContent in E. cbn [snd] in E.
    destruct (matchRoute exactMatch p (routes user)) as [e|] eqn:Em;
      cbn [option_map] in E; [|discriminate].
    apply matchRoute_In in Em as [q [Em _]]. injection E as E.
    unfold routes in Em. simpl in Em. unfold knownPaths.
    repeat (destruct Em as [[= <- <-]|Em];
            [ cbn in E; destruct user; try discriminate E;
              injection E as <-; simpl; tauto |]).
    destruct Em. }
  rewrite (AppContent_static matchPath user false to to Hs Hto
             (proj1 Hs to Hto)).
  reflexivity.
Qed.

(** X17. With loading over, every location settles after at most one
    [<Navigate>]: what is finally on screen is a page (or nothing, at a
    location that no path matches), never a second redirect. A visitor
    who opens a protected location lands on the login page; a logged-in
    user who opens a location of "/", /login or /signup lands on the
    dashboard of their type. This holds under every static matcher. *)
Theorem navigation_settles_in_one_hop (matchPath : Matcher)
    (user : option User) (pathname : string) :
  staticMatcher matchPath ->
  (forall to, settleAt 1 matchPath user false pathname <> Some (Navigate to)) /\
  settleAt 1 matchPath user false pathname <> Some Spinner /\
  (user = None ->
   (exists p, In p protectedPaths /\ matchPath p pathname = true) ->
     settleAt 1 matchPath user false pathname = Some (Content Login)) /\
  (user <> None ->
   (exists p, In p publicPaths /\ matchPath p pathname = true) ->
     settleAt 1 matchPath user false pathname = Some (Content (dashboardOf user))).
Proof.
  intros Hs.
  assert (Hsub1 : forall p, In p protectedPaths -> In p knownPaths)
    by (unfold protectedPaths, knownPaths; simpl; tauto).
  assert (Hsub2 : forall p, In p publicPaths -> In p knownPaths)
    by (unfold publicPaths, knownPaths; simpl; tauto).
  pose proof (matchRoute_known matchPath user pathname) as H.
  destruct (matchRoute matchPath pathname (routes user)) as [e|] eqn:Em.
  - destruct H as [p [Hp [Hm _]]].
    rewrite (settle_static matchPath user p pathname Hs Hp Hm).
    destruct (settle_exact user p Hp) as [page [Hpage [Hv Hu]]].
    rewrite Hpage. split; [discriminate|]. split; [discriminate|]. split.
    + intros Hn [q [Hq Hmq]].
      assert (q = p) by (apply (proj2 Hs q p pathname); auto). subst q.
      now rewrite Hv.
    + intros Hn [q [Hq Hmq]].
      assert (q = p) by (apply (proj2 Hs q p pathname); auto). subst q.
      now rewrite Hu.
  - assert (Hnone : settleAt 1 matchPath user false pathname = None).
    { cbn [settleAt]. unfold AppContent. cbn [snd]. now rewrite Em. }
    rewrite Hnone. split; [discriminate|]. split; [discriminate|]. split.
    + intros _ [q [Hq Hmq]]. rewrite (H q (Hsub1 q Hq)) in Hmq. discriminate.
    + intros _ [q [Hq Hmq]]. rewrite (H q (Hsub2 q Hq)) in Hmq. discriminate.
Qed.

Lemma navigation_settles_in_one_hop_witness :
  settleAt 1 looseMatch None false "/Book-Appointment/" = Some (Content Login) /\
  settleAt 1 looseMatch (Some (mkUser "Dr. Rao" "doctor" "Pune")) false "/LOGIN"
    = Some (Content DoctorDashboard).
Proof.
  assert (H1 : exists p, In p protectedPaths /\
                         looseMatch p "/Book-Appointment/" = true).
  { exists "/book-appointment". split; [simpl; tauto | reflexivity]. }
  assert (H2 : exists p, In p publicPaths /\ looseMatch p "/LOGIN" = true).
  { exists "/login". split; [simpl; tauto | reflexivity]. }
  split.
  - exact (proj1 (proj2 (proj2 (navigation_settles_in_one_hop looseMatch None
             "/Book-Appointment/" looseMatch_static))) eq_refl H1).
  - exact (proj2 (proj2 (proj2 (navigation_settles_in_one_hop looseMatch
             (Some (mkUser "Dr. Rao" "doctor" "Pune")) "/LOGIN" looseMatch_static)))
             ltac:(discriminate) H2).
Defined.

(** X18. Under a static matcher every link of the header leads a
    logged-in user to a page that is shown to them (no link bounces), and
    the patient links are offered exactly when the dashboard shown is the
    patient's. The routes look at the presence of a user only, not at the
    type: however the router matches, every location that the path
    /dashboard does not match shows the same to a doctor as to a patient,
    so a doctor who opens /detect or /chat by hand sees pages the header
    does not offer. *)
Theorem header_links_and_roles (matchPath : Matcher) (u : User) :
  staticMatcher matchPath ->
  (forall name href,
      In (name, href) (Header.navigation (Some u)) ->
      exists page,
        snd (AppContent matchPath (Some u) false href) = Some (Content page) /\
        authenticatedPage page = true) /\
  (In ("AI Detection", "/detect") (Header.navigation (Some u)) <->
   snd (AppContent matchPath (Some u) false "/dashboard")
     = Some (Content PatientDashboard)) /\
  (forall u' loading pathname,
      matchPath "/dashboard" pathname = false ->
      snd (AppContent matchPath (Some u) loading pathname) =
      snd (AppContent matchPath (Some u') loading pathname)) /\
  snd (AppContent matchPath (Some u) false "/detect") = Some (Content ImageDetection) /\
  snd (AppContent matchPath (Some u) false "/chat") = Some (Content SymptomChat).
Proof.
  intros Hs.
  assert (Hat : forall p, In p knownPaths ->
            AppContent matchPath (Some u) false p
            = AppContent exactMatch (Some u) false p).
  { intros p Hp. apply AppContent_static; [exact Hs | exact Hp |].
    now apply (proj1 Hs). }
  split; [|split; [|split; [|split]]].
  - intros name href Hin. unfold Header.navigation, userTypeIs in Hin.
    destruct (bool_decide (user_type u = "patient")) eqn:E; simpl in Hin;
      repeat (destruct Hin as [[= <- <-]|Hin];
              [rewrite Hat by (unfold knownPaths; simpl; tauto);
               unfold AppContent, userTypeIs; cbn; try rewrite E;
               eexists; split; reflexivity|]);
      destruct Hin.
  - rewrite Hat by (unfold knownPaths; simpl; tauto).
    unfold Header.navigation, AppContent, userTypeIs. cbn.
    destruct (bool_decide (user_type u = "patient")); simpl; split;
      try discriminate; try tauto.
    intros H. repeat (destruct H as [H|H]; [discriminate|]). destruct H.
  - intros u' loading pathname Hne.
    unfold AppContent, routes, matchRoute. cbn [snd].
    repeat match goal with
           | |- context [if matchPath ?p pathname then _ else _] =>
               let E := fresh "E" in
               destruct (matchPath p pathname) eqn:E;
               [ try reflexivity; try discriminate Hne | ]
           end.
    reflexivity.
  - rewrite Hat by (unfold knownPaths; simpl; tauto). reflexivity.
  - rewrite Hat by (unfold knownPaths; simpl; tauto). reflexivity.
Qed.

(** A doctor who types /Detect/ into the address bar. *)
Lemma header_links_and_roles_witness :
  let rao := mkUser "Dr. Rao" "doctor" "Pune" in
  ~ In ("AI Detection", "/detect") (Header.navigation (Some rao)) /\
  snd (AppContent looseMatch (Some rao) false "/detect")
    = Some (Content ImageDetection) /\
  snd (AppContent looseMatch (Some rao) false "/Detect/")
    = snd (AppContent looseMatch (Some (mkUser "Asha" "patient" "Pune")) false "/Detect/").
Proof.
  pose proof (header_links_and_roles looseMatch (mkUser "Dr. Rao" "doctor" "Pune")
                looseMatch_static) as [_ [_ [H3 [H4 _]]]].
  split.
  - simpl. intros H. repeat (destruct H as [H|H]; [discriminate|]). exact H.
  - split; [exact H4|].
    exact (H3 (mkUser "Asha" "patient" "Pune") false "/Detect/" eq_refl).
Defined.

End AppFacts.

(** ** The dashboards *)
Module DashboardFacts.

Lemma length_filter_le {A} (f : A -> bool) (l : list A) :
  (length (List.filter f l) <= length l)%nat.
Proof.
  induction l as [|x l IH]; simpl; [lia|].
  destruct (f x); simpl; lia.
Qed.

Lemma length_two_filters {A} (f g : A -> bool) (l : list A) :
  (forall x, f x = true -> g x = false) ->
  (length (List.filter f l) + length (List.filter g l) <= length l)%nat.
Proof.
  intros Hfg. induction l as [|x l IH]; simpl; [lia|].
  destruct (f x) eqn:E.
  - rewrite (Hfg x E). simpl. lia.
  - destruct (g x); simpl; lia.
Qed.

(** X19. The patient dashboard fills in all or nothing: when either of
    its two requests is rejected, the counters and the recent results
    stay what they were, whatever the other request returned. When both
    are answered, the number of detections is the length of the history,
    the recent results are its first five entries (all of it when there
    are fewer), the chat counter is 0, and the number of upcoming
    appointments is the number of cards the appointment list shows under
    "upcoming" for the same appointments at the same instant. In each
    case [loading] is off. *)
Theorem patient_dashboard_all_or_nothing
    (now : Z)
    (historyReply : option (option (list PatientDashboard.Detection)))
    (appointmentsReply : option (option (list AppointmentList.Appointment)))
    (st : PatientDashboard.State) :
  let st' := PatientDashboard.fetchDashboardData now historyReply appointmentsReply st in
  PatientDashboard.loading st' = false /\
  (historyReply = None \/ appointmentsReply = None ->
     PatientDashboard.stats st' = PatientDashboard.stats st /\
     PatientDashboard.recentResults st' = PatientDashboard.recentResults st) /\
  (forall historyData appointmentsData,
     historyReply = Some historyData -> appointmentsReply = Some appointmentsData ->
     let history := match historyData with Some l => l | None => [] end in
     let appointments := match appointmentsData with Some l => l | None => [] end in
     PatientDashboard.totalDetections (PatientDashboard.stats st') = length history /\
     PatientDashboard.chatSessions (PatientDashboard.stats st') = 0%nat /\
     PatientDashboard.recentResults st' = firstn 5 history /\
     length (PatientDashboard.recentResults st') = Nat.min 5 (length history) /\
     (forall r, In r (PatientDashboard.recentResults st') -> In r history) /\
     PatientDashboard.upcomingAppointments (PatientDashboard.stats st') =
       length (AppointmentList.sortedAppointments now
                 (AppointmentList.mkState appointments false "upcoming" [] []))).
Proof.
  intros st'. subst st'. unfold PatientDashboard.fetchDashboardData.
  split; [|split].
  - now destruct historyReply, appointmentsReply.
  - intros [->| ->]; [now split|]. now destruct historyReply.
  - intros historyData appointmentsData -> ->. simpl.
    split; [reflexivity|]. split; [reflexivity|]. split; [reflexivity|].
    split; [apply length_firstn|]. split.
    + intros r Hr.
      rewrite <- (firstn_skipn 5 (match historyData with Some l => l | None => [] end)).
      apply in_or_app. now left.
    + unfold AppointmentList.sortedAppointments, AppointmentList.filteredAppointments.
      simpl.
      rewrite (Permutation_length (AppointmentListFacts.sort_Permutation _)).
      reflexivity.
Qed.

Lemma patient_dashboard_all_or_nothing_witness :
  let history := [ PatientDashboard.mkDetection "skin" "Eczema" ] in
  let st := PatientDashboard.fetchDashboardData 0 (Some (Some history)) None
              PatientDashboard.initial in
  PatientDashboard.stats st = PatientDashboard.mkStats 0 0 0 /\
  PatientDashboard.recentResults st = [].
Proof.
  exact (proj1 (proj2 (patient_dashboard_all_or_nothing 0
           (Some (Some [ PatientDashboard.mkDetection "skin" "Eczema" ])) None
           PatientDashboard.initial)) (or_intror eq_refl)).
Defined.

Lemma uniquePatients_le (appointments : list DoctorDashboard.Appt) :
  (DoctorDashboard.uniquePatients appointments <= length appointments)%nat.
Proof.
  unfold DoctorDashboard.uniquePatients.
  induction appointments as [|a l IH]; cbn [map length].
  - now rewrite list_to_set_nil, size_empty.
  - rewrite list_to_set_cons, size_union_alt, size_singleton.
    assert (Hsub :
      (list_to_set (map DoctorDashboard.patient_name l) : gset string)
        ∖ {[DoctorDashboard.patient_name a]}
      ⊆ list_to_set (map DoctorDashboard.patient_name l)) by set_solver.
    apply subseteq_size in Hsub. lia.
Qed.

(** X20. The counters of the doctor's dashboard, for an answered
    request: the number of patients is the number of different patient
    names, so it is at most the number of appointments, it is that number
    when no name occurs twice, and appointments under one name count as
    one patient; no appointment is counted both as upcoming and as
    completed; and today's list is a selection of the appointments by day
    alone, whatever their status. A rejected request leaves counters and
    list as they were. *)
Theorem doctor_dashboard_counters
    (host : BookAppointment.Host) (now : Z) (appointments : list DoctorDashboard.Appt)
    (st : DoctorDashboard.State) :
  let st' := DoctorDashboard.fetchDashboardData host now (Some (Some appointments)) st in
  let s := DoctorDashboard.stats st' in
  (DoctorDashboard.totalPatients s <= length appointments)%nat /\
  (NoDup (map DoctorDashboard.patient_name appointments) ->
     DoctorDashboard.totalPatients s = length appointments) /\
  (forall name,
     In name (map DoctorDashboard.patient_name appointments) ->
     DoctorDashboard.uniquePatients
       (appointments ++ [DoctorDashboard.mkAppt
                           (AppointmentList.mkAppointment 0 "scheduled" now None) name])
     = DoctorDashboard.totalPatients s) /\
  (DoctorDashboard.upcomingAppointments s + DoctorDashboard.completedAppointments s
     <= length appointments)%nat /\
  DoctorDashboard.todayAppointments s = length (DoctorDashboard.todaysAppointments st') /\
  (forall a, In a (DoctorDashboard.todaysAppointments st') <->
             In a appointments /\ DoctorDashboard.isToday host now a = true) /\
  DoctorDashboard.stats (DoctorDashboard.fetchDashboardData host now None st)
    = DoctorDashboard.stats st /\
  DoctorDashboard.todaysAppointments (DoctorDashboard.fetchDashboardData host now None st)
    = DoctorDashboard.todaysAppointments st.
Proof.
  intros st' s. subst s st'. simpl.
  split; [apply uniquePatients_le|].
  split; [|split; [|split; [|split; [reflexivity|split; [|split; reflexivity]]]]].
  - intros Hnd. unfold DoctorDashboard.uniquePatients.
    apply NoDup_ListNoDup in Hnd.
    rewrite size_list_to_set by exact Hnd. now rewrite length_map.
  - intros name Hin. unfold DoctorDashboard.uniquePatients.
    f_equal. rewrite map_app, list_to_set_app_L. simpl.
    apply list_elem_of_In in Hin. set_solver.
  - apply length_two_filters. intros a Ha.
    unfold DoctorDashboard.isUpcoming in Ha. apply andb_true_iff in Ha as [Ha _].
    apply bool_decide_eq_true in Ha.
    unfold DoctorDashboard.isCompleted. apply bool_decide_eq_false. congruence.
  - intros a. apply filter_In.
Qed.

(** A row of today's list shows "Join Call" for every appointment with a
    link, a cancelled one included, where the appointment list shows it
    for scheduled appointments only. *)
Example join_call_on_cancelled_appointment :
  let cancelled := AppointmentList.mkAppointment 4 "cancelled" 1000
                     (Some "https://meet.example/abc") in
  DoctorDashboard.joinCallShown (DoctorDashboard.mkAppt cancelled "Asha") = true /\
  AppointmentList.renderActions (Some (mkUser "Dr. Rao" "doctor" "Pune")) cancelled = [].
Proof. split; reflexivity. Qed.

End DashboardFacts.

(** * Signup form *)
Module SignupFacts.
Import JsString Signup.

Lemma digitValue_digitChar (d : Z) :
  0 <= d <= 9 ->
  BookAppointment.digitValue (BookAppointment.digitChar d) = Some d.
Proof.
  intros H.
  assert (Hd : d = 0 \/ d = 1 \/ d = 2 \/ d = 3 \/ d = 4 \/ d = 5 \/ d = 6
               \/ d = 7 \/ d = 8 \/ d = 9) by lia.
  repeat (destruct Hd as [-> | Hd]; [reflexivity |]).
  now subst d.
Qed.

(** A decimal digit is no white space, no sign and no x. *)
Lemma digit_is_plain (c : ascii) (d : Z) :
  BookAppointment.digitValue c = Some d ->
  isWhiteSpace c = false /\
  BookAppointment.isChar c "-" = false /\
  BookAppointment.isChar c "+" = false /\
  BookAppointment.isChar c "x" = false /\
  BookAppointment.isChar c "X" = false.
Proof.
  destruct c as [[] [] [] [] [] [] [] []]; vm_compute; intros H;
    first [discriminate H | repeat split].
Qed.

Lemma digitsOnto_unfold (n : Z) (acc : string) :
  BookAppointment.digitsOnto n acc =
  if Z_lt_dec n 10 then String (BookAppointment.digitChar (n mod 10)) acc
  else BookAppointment.digitsOnto (n / 10)
         (String (BookAppointment.digitChar (n mod 10)) acc).
Proof.
  rewrite BookAppointment.digitsOnto_equation_1.
  now destruct (Z_lt_dec n 10).
Qed.

(** Reading back the digits that [digitsOnto] wrote in front of [rest]. *)
Lemma takeDigits_digitsOnto (n : Z) :
  0 <= n ->
  forall (acc : Z) (seen : bool) (rest : string),
  exists k : Z,
    0 <= k /\
    takeDigits 10 BookAppointment.digitValue acc seen
      (BookAppointment.digitsOnto n rest) =
    takeDigits 10 BookAppointment.digitValue (10 ^ k * acc + n) true rest.
Proof.
  intros Hn. pattern n. apply (Zlt_0_ind); [| exact Hn].
  clear n Hn. intros n IH Hn acc seen rest.
  rewrite digitsOnto_unfold. destruct (Z_lt_dec n 10) as [Hlt | Hge].
  - exists 1. split; [lia |].
    rewrite Z.mod_small by lia. cbn [takeDigits].
    rewrite digitValue_digitChar by lia.
    f_equal; lia.
  - assert (Hq : 0 <= n / 10 < n).
    { split; [apply Z.div_pos; lia | apply Z.div_lt; lia]. }
    destruct (IH (n / 10) Hq acc seen
                (String (BookAppointment.digitChar (n mod 10)) rest))
      as [k [Hk Heq]].
    exists (k + 1). split; [lia |].
    rewrite Heq. cbn [takeDigits].
    pose proof (Z.mod_pos_bound n 10 ltac:(lia)) as Hm.
    rewrite digitValue_digitChar by lia.
    f_equal. rewrite Z.pow_add_r by lia.
    pose proof (Z.div_mod n 10 ltac:(lia)). lia.
Qed.

(** The text that [digitsOnto] writes begins with a digit, and what
    follows the first digit is [rest] itself or begins with a digit. *)
Lemma digitsOnto_head (n : Z) :
  0 <= n ->
  forall rest : string,
  exists (c : ascii) (d : Z) (s : string),
    BookAppointment.digitsOnto n rest = String c s /\
    BookAppointment.digitValue c = Some d /\
    (s = rest \/
     exists (c' : ascii) (d' : Z) (s' : string),
       s = String c' s' /\ BookAppointment.digitValue c' = Some d').
Proof.
  intros Hn. pattern n. apply (Zlt_0_ind); [| exact Hn].
  clear n Hn. intros n IH Hn rest.
  rewrite digitsOnto_unfold. destruct (Z_lt_dec n 10) as [Hlt | Hge].
  - exists (BookAppointment.digitChar (n mod 10)), (n mod 10), rest.
    split; [reflexivity |]. split; [| now left].
    apply digitValue_digitChar. rewrite Z.mod_small; lia.
  - assert (Hq : 0 <= n / 10 < n).
    { split; [apply Z.div_pos; lia | apply Z.div_lt; lia]. }
    destruct (IH (n / 10) Hq
                (String (BookAppointment.digitChar (n mod 10)) rest))
      as [c [d [s [Heq [Hc Hs]]]]].
    exists c, d, s. split; [exact Heq |]. split; [exact Hc |].
    right. destruct Hs as [-> | Hs]; [| exact Hs].
    exists (BookAppointment.digitChar (n mod 10)), (n mod 10), rest.
    split; [reflexivity |].
    apply digitValue_digitChar.
    pose proof (Z.mod_pos_bound n 10 ltac:(lia)). lia.
Qed.

Lemma roundToDouble_safe (m : Z) :
  0 <= m <= 2 ^ 53 -> roundToDouble m = Some m.
Proof.
  intros H. unfold roundToDouble.
  destruct (m <? 2 ^ 53) eqn:E; [reflexivity|].
  apply Z.ltb_ge in E. assert (m = 2 ^ 53) by lia. subst m.
  vm_compute. reflexivity.
Qed.

(** The magnitude part of [parseInt] on the digits of a number. *)
Lemma parseInt_digits (n : Z) :
  0 <= n <= 2 ^ 53 ->
  parseInt (BookAppointment.digitsOnto n "") = Finite n.
Proof.
  intros Hsafe. assert (Hn : 0 <= n) by lia.
  destruct (digitsOnto_head n Hn "") as [c [d [s [Heq [Hc Hs]]]]].
  destruct (takeDigits_digitsOnto n Hn 0 false "") as [k [Hk Htake]].
  destruct (digit_is_plain c d Hc) as [Hw [Hminus [Hplus _]]].
  unfold parseInt. rewrite Heq. cbn [trimStart]. rewrite Hw.
  rewrite Hminus, Hplus. cbn [orb].
  rewrite Heq in Htake.
  assert (Hmag : takeDigits 10 BookAppointment.digitValue 0 false (String c s)
                 = Some n).
  { rewrite Htake. cbn [takeDigits]. f_equal; lia. }
  destruct Hs as [-> | [c' [d' [s' [-> Hc']]]]].
  - rewrite Hmag, (roundToDouble_safe n Hsafe). reflexivity.
  - destruct (digit_is_plain c' d' Hc') as [_ [_ [_ [Hx HX]]]].
    rewrite Hx, HX. cbn [orb]. rewrite andb_false_r.
    rewrite Hmag, (roundToDouble_safe n Hsafe). reflexivity.
Qed.

(** [parseInt] reads back the decimal text of an integer of at most 2^53
    in size, whatever the sign. *)
Lemma parseInt_numberToString (n : Z) :
  Z.abs n <= 2 ^ 53 ->
  parseInt (BookAppointment.numberToString n) = Finite n.
Proof.
  intros Hsafe.
  unfold BookAppointment.numberToString.
  destruct (n <? 0) eqn:Hneg.
  - apply Z.ltb_lt in Hneg.
    assert (Hn : 0 <= - n) by lia.
    destruct (digitsOnto_head (- n) Hn "") as [c [d [s [Heq [Hc Hs]]]]].
    destruct (takeDigits_digitsOnto (- n) Hn 0 false "") as [k [Hk Htake]].
    unfold parseInt.
    change (trimStart (String "-" (BookAppointment.digitsOnto (- n) "")))
      with (String "-" (BookAppointment.digitsOnto (- n) "")).
    assert (Hm : BookAppointment.isChar "-" "-" = true) by reflexivity.
    cbv beta iota zeta. rewrite !Hm. cbn [orb]. cbv beta iota.
    rewrite Heq in Htake |- *.
    assert (Hmag : takeDigits 10 BookAppointment.digitValue 0 false (String c s)
                   = Some (- n)).
    { rewrite Htake. cbn [takeDigits]. f_equal; lia. }
    destruct Hs as [-> | [c' [d' [s' [-> Hc']]]]].
    + rewrite Hmag, (roundToDouble_safe (- n)) by lia. f_equal; lia.
    + destruct (digit_is_plain c' d' Hc') as [_ [_ [_ [Hx HX]]]].
      rewrite Hx, HX. cbn [orb]. rewrite andb_false_r.
      rewrite Hmag, (roundToDouble_safe (- n)) by lia. f_equal; lia.
  - apply Z.ltb_ge in Hneg. apply parseInt_digits. lia.
Qed.

Lemma numberToString_truthy (n : Z) :
  truthy (BookAppointment.numberToString n) = true.
Proof.
  unfold BookAppointment.numberToString.
  destruct (n <? 0) eqn:Hneg; [reflexivity |].
  apply Z.ltb_ge in Hneg.
  destruct (digitsOnto_head n Hneg "") as [c [d [s [Heq _]]]].
  now rewrite Heq.
Qed.

Lemma settle_sent (greeting fallback : string) (reply : AuthContext.AuthReply)
    (w : AuthContext.World) :
  AuthContext.sent (fst (AuthContext.settle greeting fallback reply w)) =
  AuthContext.sent w.
Proof. destruct reply as [token [u |] | detail]; reflexivity. Qed.

Lemma userType_step (st : State) (e : Event) :
  (userType st = "patient" \/ userType st = "doctor") ->
  userType (step st e) = "patient" \/ userType (step st e) = "doctor".
Proof.
  intros H. destruct e as [| | name value]; cbn [step setUserType userType].
  - now left.
  - now right.
  - destruct (onScreen st name); exact H.
Qed.

Lemma onScreen_named (st : State) (name : string) :
  onScreen st name = true ->
  name ∈ commonInputs ++ patientInputs ++ doctorInputs.
Proof.
  unfold onScreen. intros H.
  apply orb_true_iff in H as [H | H];
    [apply orb_true_iff in H as [H | H] |].
  - apply bool_decide_eq_true in H. set_solver.
  - apply andb_true_iff in H as [_ H]. apply bool_decide_eq_true in H.
    set_solver.
  - apply andb_true_iff in H as [_ H]. apply bool_decide_eq_true in H.
    set_solver.
Qed.

Lemma names_step (st : State) (e : Event) :
  dom (formData st) = dom initialFormData ->
  dom (formData (step st e)) = dom initialFormData.
Proof.
  intros H. destruct e as [| | name value]; cbn [step setUserType formData];
    try exact H.
  destruct (onScreen st name) eqn:Hon; [| exact H].
  apply onScreen_named in Hon.
  cbn [handleChange formData]. rewrite dom_insert_L, H.
  assert (Hin : name ∈ dom initialFormData).
  { unfold initialFormData. rewrite dom_list_to_map_L.
    cbn [fmap list_fmap fst commonInputs patientInputs doctorInputs app] in *.
    set_solver. }
  set_solver.
Qed.

Lemma run_snoc (events : list Event) (e : Event) (st : State) :
  run (events ++ [e]) st = step (run events st) e.
Proof. unfold run. now rewrite fold_left_app. Qed.

(** X21. Whatever is clicked and typed on the signup page, the account
    type is 'patient' or 'doctor' and the form holds exactly its ten named
    fields; submitting sends one POST to /auth/signup/ followed by the
    account type, under the headers current at that moment, and leaves the
    form as typed with the busy flag off, whether the server accepts or
    rejects. *)
Theorem signup_request_follows_the_toggle
    (events : list Event) (reply : AuthContext.AuthReply)
    (w : AuthContext.World) :
  let st := run events initial in
  let after := handleSubmit reply st w in
  (userType st = "patient" \/ userType st = "doctor") /\
  dom (formData st) = dom initialFormData /\
  AuthContext.sent (snd after) =
    AuthContext.sent w ++
    [AuthContext.mkApiRequest "POST" ("/auth/signup/" +:+ userType st)
       (AuthContext.defaultHeaders w)] /\
  user_type_sent (submitData st) = userType st /\
  userType (fst after) = userType st /\
  formData (fst after) = formData st /\
  loading (fst after) = false.
Proof.
  cbv zeta.
  assert (Hinv : (userType (run events initial) = "patient" \/
                  userType (run events initial) = "doctor") /\
                 dom (formData (run events initial)) = dom initialFormData).
  { induction events as [| e events IH] using rev_ind.
    - split; [now left | reflexivity].
    - rewrite run_snoc. destruct IH as [Ht Hd].
      split; [now apply userType_step | now apply names_step]. }
  destruct Hinv as [Ht Hd].
  split; [exact Ht |]. split; [exact Hd |].
  split; [| repeat split].
  unfold handleSubmit. cbn [snd fst userType formData].
  unfold AuthContext.signup. rewrite settle_sent.
  cbn [asUser submitData user_type user_type_sent userType AuthContext.request
       AuthContext.sent].
  destruct Ht as [-> | ->]; reflexivity.
Qed.

Lemma lookup_texts (st : State) (name : string) :
  name <> "user_type" -> name <> "age" -> name <> "experience_years" ->
  texts (submitData st) !! name = formData st !! name.
Proof.
  intros H1 H2 H3. cbn [submitData texts].
  now rewrite !lookup_delete_ne by congruence.
Qed.

(** X22. A number typed into the age or the experience field is
    submitted as that number as long as it is at most 2^53 in size:
    [parseInt] reads back the decimal text of such an integer; an emptied
    field is submitted as null, and the typed text itself is not part of
    the submitted data. *)
Theorem typed_numbers_are_submitted_as_numbers (st : State) (n : Z) :
  Z.abs n <= 2 ^ 53 ->
  parseInt (BookAppointment.numberToString n) = Finite n /\
  age_sent (submitData
    (handleChange "age" (BookAppointment.numberToString n) st)) = Some n /\
  experience_years_sent (submitData
    (handleChange "experience_years" (BookAppointment.numberToString n) st))
    = Some n /\
  age_sent (submitData (handleChange "age" "" st)) = None /\
  experience_years_sent (submitData (handleChange "experience_years" "" st))
    = None /\
  texts (submitData st) !! "age" = None /\
  texts (submitData st) !! "experience_years" = None.
Proof.
  intros Hsafe.
  pose proof (parseInt_numberToString n Hsafe) as Hp.
  pose proof (numberToString_truthy n) as Ht.
  split; [exact Hp |].
  cbn [submitData handleChange formData age_sent experience_years_sent texts].
  rewrite !lookup_insert_eq. cbn [numberOrNull truthy].
  rewrite Ht, Hp. cbn [onTheWire].
  repeat split.
  - rewrite lookup_delete_ne by discriminate. now rewrite lookup_delete_eq.
  - rewrite !lookup_delete_ne by discriminate. now rewrite lookup_delete_eq.
Qed.

(** The largest integer that is read back, typed as the age. *)
Lemma typed_numbers_are_submitted_as_numbers_witness :
  BookAppointment.numberToString 9007199254740992 = "9007199254740992" /\
  age_sent (submitData (handleChange "age" "9007199254740992" initial))
    = Some 9007199254740992.
Proof.
  split; [vm_compute; reflexivity|].
  exact (proj1 (proj2 (typed_numbers_are_submitted_as_numbers initial
                         9007199254740992 ltac:(vm_compute; discriminate)))).
Defined.

(** Beyond 2^53 the number is rounded, and a text of digits long enough
    is Infinity, which is submitted as null; what follows the digits is
    dropped, and a text without a leading digit is NaN. *)
Example parseInt_on_some_texts :
  parseInt "9007199254740993" = Finite 9007199254740992 /\
  parseInt "9007199254740995" = Finite 9007199254740996 /\
  parseInt "-9007199254740993" = Finite (- 9007199254740992) /\
  parseInt "2.5" = Finite 2 /\
  parseInt "1e5" = Finite 1 /\
  parseInt " 42 years" = Finite 42 /\
  parseInt "0x1A" = Finite 26 /\
  parseInt "-0" = Finite 0 /\
  parseInt "abc" = NaN /\
  parseInt "-" = NaN /\
  parseInt (String "1" (string_of_list_ascii (repeat "0"%char 309)))
    = Infinite false /\
  numberOrNull (Some (String "1" (string_of_list_ascii (repeat "0"%char 309))))
    = None.
Proof. repeat split; vm_compute; reflexivity. Qed.

Lemma typed_then_switched_to_patient (st : State) (name value : string) :
  In name doctorInputs ->
  run [ClickDoctor; Change name value; ClickPatient] st
  = mkState "patient" (<[name := value]> (formData st)) (loading st).
Proof.
  intros Hin. cbn [In doctorInputs] in Hin.
  destruct Hin as [<- | [<- | [<- | []]]]; reflexivity.
Qed.

Lemma typed_then_switched_to_doctor (st : State) (name value : string) :
  In name patientInputs ->
  run [ClickPatient; Change name value; ClickDoctor] st
  = mkState "doctor" (<[name := value]> (formData st)) (loading st).
Proof.
  intros Hin. cbn [In patientInputs] in Hin.
  destruct Hin as [<- | [<- | []]]; reflexivity.
Qed.

(** X23. Switching the account type hides the other type's inputs but
    keeps their text: what was typed into a doctor's field is still
    submitted after switching back to 'patient', and what was typed into
    the gender field is still submitted by a doctor; a hidden input
    cannot be changed. *)
Theorem hidden_fields_are_still_submitted (st : State) (value : string) :
  let asPatient name := run [ClickDoctor; Change name value; ClickPatient] st in
  let asDoctor name := run [ClickPatient; Change name value; ClickDoctor] st in
  (user_type_sent (submitData (asPatient "specialty")) = "patient" /\
   texts (submitData (asPatient "specialty")) !! "specialty" = Some value) /\
  (user_type_sent (submitData (asPatient "license_number")) = "patient" /\
   texts (submitData (asPatient "license_number")) !! "license_number"
     = Some value) /\
  experience_years_sent (submitData (asPatient "experience_years"))
    = numberOrNull (Some value) /\
  (user_type_sent (submitData (asDoctor "gender")) = "doctor" /\
   texts (submitData (asDoctor "gender")) !! "gender" = Some value) /\
  age_sent (submitData (asDoctor "age")) = numberOrNull (Some value) /\
  (forall name,
     In name doctorInputs ->
     step (setUserType "patient" st) (Change name value)
     = setUserType "patient" st) /\
  (forall name,
     In name patientInputs ->
     step (setUserType "doctor" st) (Change name value)
     = setUserType "doctor" st).
Proof.
  cbv beta zeta.
  rewrite !typed_then_switched_to_patient by (cbn; tauto).
  rewrite !typed_then_switched_to_doctor by (cbn; tauto).
  cbn [submitData texts user_type_sent experience_years_sent age_sent
       userType formData].
  rewrite !lookup_delete_ne by discriminate.
  rewrite !lookup_insert_eq.
  repeat split.
  - intros name Hin. cbn [In doctorInputs] in Hin.
    destruct Hin as [<- | [<- | [<- | []]]]; reflexivity.
  - intros name Hin. cbn [In patientInputs] in Hin.
    destruct Hin as [<- | [<- | []]]; reflexivity.
Qed.

End SignupFacts.

(** * Home page *)
Module HomePageFacts.
Import HomePage.

Lemma afterTicks_mod (n : nat) : afterTicks n = Z.of_nat n mod 3.
Proof.
  unfold afterTicks. induction n as [| n IH].
  - reflexivity.
  - rewrite Nat.iter_succ, IH. unfold tick.
    rewrite Nat2Z.inj_succ, <- Z.add_1_r.
    now rewrite Zplus_mod_idemp_l.
Qed.

(** X24. The feature rotation of the home page never leaves the three
    cards: after any number of timer ticks exactly one card is the
    highlighted one, the card at position (number of ticks) mod 3, and
    three ticks later it is the same card again. *)
Theorem feature_rotation_stays_on_a_card (n : nat) :
  afterTicks n = Z.of_nat n mod 3 /\
  (exists title,
     features !! Z.to_nat (afterTicks n) = Some title /\
     highlighted (afterTicks n) = [title]) /\
  afterTicks (n + 3) = afterTicks n.
Proof.
  split; [apply afterTicks_mod |]. split.
  - rewrite afterTicks_mod.
    pose proof (Z.mod_pos_bound (Z.of_nat n) 3 ltac:(lia)) as Hb.
    assert (Hc : Z.of_nat n mod 3 = 0 \/ Z.of_nat n mod 3 = 1
                 \/ Z.of_nat n mod 3 = 2) by lia.
    destruct Hc as [-> | [-> | ->]]; eexists; split; reflexivity.
  - rewrite !afterTicks_mod, Nat2Z.inj_add.
    change (Z.of_nat 3) with (1 * 3).
    now rewrite Z.mod_add by lia.
Qed.

End HomePageFacts.
